(** * Revolute module firmware (Thesis_Revolute_Eval/main.c)

    A shallow embedding of the PSoC firmware of one revolute module and the
    properties of its discovery protocol, frame reader and servo coupling.

    Conventions of the embedding.
    - [char] is the unsigned 8-bit type of the target compiler: the code
      compares [char] variables with 251, 254 and 255.  Bytes are [Z].
    - The globals of main.c live in a store indexed by their names.
    - Every call into the generated PSoC API is recorded, in order, in the
      [hal] log of the board; bytes put on a transmitter and the timers that
      run are read back from that log.
    - The environment (timer interrupts, bytes arriving on a receiver,
      transmit-complete flags) is a script: one batch of events for every
      pass of a busy-wait loop, delivered between the test of the loop and
      its body.  A run that needs more script than it was given has no
      result, so [f w = Some (r, w')] says that [f] returns.
    - The firmware is a function of the receiver call [cReadChar], which is
      not part of main.c; what is proved of the frame handler holds for any
      such call, and [peekChar] is the one the interface describes. *)

From Stdlib Require Import ZArith List Bool Lia.
Import ListNotations.
Local Open Scope Z_scope.

(** ** Constants of main.c *)

Definition WAIT : Z := 1.
Definition MY_RESPONSE : Z := 2.
Definition RESPONSE_1 : Z := 3.
Definition RESPONSE_2 : Z := 4.
Definition RESPONSE_3 : Z := 5.
Definition RESPONSE_4 : Z := 6.
Definition HELLO_MODE : Z := 7.
Definition INITIALIZE : Z := 8.

Definition PORT_A : Z := 65.
Definition PORT_B : Z := 66.
Definition PORT_C : Z := 67.
Definition PORT_D : Z := 68.

Definition START_TRANSMIT : Z := 248.
Definition END_TRANSMIT : Z := 85.
Definition HELLO_BYTE : Z := 200.
Definition ID_ASSIGNMENT : Z := 201.
Definition ID_ASSIGN_OK : Z := 202.
Definition PING : Z := 203.
Definition CLEAR_CONFIG : Z := 204.
Definition CONFIG_CLEARED : Z := 205.
Definition MASTER_ID : Z := 0.
Definition BROADCAST : Z := 254.
Definition DEFAULT_ID : Z := 251.

Definition SERVO_ID_MIN : Z := 0.
Definition SERVO_ID_MAX : Z := 253.
Definition SERVO_START : Z := 255.
Definition READ_LENGTH : Z := 4.
Definition WRITE_LENGTH : Z := 4.
Definition PING_LENGTH : Z := 2.
Definition RESET_LENGTH : Z := 2.
Definition ID_ADDRESS : Z := 3.
Definition STATUS_RET_ADDRESS : Z := 16.
Definition PING_SERVO : Z := 1.
Definition READ_SERVO : Z := 2.
Definition WRITE_SERVO : Z := 3.
Definition RESET_SERVO : Z := 6.
Definition STATUS_RET_NEVER : Z := 0.
Definition STATUS_RET_READ : Z := 1.
Definition STATUS_RET_ALL : Z := 2.
Definition SERVO_COMM_ATTEMPTS : Z := 10.
Definition STATUS_RET_LEVEL : Z := STATUS_RET_READ.

(** ** The board *)

(** The global variables of main.c. *)
Inductive var : Type :=
| CHILD | ID | CONFIGURED | TIMEOUT | STATE
| COMMAND_SOURCE | COMMAND_DESTINATION | COMMAND_TYPE | COMMAND_PARAM
| COMMAND_LENGTH | COMMAND_ERROR | SERVO_ID.

(** The port registers the code writes. *)
Inductive port : Type := PRT0DR | PRT0GS | PRT1DR | PRT2DR.

(** Receivers, transmitters, timers and loadable configurations. *)
Inductive rxdev : Type :=
| WAIT_RECV | RX8_2
| HELLO_1 | HELLO_2 | HELLO_3 | HELLO_4
| CHILD_1 | CHILD_2 | CHILD_3 | CHILD_4
| INIT_RX.

Inductive txdev : Type := TX_014 | TX_23.

Inductive timer : Type :=
| TX_01234_TIMEOUT
| CHILD_1_TIMEOUT | CHILD_2_TIMEOUT | CHILD_3_TIMEOUT | CHILD_4_TIMEOUT
| HELLO_TIMEOUT | INIT_TIMEOUT.

Inductive config : Type :=
| waiting | hello | my_response
| response1 | response2 | response3 | response4
| initial.

Definition var_eq_dec : forall a b : var, {a = b} + {a <> b}.
Proof. decide equality. Defined.

Definition port_eq_dec : forall a b : port, {a = b} + {a <> b}.
Proof. decide equality. Defined.

Definition rxdev_eq_dec : forall a b : rxdev, {a = b} + {a <> b}.
Proof. decide equality. Defined.

Definition txdev_eq_dec : forall a b : txdev, {a = b} + {a <> b}.
Proof. decide equality. Defined.

Definition timer_eq_dec : forall a b : timer, {a = b} + {a <> b}.
Proof. decide equality. Defined.

Definition config_eq_dec : forall a b : config, {a = b} + {a <> b}.
Proof. decide equality. Defined.

(** Calls into the PSoC API, as main.c makes them. *)
Inductive hal_call : Type :=
| EnableGInt
| EnableIntMask
| LoadConfig (c : config)
| UnloadConfig (c : config)
| RxStart (d : rxdev)
| TxStart (d : txdev)
| TimerEnableInt (t : timer)
| TimerStart (t : timer)
| TimerStop (t : timer)
| TxPut (d : txdev) (b : Z).

(** What the environment does during one pass of a busy-wait loop. *)
Inductive event : Type :=
| Irq (t : timer)             (* the period of timer [t] elapses *)
| Recv (d : rxdev) (b : Z)    (* byte [b] arrives on receiver [d] *)
| TxComplete (d : txdev).     (* transmitter [d] has shifted out its data *)

Record world : Type := mkWorld {
  glob : var -> Z;               (* the globals of main.c *)
  reg : port -> Z;               (* port registers *)
  rx : rxdev -> list Z;          (* bytes pending on each receiver *)
  txc : txdev -> bool;           (* transmit-complete flag of each transmitter *)
  hal : list hal_call;           (* API calls so far, newest first *)
  future : list (list event)     (* the script of the environment *)
}.

Definition set_glob (v : var) (x : Z) (w : world) : world :=
  mkWorld (fun v' => if var_eq_dec v' v then x else glob w v')
          (reg w) (rx w) (txc w) (hal w) (future w).

Definition set_reg (p : port) (x : Z) (w : world) : world :=
  mkWorld (glob w) (fun p' => if port_eq_dec p' p then x else reg w p')
          (rx w) (txc w) (hal w) (future w).

Definition set_rx (d : rxdev) (l : list Z) (w : world) : world :=
  mkWorld (glob w) (reg w) (fun d' => if rxdev_eq_dec d' d then l else rx w d')
          (txc w) (hal w) (future w).

Definition set_txc (d : txdev) (b : bool) (w : world) : world :=
  mkWorld (glob w) (reg w) (rx w)
          (fun d' => if txdev_eq_dec d' d then b else txc w d')
          (hal w) (future w).

Definition log_call (c : hal_call) (w : world) : world :=
  mkWorld (glob w) (reg w) (rx w) (txc w) (c :: hal w) (future w).

Definition set_future (f : list (list event)) (w : world) : world :=
  mkWorld (glob w) (reg w) (rx w) (txc w) (hal w) f.

(** The bytes put on transmitter [d], oldest first. *)
Fixpoint wire (d : txdev) (log : list hal_call) : list Z :=
  match log with
  | [] => []
  | TxPut d' b :: l => if txdev_eq_dec d d' then wire d l ++ [b] else wire d l
  | _ :: l => wire d l
  end.

(** The configuration each timer block belongs to. *)
Definition timer_config (t : timer) : config :=
  match t with
  | TX_01234_TIMEOUT => my_response
  | CHILD_1_TIMEOUT => response1
  | CHILD_2_TIMEOUT => response2
  | CHILD_3_TIMEOUT => response3
  | CHILD_4_TIMEOUT => response4
  | HELLO_TIMEOUT => hello
  | INIT_TIMEOUT => initial
  end.

(** Modelled from the spec: the loadable configurations and the timer API are
    generated code outside main.c.  A timer runs from its [Start] until its
    [Stop]; unloading a configuration tears down its peripheral set, the
    timer of that role included. *)
Fixpoint running (t : timer) (log : list hal_call) : bool :=
  match log with
  | [] => false
  | TimerStart t' :: l => if timer_eq_dec t t' then true else running t l
  | TimerStop t' :: l => if timer_eq_dec t t' then false else running t l
  | UnloadConfig c :: l =>
      if config_eq_dec (timer_config t) c then false else running t l
  | _ :: l => running t l
  end.

(** The interrupt handlers of main.c all do [TIMEOUT = 1]; a handler runs
    only while its timer does. *)
Definition apply_event (w : world) (e : event) : world :=
  match e with
  | Irq t => if running t (hal w) then set_glob TIMEOUT 1 w else w
  | Recv d b => set_rx d (rx w d ++ [b]) w
  | TxComplete d => set_txc d true w
  end.

(** ** Commands over the board *)

Definition M (A : Type) : Type := world -> option (A * world).

Definition ret {A : Type} (a : A) : M A := fun w => Some (a, w).

Definition bind {A B : Type} (m : M A) (k : A -> M B) : M B :=
  fun w => match m w with
           | Some (a, w1) => k a w1
           | None => None
           end.

Declare Scope cmd_scope.
Delimit Scope cmd_scope with cmd.
Notation "x <- m ;; k" := (bind m (fun x => k))
  (at level 61, m at next level, right associativity) : cmd_scope.
Notation "m ;; k" := (bind m (fun _ => k))
  (at level 61, right associativity) : cmd_scope.
Local Open Scope cmd_scope.

Definition get (v : var) : M Z := fun w => Some (glob w v, w).
Definition set (v : var) (x : Z) : M unit := fun w => Some (tt, set_glob v x w).
Definition call (c : hal_call) : M unit := fun w => Some (tt, log_call c w).

(** [PRTx |= m] and [PRTx &= m]. *)
Definition reg_or (p : port) (m : Z) : M unit :=
  fun w => Some (tt, set_reg p (Z.lor (reg w p) m) w).
Definition reg_and (p : port) (m : Z) : M unit :=
  fun w => Some (tt, set_reg p (Z.land (reg w p) m) w).

(** One pass of a busy-wait loop: the next batch of the script happens. *)
Definition pause : M unit :=
  fun w => match future w with
           | [] => None
           | b :: rest => Some (tt, fold_left apply_event b (set_future rest w))
           end.

(** [while (cond) { body }] for a loop that waits on the hardware: time
    passes between the test and the body.  [L] holds the locals the loop
    changes. *)
Fixpoint spin_fuel {L : Type} (n : nat) (cond : L -> world -> bool)
         (body : L -> M L) (l : L) : M L :=
  match n with
  | O => fun _ => None
  | S n' => fun w =>
      if cond l w
      then (pause ;; l' <- body l ;; spin_fuel n' cond body l') w
      else Some (l, w)
  end.

Definition spin {L : Type} (cond : L -> world -> bool) (body : L -> M L)
           (l : L) : M L :=
  fun w => spin_fuel (S (length (future w))) cond body l w.

(** [while (cond) { body }] for a loop whose body waits on the hardware
    itself; every pass uses up some of the script. *)
Fixpoint loop_fuel {L : Type} (n : nat) (cond : L -> world -> bool)
         (body : L -> M L) (l : L) : M L :=
  match n with
  | O => fun _ => None
  | S n' => fun w =>
      if cond l w
      then (l' <- body l ;; loop_fuel n' cond body l') w
      else Some (l, w)
  end.

Definition loop {L : Type} (cond : L -> world -> bool) (body : L -> M L)
           (l : L) : M L :=
  fun w => loop_fuel (S (length (future w))) cond body l w.

(** ** The peripheral drivers *)

(** Modelled from the spec: [PutChar(b)] of the generated transmitter API.
    The byte goes out on the transmitter, whose transmit-complete flag stays
    down until the environment reports the transmission complete. *)
Definition PutChar (d : txdev) (b : Z) : M unit :=
  fun w => Some (tt, set_txc d false (log_call (TxPut d b) w)).

(** [while(!(TX_xxx_bReadTxStatus() & TX_xxx_TX_COMPLETE));], with
    [bReadTxStatus() & TX_COMPLETE] the transmit-complete flag. *)
Definition wait_tx_complete (d : txdev) : M unit :=
  spin (fun _ w => negb (txc w d)) (fun _ => ret tt) tt.

(** Modelled from the spec: [cGetChar()] of the generated receiver API, a
    blocking read.  It waits until a byte is pending and takes it. *)
Definition cGetChar (d : rxdev) : M Z :=
  spin (fun _ w => match rx w d with [] => true | _ => false end)
       (fun _ => ret tt) tt ;;
  fun w => match rx w d with
           | b :: rest => Some (b, set_rx d rest w)
           | [] => None
           end.

(** Modelled from the spec: [cReadChar()] is a non-destructive peek.  It
    leaves the pending bytes alone and yields the first of them; with
    nothing pending it yields 0, which is no start or end byte. *)
Definition peekChar (pending : list Z) : Z * list Z :=
  (hd 0 pending, pending).

Definition when (b : bool) (m : M unit) : M unit := if b then m else ret tt.

(** ** The firmware *)

Section Firmware.

(** [xxx_cReadChar()] of the generated receiver API, as a function from the
    pending bytes to the byte read and the bytes still pending. *)
Variable readChar : list Z -> Z * list Z.

Definition cReadChar (d : rxdev) : M Z :=
  fun w => let (b, rest) := readChar (rx w d) in Some (b, set_rx d rest w).

(** main.c, lines 703-713. *)
Definition unloadAllConfigs : M unit :=
  call (UnloadConfig waiting) ;;
  call (UnloadConfig hello) ;;
  call (UnloadConfig my_response) ;;
  call (UnloadConfig response1) ;;
  call (UnloadConfig response2) ;;
  call (UnloadConfig response3) ;;
  call (UnloadConfig response4) ;;
  call (UnloadConfig initial).

(** main.c, lines 717-751. *)
Definition unloadConfig (config_num : Z) : M unit :=
  if config_num =? WAIT then call (UnloadConfig waiting)
  else if config_num =? HELLO_MODE then call (UnloadConfig hello)
  else if config_num =? MY_RESPONSE then call (UnloadConfig my_response)
  else if config_num =? RESPONSE_1 then call (UnloadConfig response1)
  else if config_num =? RESPONSE_2 then call (UnloadConfig response2)
  else if config_num =? RESPONSE_3 then call (UnloadConfig response3)
  else if config_num =? RESPONSE_4 then call (UnloadConfig response4)
  else if config_num =? INITIALIZE then call (UnloadConfig initial)
  else ret tt.

(** The settlement delay of the response role, main.c lines 228-232:
    [while(!TIMEOUT) { }]. *)
Definition settle : M unit :=
  spin (fun _ w => glob w TIMEOUT =? 0) (fun _ => ret tt) tt.

(** The servo-ID display of a configured module, main.c lines 367-392. *)
Definition show_servo_id : M unit :=
  reg_or PRT1DR 255 ;;
  s <- get SERVO_ID ;;
  if s =? 1 then reg_and PRT1DR 247
  else if s =? 2 then reg_and PRT1DR 223
  else if s =? 3 then reg_and PRT1DR 215
  else if s =? 4 then reg_and PRT1DR 127
  else if s =? 5 then reg_and PRT1DR 119
  else if s =? 6 then reg_and PRT1DR 95
  else ret tt.

(** [configToggle], main.c lines 183-399, in its three parts. *)

(** Lines 185-199: the pins are driven high and taken off the global bus,
    and the configuration of the current state is unloaded. *)
Definition release_role : M unit :=
  reg_or PRT0DR 31 ;;
  reg_and PRT0GS 224 ;;
  st <- get STATE ;;
  if negb (st =? 0) then unloadConfig st else unloadAllConfigs.

(** Lines 201-358: the configuration of [mode] is loaded and started. *)
Definition enter_role (mode : Z) : M unit :=
  if mode =? WAIT then
    call (LoadConfig waiting) ;;
    call (RxStart WAIT_RECV) ;;
    call (RxStart RX8_2) ;;
    set STATE WAIT
  else if mode =? MY_RESPONSE then
    call (LoadConfig my_response) ;;
    set TIMEOUT 0 ;;
    call (TxStart TX_014) ;;
    call (TxStart TX_23) ;;
    call (TimerEnableInt TX_01234_TIMEOUT) ;;
    call (TimerStart TX_01234_TIMEOUT) ;;
    settle ;;
    call (TimerStop TX_01234_TIMEOUT) ;;
    set TIMEOUT 0 ;;
    set STATE MY_RESPONSE
  else if mode =? RESPONSE_1 then
    call (LoadConfig response1) ;;
    set TIMEOUT 0 ;;
    call (RxStart CHILD_1) ;;
    call (TimerEnableInt CHILD_1_TIMEOUT) ;;
    call (TimerStart CHILD_1_TIMEOUT) ;;
    set STATE RESPONSE_1
  else if mode =? RESPONSE_2 then
    call (LoadConfig response2) ;;
    set TIMEOUT 0 ;;
    call (RxStart CHILD_2) ;;
    call (TimerEnableInt CHILD_2_TIMEOUT) ;;
    call (TimerStart CHILD_2_TIMEOUT) ;;
    set STATE RESPONSE_2
  else if mode =? RESPONSE_3 then
    call (LoadConfig response3) ;;
    set TIMEOUT 0 ;;
    call (RxStart CHILD_3) ;;
    call (TimerEnableInt CHILD_3_TIMEOUT) ;;
    call (TimerStart CHILD_3_TIMEOUT) ;;
    set STATE RESPONSE_3
  else if mode =? RESPONSE_4 then
    call (LoadConfig response4) ;;
    set TIMEOUT 0 ;;
    call (RxStart CHILD_4) ;;
    call (TimerEnableInt CHILD_4_TIMEOUT) ;;
    call (TimerStart CHILD_4_TIMEOUT) ;;
    set STATE RESPONSE_4
  else if mode =? HELLO_MODE then
    call (LoadConfig hello) ;;
    set TIMEOUT 0 ;;
    call (RxStart HELLO_1) ;;
    call (RxStart HELLO_2) ;;
    call (RxStart HELLO_3) ;;
    call (RxStart HELLO_4) ;;
    call (TimerEnableInt HELLO_TIMEOUT) ;;
    call (TimerStart HELLO_TIMEOUT) ;;
    set STATE HELLO_MODE
  else if mode =? INITIALIZE then
    call (LoadConfig initial) ;;
    set TIMEOUT 0 ;;
    call (RxStart INIT_RX) ;;
    call (TimerEnableInt INIT_TIMEOUT) ;;
    call (TimerStart INIT_TIMEOUT) ;;
    set STATE INITIALIZE
  else ret tt.

(** Lines 360-398: the pins go back on the global bus, all five of them and
    the LED and servo-ID display for a configured module, pin 0 alone
    otherwise. *)
Definition attach_bus : M unit :=
  c <- get CONFIGURED ;;
  if negb (c =? 0) then
    reg_or PRT0GS 31 ;;
    reg_and PRT2DR 254 ;;
    show_servo_id
  else
    reg_or PRT0GS 1 ;;
    reg_or PRT2DR 1.

Definition configToggle (mode : Z) : M unit :=
  release_role ;;
  enter_role mode ;;
  attach_bus.

(** main.c, lines 404-504.  The result is the [int] the function returns. *)
Definition commandReady : M Z :=
  st <- get STATE ;;
  if st =? WAIT then
    b <- cReadChar WAIT_RECV ;;
    if b =? START_TRANSMIT then
      b' <- cGetChar WAIT_RECV ;;
      if b' =? START_TRANSMIT then
        x <- cGetChar WAIT_RECV ;; set COMMAND_SOURCE x ;;
        x <- cGetChar WAIT_RECV ;; set COMMAND_DESTINATION x ;;
        x <- cGetChar WAIT_RECV ;; set COMMAND_TYPE x ;;
        x <- cGetChar WAIT_RECV ;; set COMMAND_PARAM x ;;
        ret 1
      else ret 0
    else ret 0
  else if st =? HELLO_MODE then
    b <- cReadChar HELLO_1 ;;
    if b =? START_TRANSMIT then set CHILD PORT_A ;; ret 1
    else
      b <- cReadChar HELLO_2 ;;
      if b =? START_TRANSMIT then set CHILD PORT_B ;; ret 1
      else
        b <- cReadChar HELLO_3 ;;
        if b =? START_TRANSMIT then set CHILD PORT_C ;; ret 1
        else
          b <- cReadChar HELLO_4 ;;
          if b =? START_TRANSMIT then set CHILD PORT_D ;; ret 1
          else ret 0
  else if st =? RESPONSE_1 then
    b <- cReadChar CHILD_1 ;; if b =? END_TRANSMIT then ret 1 else ret 0
  else if st =? RESPONSE_2 then
    b <- cReadChar CHILD_2 ;; if b =? END_TRANSMIT then ret 1 else ret 0
  else if st =? RESPONSE_3 then
    b <- cReadChar CHILD_3 ;; if b =? END_TRANSMIT then ret 1 else ret 0
  else if st =? RESPONSE_4 then
    b <- cReadChar CHILD_4 ;; if b =? END_TRANSMIT then ret 1 else ret 0
  else if st =? INITIALIZE then
    b <- cReadChar INIT_RX ;;
    if b =? SERVO_START then
      b' <- cGetChar INIT_RX ;;
      if b' =? SERVO_START then
        x <- cGetChar INIT_RX ;; set COMMAND_SOURCE x ;;
        x <- cGetChar INIT_RX ;; set COMMAND_LENGTH x ;;
        x <- cGetChar INIT_RX ;; set COMMAND_ERROR x ;;
        x <- cGetChar INIT_RX ;; set COMMAND_PARAM x ;;
        ret 1
      else ret 0
    else ret 0
  else ret 0.

(** main.c, lines 161-179. *)
Definition sayHello : M unit :=
  configToggle MY_RESPONSE ;;
  PutChar TX_014 START_TRANSMIT ;;
  PutChar TX_014 START_TRANSMIT ;;
  id <- get ID ;; PutChar TX_014 id ;;
  PutChar TX_014 MASTER_ID ;;
  PutChar TX_014 HELLO_BYTE ;;
  c <- get CHILD ;; PutChar TX_014 c ;;
  PutChar TX_014 END_TRANSMIT ;;
  PutChar TX_014 END_TRANSMIT ;;
  wait_tx_complete TX_014 ;;
  configToggle WAIT.

(** The body shared, statement for statement, by [configCleared],
    [pingResponse] and [assignedID]: only the type byte differs. *)
Definition respond (type : Z) : M unit :=
  configToggle MY_RESPONSE ;;
  PutChar TX_014 START_TRANSMIT ;;
  PutChar TX_23 START_TRANSMIT ;;
  PutChar TX_014 START_TRANSMIT ;;
  PutChar TX_23 START_TRANSMIT ;;
  id <- get ID ;; PutChar TX_014 id ;;
  id <- get ID ;; PutChar TX_23 id ;;
  PutChar TX_014 MASTER_ID ;;
  PutChar TX_23 MASTER_ID ;;
  PutChar TX_014 type ;;
  PutChar TX_23 type ;;
  PutChar TX_014 END_TRANSMIT ;;
  PutChar TX_23 END_TRANSMIT ;;
  PutChar TX_014 END_TRANSMIT ;;
  PutChar TX_23 END_TRANSMIT ;;
  wait_tx_complete TX_014 ;;
  wait_tx_complete TX_23 ;;
  configToggle WAIT.

(** main.c, lines 646-671. *)
Definition configCleared : M unit := respond CONFIG_CLEARED.

(** main.c, lines 674-699. *)
Definition pingResponse : M unit := respond PING.

(** main.c, lines 754-779. *)
Definition assignedID : M unit := respond ID_ASSIGN_OK.

(** Conversion of an [int] to [char], as in [checksum = total]. *)
Definition to_char (x : Z) : Z := x mod 256.

(** The checksum of a servo packet, main.c lines 1027-1028. *)
Definition servo_checksum (id length instruction address value : Z) : Z :=
  let total := 255 - ((id + length + instruction + address + value) mod 256) in
  to_char total.

(** main.c, lines 1015-1057. *)
Definition servoInstruction (id length instruction address value : Z) : M unit :=
  configToggle MY_RESPONSE ;;
  reg_and PRT0GS 225 ;;
  let checksum := servo_checksum id length instruction address value in
  (if instruction =? PING_SERVO then
     PutChar TX_014 SERVO_START ;;
     PutChar TX_014 SERVO_START ;;
     PutChar TX_014 id ;;
     PutChar TX_014 length ;;
     PutChar TX_014 instruction ;;
     PutChar TX_014 checksum
   else
     PutChar TX_014 SERVO_START ;;
     PutChar TX_014 SERVO_START ;;
     PutChar TX_014 id ;;
     PutChar TX_014 length ;;
     PutChar TX_014 instruction ;;
     PutChar TX_014 address ;;
     PutChar TX_014 value ;;
     PutChar TX_014 checksum) ;;
  wait_tx_complete TX_014 ;;
  configToggle INITIALIZE.

(** main.c, lines 782-801.  The loop local is the value of an early
    [return] out of the loop, if one was taken. *)
Definition childListen : M Z :=
  configToggle HELLO_MODE ;;
  r <- spin (fun r w => match r with
                        | Some _ => false
                        | None => glob w TIMEOUT =? 0
                        end)
            (fun _ => c <- commandReady ;;
                      if negb (c =? 0) then ret (Some 1) else ret None)
            None ;;
  match r with
  | Some v => ret v
  | None =>
      call (TimerStop HELLO_TIMEOUT) ;;
      set TIMEOUT 0 ;;
      configToggle WAIT ;;
      ret 0
  end.

(** The first [if] chain of [childResponse], main.c lines 809-824. *)
Definition child_port_select : M unit :=
  c <- get CHILD ;;
  if c =? PORT_A then configToggle RESPONSE_1
  else if c =? PORT_B then configToggle RESPONSE_2
  else if c =? PORT_C then configToggle RESPONSE_3
  else if c =? PORT_D then configToggle RESPONSE_4
  else ret tt.

(** The loop of [childResponse], main.c lines 827-833; its local is
    [child_responded]. *)
Definition child_wait (child_responded : Z) : M Z :=
  spin (fun child_responded w =>
          (child_responded =? 0) && (glob w TIMEOUT =? 0))
       (fun child_responded =>
          c <- commandReady ;;
          if negb (c =? 0) then ret 1 else ret child_responded)
       child_responded.

(** The second [if] chain of [childResponse], main.c lines 836-851. *)
Definition child_timer_stop : M unit :=
  c <- get CHILD ;;
  if c =? PORT_A then call (TimerStop CHILD_1_TIMEOUT)
  else if c =? PORT_B then call (TimerStop CHILD_2_TIMEOUT)
  else if c =? PORT_C then call (TimerStop CHILD_3_TIMEOUT)
  else if c =? PORT_D then call (TimerStop CHILD_4_TIMEOUT)
  else ret tt.

(** main.c, lines 804-858. *)
Definition childResponse : M Z :=
  child_port_select ;;
  child_responded <- child_wait 0 ;;
  child_timer_stop ;;
  set TIMEOUT 0 ;;
  configToggle WAIT ;;
  ret child_responded.

(** The servo re-ID loops of [takeAction], main.c lines 569-604. *)

(** [if(commandReady()) { ... }], lines 584-601: one look at the servo
    line; the local is the index [i] of the enclosing [for]. *)
Definition reid_check (i : Z) : M Z :=
  c <- commandReady ;;
  if negb (c =? 0) then
    e <- get COMMAND_ERROR ;;
    if e =? 0 then
      s <- get COMMAND_SOURCE ;;
      id <- get ID ;;
      if s =? id then
        set TIMEOUT 1 ;;
        set SERVO_ID id ;;
        configToggle WAIT ;;
        ret SERVO_COMM_ATTEMPTS
      else ret i
    else ret i
  else ret i.

(** [while(!TIMEOUT)], lines 581-602. *)
Definition reid_listen (i : Z) : M Z :=
  spin (fun _ w => glob w TIMEOUT =? 0) reid_check i.

(** [for(i = 0; i < SERVO_COMM_ATTEMPTS; i++)], lines 575-603. *)
Definition reid_attempts : M Z :=
  loop (fun i _ => i <? SERVO_COMM_ATTEMPTS)
       (fun i =>
          servoInstruction BROADCAST PING_LENGTH PING_SERVO 0 0 ;;
          i' <- reid_listen i ;;
          ret (i' + 1))
       0.

(** [while(ID != SERVO_ID)], lines 569-604. *)
Definition reid : M unit :=
  loop (fun _ w => negb (glob w ID =? glob w SERVO_ID))
       (fun _ =>
          s <- get SERVO_ID ;;
          id <- get ID ;;
          servoInstruction s WRITE_LENGTH WRITE_SERVO ID_ADDRESS id ;;
          reid_attempts ;;
          ret tt)
       tt.

(** main.c, lines 508-643. *)
Definition takeAction : M unit :=
  ty <- get COMMAND_TYPE ;;
  if ty =? HELLO_BYTE then
    cfg <- get CONFIGURED ;;
    ch <- get CHILD ;;
    if cfg =? 0 then sayHello
    else if ch =? 0 then
      heard <- childListen ;;
      when (negb (heard =? 0)) sayHello
    else if negb (ch =? 0) then childResponse ;; ret tt
    else ret tt
  else if ty =? PING then
    dst <- get COMMAND_DESTINATION ;;
    id <- get ID ;;
    if dst =? id then pingResponse
    else if dst >? id then childResponse ;; ret tt
    else ret tt
  else if ty =? ID_ASSIGNMENT then
    dst <- get COMMAND_DESTINATION ;;
    id <- get ID ;;
    if dst =? id then
      p <- get COMMAND_PARAM ;;
      if (p >? MASTER_ID) && (p <? DEFAULT_ID) then
        set ID p ;;
        set CONFIGURED 1 ;;
        assignedID ;;
        id' <- get ID ;;
        s <- get SERVO_ID ;;
        when (negb (id' =? s)) reid
      else ret tt
    else if dst >? id then childResponse ;; ret tt
    else ret tt
  else if ty =? CLEAR_CONFIG then
    dst <- get COMMAND_DESTINATION ;;
    id <- get ID ;;
    when (dst =? id) configCleared ;;
    dst' <- get COMMAND_DESTINATION ;;
    id' <- get ID ;;
    when ((dst' <=? id') || (dst' =? BROADCAST))
         (set ID DEFAULT_ID ;; set CONFIGURED 0 ;; set CHILD 0) ;;
    reg_or PRT2DR 1
  else ret tt.

(** The servo search of [servoFinder], main.c lines 875-919. *)

(** [while(!TIMEOUT)], lines 883-906. *)
Definition find_listen (i : Z) : M Z :=
  spin (fun _ w => glob w TIMEOUT =? 0)
       (fun i =>
          c <- commandReady ;;
          if negb (c =? 0) then
            e <- get COMMAND_ERROR ;;
            if e =? 0 then
              s <- get COMMAND_SOURCE ;;
              if (s >=? SERVO_ID_MIN) && (s <=? SERVO_ID_MAX) then
                set TIMEOUT 1 ;;
                set SERVO_ID s ;;
                ret SERVO_COMM_ATTEMPTS
              else set TIMEOUT 1 ;; ret i
            else ret i
          else ret i)
       i.

(** [for(i = 0; i < SERVO_COMM_ATTEMPTS; i++)], lines 877-907. *)
Definition find_attempts : M Z :=
  loop (fun i _ => i <? SERVO_COMM_ATTEMPTS)
       (fun i =>
          servoInstruction BROADCAST PING_LENGTH PING_SERVO 0 0 ;;
          i' <- find_listen i ;;
          ret (i' + 1))
       0.

(** [while(SERVO_ID == SERVO_START)], lines 875-919; its local is
    [flashWrite]. *)
Definition find_servo (flashWrite : Z) : M Z :=
  loop (fun _ w => glob w SERVO_ID =? SERVO_START)
       (fun flashWrite =>
          find_attempts ;;
          s <- get SERVO_ID ;;
          if (s =? SERVO_START) && (flashWrite =? 0) then ret 1
          else ret flashWrite)
       flashWrite.

(** The status-return-level check of [servoFinder], lines 952-994.  The
    locals are [i] and [status_return_level]. *)

(** [while(!TIMEOUT)], lines 961-985. *)
Definition level_listen (l : Z * Z) : M (Z * Z) :=
  spin (fun _ w => glob w TIMEOUT =? 0)
       (fun l =>
          c <- commandReady ;;
          if negb (c =? 0) then
            e <- get COMMAND_ERROR ;;
            if e =? 0 then
              p <- get COMMAND_PARAM ;;
              if p =? STATUS_RET_LEVEL then
                set TIMEOUT 1 ;;
                ret (SERVO_COMM_ATTEMPTS, p)
              else set TIMEOUT 1 ;; ret l
            else ret l
          else ret l)
       l.

(** [for(i = 0; i < SERVO_COMM_ATTEMPTS; i++)], lines 955-986. *)
Definition level_attempts (status_return_level : Z) : M (Z * Z) :=
  loop (fun l _ => fst l <? SERVO_COMM_ATTEMPTS)
       (fun l =>
          s <- get SERVO_ID ;;
          servoInstruction s READ_LENGTH READ_SERVO STATUS_RET_ADDRESS 1 ;;
          l' <- level_listen l ;;
          ret (fst l' + 1, snd l'))
       (0, status_return_level).

(** [while(status_return_level != STATUS_RET_LEVEL)], lines 952-994. *)
Definition level_check (status_return_level : Z) : M Z :=
  loop (fun status_return_level _ =>
          negb (status_return_level =? STATUS_RET_LEVEL))
       (fun status_return_level =>
          l <- level_attempts status_return_level ;;
          ret (snd l))
       status_return_level.

(** main.c, lines 863-1011. *)
Definition servoFinder : M unit :=
  find_servo 0 ;;
  level_check 3 ;;
  configToggle WAIT.

(** [main] up to its endless loop, main.c lines 130-148. *)
Definition main_init : M unit :=
  set CHILD 0 ;;
  set CONFIGURED 0 ;;
  set TIMEOUT 0 ;;
  set COMMAND_PARAM 0 ;;
  set STATE 0 ;;
  set SERVO_ID 255 ;;
  set ID DEFAULT_ID ;;
  call EnableGInt ;;
  call EnableIntMask ;;
  servoFinder.

(** One pass of the endless loop of [main], lines 151-158; the loop is a
    busy wait on the master's line, so time passes on every pass. *)
Definition main_pass : M unit :=
  pause ;;
  c <- commandReady ;;
  when (negb (c =? 0)) takeAction.

End Firmware.

(** ** Relations between the board before and after a command *)

(** A command keeps a relation between the world before and after. *)
Definition keeps (R : world -> world -> Prop) {A : Type} (m : M A) : Prop :=
  forall w a w', m w = Some (a, w') -> R w w'.

(** [stable p q]: the globals selected by [p] and the wires selected by [q]
    are the same before and after, and the log of API calls has only grown. *)
Definition stable (p : var -> bool) (q : txdev -> bool) (w w' : world) : Prop :=
  (forall v, p v = true -> glob w' v = glob w v) /\
  (forall d, q d = true -> wire d (hal w') = wire d (hal w)) /\
  (exists l, hal w' = l ++ hal w).

(** An API call that puts no byte on a transmitter. *)
Definition not_put (c : hal_call) : Prop :=
  match c with TxPut _ _ => False | _ => True end.

(** Everything but the port registers is the same. *)
Definition same_but_regs (w w' : world) : Prop :=
  glob w' = glob w /\ rx w' = rx w /\ txc w' = txc w /\
  future w' = future w /\
  (forall d, wire d (hal w') = wire d (hal w)).

(** Every global but the two a role switch writes. *)
Definition but_role (v : var) : bool :=
  match v with TIMEOUT | STATE => false | _ => true end.

(** Selections of globals and of wires. *)
Definition all_tx (d : txdev) : bool := true.

Definition only_TX_23 (d : txdev) : bool :=
  match d with TX_23 => true | TX_014 => false end.

Definition no_tx (d : txdev) : bool := false.

(** The IDs and the configured flag. *)
Definition ids (v : var) : bool :=
  match v with ID | SERVO_ID | CONFIGURED => true | _ => false end.

Definition id_and_configured (v : var) : bool :=
  match v with ID | CONFIGURED => true | _ => false end.

(** Nothing was put on either transmitter. *)
Definition same_wires (w w' : world) : Prop :=
  forall d, wire d (hal w') = wire d (hal w).

(** ** Frames and packets on the wires *)

(** The bytes of a response of type [ty], as the three responders put them
    on each transmitter. *)
Definition response_frame (id ty : Z) : list Z :=
  [START_TRANSMIT; START_TRANSMIT; id; MASTER_ID; ty;
   END_TRANSMIT; END_TRANSMIT].

(** The bytes [sayHello] puts on TX_014. *)
Definition hello_frame (id child : Z) : list Z :=
  [START_TRANSMIT; START_TRANSMIT; id; MASTER_ID; HELLO_BYTE; child;
   END_TRANSMIT; END_TRANSMIT].

(** The bytes [servoInstruction] puts on TX_014. *)
Definition servo_frame (id length instruction address value : Z) : list Z :=
  if instruction =? PING_SERVO then
    [SERVO_START; SERVO_START; id; length; instruction;
     servo_checksum id length instruction address value]
  else
    [SERVO_START; SERVO_START; id; length; instruction; address; value;
     servo_checksum id length instruction address value].

(** A response of type [ty] has gone out on both transmitters, both
    transmissions are complete, and the module is back in the Wait role. *)
Definition sent_on_both (ty : Z) (w w' : world) : Prop :=
  wire TX_014 (hal w') = wire TX_014 (hal w) ++ response_frame (glob w ID) ty /\
  wire TX_23 (hal w') = wire TX_23 (hal w) ++ response_frame (glob w ID) ty /\
  txc w' TX_014 = true /\ txc w' TX_23 = true /\
  glob w' STATE = WAIT.

(** WRITE of [id] to the ID address of the servo [servo]. *)
Definition write_packet (servo id : Z) : list Z :=
  servo_frame servo WRITE_LENGTH WRITE_SERVO ID_ADDRESS id.

(** PING to every servo. *)
Definition ping_packet : list Z :=
  servo_frame BROADCAST PING_LENGTH PING_SERVO 0 0.

(** [k] PINGs in a row. *)
Definition pings (k : nat) : list Z := concat (repeat ping_packet k).

(** [n] rounds that ended without the awaited reply: a WRITE and all ten
    PINGs each. *)
Definition failed_rounds (servo id : Z) (n : nat) : list Z :=
  concat (repeat (write_packet servo id ++ pings 10) n).

(** ** The states of the re-ID procedure *)

(** The servo still has its old ID [S0]; the module has ID [I0]. *)
Definition pending (I0 S0 : Z) (w : world) : Prop :=
  glob w ID = I0 /\ glob w SERVO_ID = S0.

(** A reply from the servo under the ID [I0] of the module, with no error,
    has been read and taken: [SERVO_ID] is [I0], the role is Wait, and
    [TIMEOUT] is set to leave the listening loop. *)
Definition accepted (I0 : Z) (w : world) : Prop :=
  glob w ID = I0 /\ glob w SERVO_ID = I0 /\ glob w STATE = WAIT /\
  glob w TIMEOUT = 1 /\ glob w COMMAND_SOURCE = I0 /\ glob w COMMAND_ERROR = 0.

(** ** The configured invariant and the reachable states *)

(** [CONFIGURED] set implies [ID] in 1..250. *)
Definition configured_id_ok (w : world) : Prop :=
  glob w CONFIGURED <> 0 -> 1 <= glob w ID <= 250.

(** If it held before, it holds after. *)
Definition preserves_ok (w w' : world) : Prop :=
  configured_id_ok w -> configured_id_ok w'.

(** The states of the module between two passes of the endless loop of
    [main]. *)
Inductive reachable (readChar : list Z -> Z * list Z) : world -> Prop :=
| reach_boot (w0 w : world) (u : unit) :
    main_init readChar w0 = Some (u, w) -> reachable readChar w
| reach_pass (w w' : world) (u : unit) :
    reachable readChar w -> main_pass readChar w = Some (u, w') ->
    reachable readChar w'.

(** The operations the handler is made of. *)
Inductive operation (readChar : list Z -> Z * list Z) (w w' : world) : Prop :=
| op_takeAction (u : unit) :
    takeAction readChar w = Some (u, w') -> operation readChar w w'
| op_commandReady (c : Z) :
    commandReady readChar w = Some (c, w') -> operation readChar w w'
| op_sayHello (u : unit) :
    sayHello w = Some (u, w') -> operation readChar w w'
| op_pingResponse (u : unit) :
    pingResponse w = Some (u, w') -> operation readChar w w'
| op_assignedID (u : unit) :
    assignedID w = Some (u, w') -> operation readChar w w'
| op_configCleared (u : unit) :
    configCleared w = Some (u, w') -> operation readChar w w'
| op_childListen (c : Z) :
    childListen readChar w = Some (c, w') -> operation readChar w w'
| op_childResponse (c : Z) :
    childResponse readChar w = Some (c, w') -> operation readChar w w'
| op_servoInstruction (a b c d e : Z) (u : unit) :
    servoInstruction a b c d e w = Some (u, w') -> operation readChar w w'
| op_configToggle (mode : Z) (u : unit) :
    configToggle mode w = Some (u, w') -> operation readChar w w'.

(** ** Scripts and example boards *)

(** An event that is a timer interrupt. *)
Definition is_irq (e : event) : Prop :=
  match e with Irq _ => True | _ => False end.

(** Globals from a list of bindings; the others are 0. *)
Definition globals (l : list (var * Z)) : var -> Z :=
  fun v =>
    match find (fun e => if var_eq_dec (fst e) v then true else false) l with
    | Some e => snd e
    | None => 0
    end.

(** A board with the given globals, bytes pending on WAIT_RECV, and script
    of the environment; no API call has been made yet. *)
Definition board (l : list (var * Z)) (pending : list Z)
           (script : list (list event)) : world :=
  mkWorld (globals l) (fun _ => 0)
          (fun d => match d with WAIT_RECV => pending | _ => [] end)
          (fun _ => false) [] script.

(** What the environment does while a response goes out: the settlement
    timer expires, then both transmitters finish. *)
Definition response_script : list (list event) :=
  [[Irq TX_01234_TIMEOUT]; [TxComplete TX_014; TxComplete TX_23]].

(** What the environment does while a servo packet goes out: the
    settlement timer expires, then TX_014 finishes. *)
Definition packet_script : list (list event) :=
  [[Irq TX_01234_TIMEOUT]; [TxComplete TX_014]].

(** The same, and then the bytes [reply] arrive from the servo. *)
Definition servo_script (reply : list Z) : list (list event) :=
  packet_script ++ [map (Recv INIT_RX) reply].

(** The result of a run of [m] from [w], and the board it ends in. *)
Definition answer {A : Type} (m : M A) (w : world) : option A :=
  match m w with
  | Some (a, _) => Some a
  | None => None
  end.

Definition run_of {A : Type} (m : M A) (w : world) : world :=
  match m w with
  | Some (_, w') => w'
  | None => w
  end.

(** A module in the Wait role with default ID that has read
    [F8 F8 00 FB C9 05]: ID_ASSIGNMENT of ID 5; its servo has ID 5. *)
Definition assign_board : world :=
  board [(ID, 251); (SERVO_ID, 5); (STATE, WAIT);
         (COMMAND_DESTINATION, 251); (COMMAND_TYPE, ID_ASSIGNMENT);
         (COMMAND_PARAM, 5)]
        [] response_script.

(** The same module reading an ID_ASSIGNMENT of ID 0. *)
Definition bad_assign_board : world :=
  board [(ID, 251); (SERVO_ID, 5); (STATE, WAIT);
         (COMMAND_DESTINATION, 251); (COMMAND_TYPE, ID_ASSIGNMENT)]
        [] [].

(** A configured module with ID 5 and a child on port A that has read
    [F8 F8 00 FE CC 00]: CLEAR_CONFIG to everyone. *)
Definition broadcast_clear_board : world :=
  board [(ID, 5); (CONFIGURED, 1); (CHILD, PORT_A); (SERVO_ID, 5);
         (STATE, WAIT); (COMMAND_DESTINATION, BROADCAST);
         (COMMAND_TYPE, CLEAR_CONFIG)]
        [] [].

(** The same module reading a CLEAR_CONFIG addressed to it. *)
Definition own_clear_board : world :=
  board [(ID, 5); (CONFIGURED, 1); (CHILD, PORT_A); (SERVO_ID, 5);
         (STATE, WAIT); (COMMAND_DESTINATION, 5);
         (COMMAND_TYPE, CLEAR_CONFIG)]
        [] response_script.

(** A module about to write ID 3 to its servo, which has ID 1. *)
Definition write_board : world :=
  board [(ID, 3); (CONFIGURED, 1); (SERVO_ID, 1); (STATE, WAIT)]
        [] packet_script.

(** A fresh module in the Wait role that has read [F8 F8 00 FE C8 00]: the
    master's hello.  The script holds no transmit-complete flag for TX_23. *)
Definition fresh_board : world :=
  board [(ID, 251); (SERVO_ID, 1); (STATE, WAIT);
         (COMMAND_DESTINATION, BROADCAST); (COMMAND_TYPE, HELLO_BYTE)]
        [] packet_script.

(** A module in the Wait role with one start byte and four more bytes
    pending. *)
Definition one_start_board : world :=
  board [(STATE, WAIT)] [248; 1; 2; 3; 4] [].

(** The handler of the spec's re-ID scenario: a module with default ID,
    servo found under ID 1, that has read an ID_ASSIGNMENT of ID 3; the
    servo answers the first PING under its new ID. *)
Definition assign_reid_board : world :=
  board [(ID, 251); (SERVO_ID, 1); (STATE, WAIT);
         (COMMAND_DESTINATION, 251); (COMMAND_TYPE, ID_ASSIGNMENT);
         (COMMAND_PARAM, 3)]
        []
        (response_script ++ packet_script ++ servo_script [255; 3; 2; 0; 0]).

(** The script of a servo that stays silent through a whole round, the
    WRITE and ten PINGs that each time out, and answers the first PING of
    the second round under ID 3. *)
Definition silent_round_script : list (list event) :=
  packet_script ++
  concat (repeat (packet_script ++ [[Irq INIT_TIMEOUT]]) 10) ++
  packet_script ++ servo_script [255; 3; 2; 0; 0].

(** A module from power-on: its servo answers the PING and the level READ
    under ID 5, then the bytes [F8 00 FB C9 05] reach the Wait receiver,
    which the peeking reader takes for an ID_ASSIGNMENT of ID 5 from the
    master. *)
Definition boot_board : world :=
  board [] []
        (servo_script [255; 5; 2; 0; 252] ++ servo_script [255; 5; 3; 0; 1] ++
         [map (Recv WAIT_RECV) [248; 0; 251; 201; 5]] ++ response_script).

(** That module when [servoFinder] has returned, and after the next pass of
    the main loop. *)
Definition booted_board : world := run_of (main_init peekChar) boot_board.

Definition configured_board : world :=
  run_of (main_pass peekChar) booted_board.

(** That configured module, with no child, after the reader has taken the
    bytes [F8 00 07 CB 00] for a PING to module 7.  From now on timers of
    every role fire, and nothing else happens. *)
Definition stray_ping_board : world :=
  run_of (commandReady peekChar)
         (set_future [[Irq HELLO_TIMEOUT];
                      [Irq CHILD_1_TIMEOUT; Irq INIT_TIMEOUT];
                      [Irq TX_01234_TIMEOUT];
                      [Irq CHILD_2_TIMEOUT; Irq CHILD_3_TIMEOUT;
                       Irq CHILD_4_TIMEOUT]]
            (set_rx WAIT_RECV [248; 0; 7; 203; 0] configured_board)).

(** A configured module about to listen for children; the start byte of a
    child's hello arrives on port A in the very pass in which the hello
    timer expires. *)
Definition hello_listen_board : world :=
  board [(ID, 5); (CONFIGURED, 1); (SERVO_ID, 5); (STATE, WAIT)] []
        [[Recv HELLO_1 248; Irq HELLO_TIMEOUT]].


(** ** Observations for the further properties *)

(** No API call was made, no port register was written, and the globals
    selected by [p] are as before. *)
Definition reads_only (p : var -> bool) (w w' : world) : Prop :=
  hal w' = hal w /\ reg w' = reg w /\
  forall v, p v = true -> glob w' v = glob w v.

(** Every global but [TIMEOUT], which an interrupt may raise at any wait. *)
Definition but_timeout (v : var) : bool :=
  match v with TIMEOUT => false | _ => true end.

(** The globals no frame reader writes. *)
Definition identity (v : var) : bool :=
  match v with ID | CONFIGURED | STATE | SERVO_ID => true | _ => false end.

(** The globals a frame reader leaves alone outside the hello role. *)
Definition identity_and_child (v : var) : bool :=
  match v with
  | ID | CONFIGURED | STATE | SERVO_ID | CHILD => true
  | _ => false
  end.

(** The standing of the module in the chain: its ID, whether the master has
    configured it, the ID of its servo and the port of its child. *)
Definition standing (v : var) : bool :=
  match v with ID | CONFIGURED | SERVO_ID | CHILD => true | _ => false end.

(** One of the four port letters. *)
Definition is_port (x : Z) : Prop :=
  x = PORT_A \/ x = PORT_B \/ x = PORT_C \/ x = PORT_D.

(** A script in which no byte arrives on receiver [d]. *)
Definition silent_on (d : rxdev) (script : list (list event)) : Prop :=
  Forall (Forall (fun e => match e with
                           | Recv d' _ => d' <> d
                           | _ => True
                           end)) script.

(** The value of the projection [f] of the board is as before. *)
Definition kept {A : Type} (f : world -> A) (w w' : world) : Prop := f w' = f w.

(** What the role switch reads and the registers it writes. *)
Definition pins (w : world) : Z * Z * (port -> Z) :=
  (glob w CONFIGURED, glob w SERVO_ID, reg w).

(** The three binary digits of [s] on pins 3, 5 and 7 of port 1, a digit 1
    pulling its pin low, the other pins high. *)
Definition servo_id_leds (s : Z) : Z :=
  255 - (8 * (s mod 2) + 32 * (s / 2 mod 2) + 128 * (s / 4)).

(** ** The configuration that is loaded *)

(** Whether configuration [c] is loaded: the last call that loaded or
    unloaded it was a load. *)
Fixpoint loaded (c : config) (log : list hal_call) : bool :=
  match log with
  | [] => false
  | LoadConfig c' :: l => if config_eq_dec c c' then true else loaded c l
  | UnloadConfig c' :: l => if config_eq_dec c c' then false else loaded c l
  | _ :: l => loaded c l
  end.

(** The configuration [unloadConfig] takes a role number for, main.c lines
    717-751. *)
Definition role_config (state : Z) : option config :=
  if state =? WAIT then Some waiting
  else if state =? HELLO_MODE then Some hello
  else if state =? MY_RESPONSE then Some my_response
  else if state =? RESPONSE_1 then Some response1
  else if state =? RESPONSE_2 then Some response2
  else if state =? RESPONSE_3 then Some response3
  else if state =? RESPONSE_4 then Some response4
  else if state =? INITIALIZE then Some initial
  else None.

(** Exactly the configuration of the role [STATE] names is loaded. *)
Definition one_role (w : world) : Prop :=
  forall c, loaded c (hal w) = true <-> role_config (glob w STATE) = Some c.

(** The same, or there is no role yet, as when [main] starts. *)
Definition role_matches (w : world) : Prop :=
  glob w STATE = 0 \/ one_role w.

Definition keeps_role (w w' : world) : Prop :=
  role_matches w -> role_matches w'.

(** [STATE] and what is loaded. *)
Definition role_view (w : world) : Z * (config -> bool) :=
  (glob w STATE, fun c => loaded c (hal w)).

Definition loaded_view (w : world) : config -> bool :=
  fun c => loaded c (hal w).

(** ** The module between two frames *)

(** Outside the hello role nothing writes [CHILD]: the role stays another
    one and [CHILD] stays as it is. *)
Definition away (w w' : world) : Prop :=
  glob w STATE <> HELLO_MODE ->
  glob w' STATE <> HELLO_MODE /\ glob w' CHILD = glob w CHILD.

Definition role_and_child (w : world) : Z * Z := (glob w STATE, glob w CHILD).

(** [SERVO_ID] is as before or has become an ID a servo can have. *)
Definition found (w w' : world) : Prop :=
  glob w' SERVO_ID = glob w SERVO_ID \/
  SERVO_ID_MIN <= glob w' SERVO_ID <= SERVO_ID_MAX.

(** What holds of the module whenever it waits for the next frame of the
    master: it is in the Wait role; [CONFIGURED] is 0 or 1; an unconfigured
    module has the default ID and no child; the servo of a configured
    module has the ID of the module; [CHILD] is 0 or a port letter; and
    [SERVO_ID] is an ID a servo can have. *)
Definition settled (w : world) : Prop :=
  glob w STATE = WAIT /\
  (glob w CONFIGURED = 0 \/ glob w CONFIGURED = 1) /\
  (glob w CONFIGURED = 0 -> glob w ID = DEFAULT_ID /\ glob w CHILD = 0) /\
  (glob w CONFIGURED = 1 -> glob w SERVO_ID = glob w ID) /\
  (glob w CHILD = 0 \/ is_port (glob w CHILD)) /\
  SERVO_ID_MIN <= glob w SERVO_ID <= SERVO_ID_MAX.

(** The servo has answered the READ of its status return level with the
    wanted level and no error, and the listening loop was left. *)
Definition level_read (w : world) : Prop :=
  glob w TIMEOUT = 1 /\ glob w COMMAND_PARAM = STATUS_RET_LEVEL /\
  glob w COMMAND_ERROR = 0.

Definition servo_id_of (w : world) : Z := glob w SERVO_ID.

(** READ of the status return level of the servo [servo]. *)
Definition read_level_packet (servo : Z) : list Z :=
  servo_frame servo READ_LENGTH READ_SERVO STATUS_RET_ADDRESS 1.

(** [j] such READs in a row. *)
Definition level_reads (servo : Z) (j : nat) : list Z :=
  concat (repeat (read_level_packet servo) j).

(** ** The timers that run *)

(** The timer [configToggle] starts for a role, main.c lines 240-358; the
    timer of the response role is stopped again before the switch returns,
    and the Wait role has none. *)
Definition role_timer (mode : Z) : option timer :=
  if mode =? RESPONSE_1 then Some CHILD_1_TIMEOUT
  else if mode =? RESPONSE_2 then Some CHILD_2_TIMEOUT
  else if mode =? RESPONSE_3 then Some CHILD_3_TIMEOUT
  else if mode =? RESPONSE_4 then Some CHILD_4_TIMEOUT
  else if mode =? HELLO_MODE then Some HELLO_TIMEOUT
  else if mode =? INITIALIZE then Some INIT_TIMEOUT
  else None.

(** A timer runs only while its configuration is loaded. *)
Definition timers_ok (w : world) : Prop :=
  forall t, running t (hal w) = true ->
            loaded (timer_config t) (hal w) = true.

(** The books are kept: there is no role yet, as when [main] starts, or
    the role matches what is loaded and the timers match it too. *)
Definition tidy (w : world) : Prop :=
  glob w STATE = 0 \/ (one_role w /\ timers_ok w).

Definition keeps_tidy (w w' : world) : Prop := tidy w -> tidy w'.

(** [STATE], what is loaded and what runs. *)
Definition timer_view (w : world) : Z * (config -> bool) * (timer -> bool) :=
  (glob w STATE, fun c => loaded c (hal w), fun t => running t (hal w)).

Definition running_view (w : world) : timer -> bool :=
  fun t => running t (hal w).

(** ** Environments in which the waits end *)

(** The script goes on for some batches and then has the batch [b]. *)
Definition awaits (b : list event) (rest script : list (list event)) : Prop :=
  exists pre, script = pre ++ b :: rest.

(** The transmitter [d] has reported completion, or will in some pass to
    come. *)
Definition completes (d : txdev) (w : world) : Prop :=
  txc w d = true \/ Exists (In (TxComplete d)) (future w).

(** A script under which a response goes out: in some pass the response
    timer fires and, in passes after that one, each of the transmitters
    [ds] reports completion, in any order, together or apart. *)
Definition lets_respond (ds : list txdev) (script : list (list event)) : Prop :=
  exists pre bI post,
    script = pre ++ bI :: post /\
    In (Irq TX_01234_TIMEOUT) bI /\
    Forall (fun d => Exists (In (TxComplete d)) post) ds.

(** The timer [childResponse] stops for the port in [CHILD], main.c lines
    836-851. *)
Definition port_timer (c : Z) : option timer :=
  if c =? PORT_A then Some CHILD_1_TIMEOUT
  else if c =? PORT_B then Some CHILD_2_TIMEOUT
  else if c =? PORT_C then Some CHILD_3_TIMEOUT
  else if c =? PORT_D then Some CHILD_4_TIMEOUT
  else None.

(** ** A servo that stays silent *)

(** Nothing is pending on the servo receiver and nothing will arrive. *)
Definition deaf (w : world) : Prop :=
  rx w INIT_RX = [] /\ silent_on INIT_RX (future w).

Definition stays_deaf (w w' : world) : Prop :=
  deaf w -> deaf w' /\ glob w' SERVO_ID = glob w SERVO_ID.

(** What is pending on the servo receiver, the script, and [SERVO_ID]. *)
Definition servo_line (w : world) : list Z * list (list event) * Z :=
  (rx w INIT_RX, future w, glob w SERVO_ID).

(** ** The answers of the handler *)

(** What the handler puts on TX_23 for the frame it has read, by main.c
    lines 533-620: the ping of the module addressed, the acknowledgement of
    an ID it accepts for itself, the acknowledgement of a clear addressed to
    it, and nothing for any other frame. *)
Definition answer_on_TX_23 (w : world) : list Z :=
  let ty := glob w COMMAND_TYPE in
  let dst := glob w COMMAND_DESTINATION in
  let p := glob w COMMAND_PARAM in
  if ty =? PING then
    if dst =? glob w ID then response_frame (glob w ID) PING else []
  else if ty =? ID_ASSIGNMENT then
    if (dst =? glob w ID) && ((p >? MASTER_ID) && (p <? DEFAULT_ID))
    then response_frame p ID_ASSIGN_OK else []
  else if ty =? CLEAR_CONFIG then
    if dst =? glob w ID then response_frame (glob w ID) CONFIG_CLEARED else []
  else [].

(** The empty selection of globals. *)
Definition no_global (v : var) : bool := false.

(** ** Further example boards *)

(** A configured module with ID 5 that has read a frame of a type the
    protocol does not have. *)
Definition unknown_type_board : world :=
  board [(ID, 5); (CONFIGURED, 1); (SERVO_ID, 5); (STATE, WAIT);
         (COMMAND_DESTINATION, 5); (COMMAND_TYPE, 199)]
        [] [].

(** That module reading a CLEAR_CONFIG for module 7, further down. *)
Definition clear_down_board : world :=
  board [(ID, 5); (CONFIGURED, 1); (CHILD, PORT_A); (SERVO_ID, 5);
         (STATE, WAIT); (COMMAND_DESTINATION, 7);
         (COMMAND_TYPE, CLEAR_CONFIG)]
        [] [].

(** That module reading a PING addressed to it. *)
Definition own_ping_board : world :=
  board [(ID, 5); (CONFIGURED, 1); (SERVO_ID, 5); (STATE, WAIT);
         (COMMAND_DESTINATION, 5); (COMMAND_TYPE, PING)]
        [] response_script.

(** A configured module without a child that has read the master's hello;
    the start byte of a child's hello arrives on port A. *)
Definition hello_forward_board : world :=
  board [(ID, 5); (CONFIGURED, 1); (SERVO_ID, 5); (STATE, WAIT);
         (COMMAND_DESTINATION, BROADCAST); (COMMAND_TYPE, HELLO_BYTE)]
        [] ([[Recv HELLO_1 248]] ++ packet_script).

(** A configured module with a child on port A that has read a PING for
    module 7; the child does not answer before its timer expires. *)
Definition forward_board : world :=
  board [(ID, 5); (CONFIGURED, 1); (CHILD, PORT_A); (SERVO_ID, 5);
         (STATE, WAIT); (COMMAND_DESTINATION, 7); (COMMAND_TYPE, PING)]
        [] [[Irq CHILD_1_TIMEOUT]].

(** A module in the Wait role with the first four bytes of a frame
    pending; timers fire and the servo talks, but nothing more arrives from
    the master. *)
Definition truncated_board : world :=
  board [(STATE, WAIT)] [248; 248; 0; 254]
        [[Irq HELLO_TIMEOUT]; [Recv INIT_RX 255]].

(** A module from power-on whose servo does not answer. *)
Definition deaf_boot_board : world :=
  board [] [] (packet_script ++ [[Irq INIT_TIMEOUT]]).

(** A module from power-on: its servo answers under ID 5, then the bytes
    [F8 00 FE C8 00] reach the Wait receiver, which the peeking reader takes
    for the master's hello; the transmitter completes twice. *)
Definition hello_boot_board : world :=
  board [] []
        (servo_script [255; 5; 2; 0; 252] ++ servo_script [255; 5; 3; 0; 1] ++
         [map (Recv WAIT_RECV) [248; 0; 254; 200; 0]] ++
         packet_script ++ packet_script).

(** That module after the pass of the main loop in which it has answered
    the hello. *)
Definition greeted_board : world :=
  run_of (main_pass peekChar) (run_of (main_init peekChar) hello_boot_board).

(** What the environment does while a response goes out when the two
    transmitters finish apart: the settlement timer expires, TX_23 finishes,
    another timer fires, and then TX_014 finishes. *)
Definition staggered_script : list (list event) :=
  [[Irq TX_01234_TIMEOUT]; [TxComplete TX_23]; [Irq HELLO_TIMEOUT];
   [TxComplete TX_014]].

(** A configured module with ID 5 reading a PING addressed to it, and
    reading a CLEAR_CONFIG addressed to it, in that environment. *)
Definition staggered_ping_board : world :=
  board [(ID, 5); (CONFIGURED, 1); (SERVO_ID, 5); (STATE, WAIT);
         (COMMAND_DESTINATION, 5); (COMMAND_TYPE, PING)]
        [] staggered_script.

Definition staggered_clear_board : world :=
  board [(ID, 5); (CONFIGURED, 1); (CHILD, PORT_A); (SERVO_ID, 5);
         (STATE, WAIT); (COMMAND_DESTINATION, 5);
         (COMMAND_TYPE, CLEAR_CONFIG)]
        [] staggered_script.

(** A module with default ID, servo found under ID 1, that has read an
    ID_ASSIGNMENT of ID 3; the servo does not answer. *)
Definition deaf_assign_board : world :=
  board [(ID, 251); (SERVO_ID, 1); (STATE, WAIT);
         (COMMAND_DESTINATION, 251); (COMMAND_TYPE, ID_ASSIGNMENT);
         (COMMAND_PARAM, 3)]
        []
        (response_script ++ packet_script ++ [[Irq INIT_TIMEOUT]]).

(** ** Reasoning about commands *)

Lemma bind_some {A B : Type} (m : M A) (k : A -> M B) (w : world)
      (r : B * world) :
  bind m k w = Some r ->
  exists a w1, m w = Some (a, w1) /\ k a w1 = Some r.
Proof.
  unfold bind. destruct (m w) as [[a w1]|]; [|discriminate].
  intros H. exists a, w1. split; [reflexivity|exact H].
Qed.

Lemma bind_run {A B : Type} (m : M A) (k : A -> M B) (w w1 : world) (a : A) :
  m w = Some (a, w1) -> bind m k w = k a w1.
Proof. intros H. unfold bind. rewrite H. reflexivity. Qed.

(** Invariant rule for a loop that waits on the hardware. *)
Lemma spin_fuel_inv {L : Type} (I : L -> world -> Prop)
      (cond : L -> world -> bool) (body : L -> M L) :
  (forall l w u w1 l2 w2,
      I l w -> cond l w = true -> pause w = Some (u, w1) ->
      body l w1 = Some (l2, w2) -> I l2 w2) ->
  forall n l w l' w',
    I l w -> spin_fuel n cond body l w = Some (l', w') ->
    I l' w' /\ cond l' w' = false.
Proof.
  intros Hstep. induction n as [|n IH]; intros l w l' w' HI Hrun.
  - discriminate.
  - simpl in Hrun. destruct (cond l w) eqn:Hc.
    + apply bind_some in Hrun. destruct Hrun as (u & w1 & Hp & Hrun).
      apply bind_some in Hrun. destruct Hrun as (l2 & w2 & Hb & Hrun).
      eapply IH; [|exact Hrun]. eapply Hstep; eauto.
    + inversion Hrun; subst. split; assumption.
Qed.

Lemma spin_inv {L : Type} (I : L -> world -> Prop)
      (cond : L -> world -> bool) (body : L -> M L) :
  (forall l w u w1 l2 w2,
      I l w -> cond l w = true -> pause w = Some (u, w1) ->
      body l w1 = Some (l2, w2) -> I l2 w2) ->
  forall l w l' w',
    I l w -> spin cond body l w = Some (l', w') ->
    I l' w' /\ cond l' w' = false.
Proof. intros Hstep l w l' w'. unfold spin. apply spin_fuel_inv, Hstep. Qed.

(** Invariant rule for a loop whose body does the waiting. *)
Lemma loop_fuel_inv {L : Type} (I : L -> world -> Prop)
      (cond : L -> world -> bool) (body : L -> M L) :
  (forall l w l2 w2,
      I l w -> cond l w = true -> body l w = Some (l2, w2) -> I l2 w2) ->
  forall n l w l' w',
    I l w -> loop_fuel n cond body l w = Some (l', w') ->
    I l' w' /\ cond l' w' = false.
Proof.
  intros Hstep. induction n as [|n IH]; intros l w l' w' HI Hrun.
  - discriminate.
  - simpl in Hrun. destruct (cond l w) eqn:Hc.
    + apply bind_some in Hrun. destruct Hrun as (l2 & w2 & Hb & Hrun).
      eapply IH; [|exact Hrun]. eapply Hstep; eauto.
    + inversion Hrun; subst. split; assumption.
Qed.

Lemma loop_inv {L : Type} (I : L -> world -> Prop)
      (cond : L -> world -> bool) (body : L -> M L) :
  (forall l w l2 w2,
      I l w -> cond l w = true -> body l w = Some (l2, w2) -> I l2 w2) ->
  forall l w l' w',
    I l w -> loop cond body l w = Some (l', w') ->
    I l' w' /\ cond l' w' = false.
Proof. intros Hstep l w l' w'. unfold loop. apply loop_fuel_inv, Hstep. Qed.

Section Keeps.

Variable R : world -> world -> Prop.
Hypothesis R_refl : forall w, R w w.
Hypothesis R_trans : forall a b c, R a b -> R b c -> R a c.

Lemma keeps_ret {A : Type} (a : A) : keeps R (ret a).
Proof. intros w a' w' H. inversion H; subst. apply R_refl. Qed.

Lemma keeps_get (v : var) : keeps R (get v).
Proof. intros w a' w' H. inversion H; subst. apply R_refl. Qed.

Lemma keeps_bind {A B : Type} (m : M A) (k : A -> M B) :
  keeps R m -> (forall a, keeps R (k a)) -> keeps R (bind m k).
Proof.
  intros Hm Hk w b w' H. apply bind_some in H.
  destruct H as (a & w1 & H1 & H2).
  eapply R_trans; [eapply Hm; exact H1 | eapply Hk; exact H2].
Qed.

Lemma keeps_when (b : bool) (m : M unit) : keeps R m -> keeps R (when b m).
Proof. intros Hm. destruct b; simpl; [exact Hm | apply keeps_ret]. Qed.

Lemma keeps_spin {L : Type} (cond : L -> world -> bool) (body : L -> M L)
      (l : L) :
  keeps R pause -> (forall l, keeps R (body l)) -> keeps R (spin cond body l).
Proof.
  intros Hp Hb w l' w' H.
  apply (spin_inv (fun _ w1 => R w w1) cond body) in H.
  - apply H.
  - intros l0 w0 u w1 l2 w2 HI _ Hpause Hbody.
    eapply R_trans; [exact HI|]. eapply R_trans; [eapply Hp|eapply Hb]; eauto.
  - apply R_refl.
Qed.

Lemma keeps_loop {L : Type} (cond : L -> world -> bool) (body : L -> M L)
      (l : L) :
  (forall l, keeps R (body l)) -> keeps R (loop cond body l).
Proof.
  intros Hb w l' w' H.
  apply (loop_inv (fun _ w1 => R w w1) cond body) in H.
  - apply H.
  - intros l0 w0 l2 w2 HI _ Hbody.
    eapply R_trans; [exact HI|]. eapply Hb; eauto.
  - apply R_refl.
Qed.

End Keeps.

Lemma wire_app (d : txdev) (l h : list hal_call) :
  wire d (l ++ h) = wire d h ++ wire d l.
Proof.
  induction l as [|c l IH]; simpl.
  - symmetry. apply app_nil_r.
  - destruct c; try exact IH.
    destruct (txdev_eq_dec d d0); [|exact IH].
    rewrite IH. symmetry. apply app_assoc.
Qed.

Lemma stable_refl p q w : stable p q w w.
Proof. split; [|split]; try reflexivity. exists []. reflexivity. Qed.

Lemma stable_trans p q a b c : stable p q a b -> stable p q b c -> stable p q a c.
Proof.
  intros (H1 & H2 & l1 & H5) (H3 & H4 & l2 & H6). split; [|split].
  - intros x Hx. rewrite (H3 x Hx). apply H1, Hx.
  - intros x Hx. rewrite (H4 x Hx). apply H2, Hx.
  - exists (l2 ++ l1). rewrite H6, H5. apply app_assoc.
Qed.

(** A step that leaves the globals and the log alone. *)
Lemma stable_same p q w w' :
  glob w' = glob w -> hal w' = hal w -> stable p q w w'.
Proof.
  intros Hg Hh. split; [|split].
  - intros v _. rewrite Hg. reflexivity.
  - intros d _. rewrite Hh. reflexivity.
  - exists []. rewrite Hh. reflexivity.
Qed.

Section Stable.

Variable p : var -> bool.
Variable q : txdev -> bool.

Lemma stable_set v x : p v = false -> keeps (stable p q) (set v x).
Proof.
  intros Hv w a w' H. inversion H; subst. split; [|split].
  - intros v' Hv'. simpl. destruct (var_eq_dec v' v); [congruence|reflexivity].
  - reflexivity.
  - exists []. reflexivity.
Qed.

Lemma stable_call c : not_put c -> keeps (stable p q) (call c).
Proof.
  intros Hc w a w' H. inversion H; subst. split; [|split].
  - reflexivity.
  - intros d _. destruct c; simpl in *; try reflexivity. contradiction.
  - exists [c]. reflexivity.
Qed.

Lemma stable_reg_or r m : keeps (stable p q) (reg_or r m).
Proof. intros w a w' H. inversion H; subst. apply stable_same; reflexivity. Qed.

Lemma stable_reg_and r m : keeps (stable p q) (reg_and r m).
Proof. intros w a w' H. inversion H; subst. apply stable_same; reflexivity. Qed.

Lemma stable_PutChar d b : q d = false -> keeps (stable p q) (PutChar d b).
Proof.
  intros Hd w a w' H. inversion H; subst. split; [|split].
  - reflexivity.
  - intros d' Hd'. simpl. destruct (txdev_eq_dec d' d); [congruence|reflexivity].
  - exists [TxPut d b]. reflexivity.
Qed.

Lemma stable_events (b : list event) :
  p TIMEOUT = false -> forall w, stable p q w (fold_left apply_event b w).
Proof.
  intros HT. induction b as [|e b IH]; intros w; simpl.
  - apply stable_refl.
  - eapply stable_trans; [|apply IH].
    destruct e as [t|d x|d]; simpl; try (apply stable_same; reflexivity).
    destruct (running t (hal w)); [|apply stable_refl].
    split; [|split]; [|reflexivity|exists []; reflexivity].
    intros v Hv. simpl.
    destruct (var_eq_dec v TIMEOUT); [congruence|reflexivity].
Qed.

Lemma stable_pause : p TIMEOUT = false -> keeps (stable p q) pause.
Proof.
  intros HT w a w' H. unfold pause in H.
  destruct (future w) as [|b rest]; [discriminate|]. inversion H; subst.
  eapply stable_trans; [|apply stable_events, HT].
  apply stable_same; reflexivity.
Qed.

End Stable.

Create HintDb stable.

Ltac stab_with side leaf :=
  lazymatch goal with
  | |- keeps _ (bind _ _) =>
      apply keeps_bind;
      [apply stable_trans | stab_with side leaf | intro; stab_with side leaf]
  | |- keeps _ (ret _) => apply keeps_ret, stable_refl
  | |- keeps _ (get _) => apply keeps_get, stable_refl
  | |- keeps _ (set _ _) => apply stable_set; side
  | |- keeps _ (call _) => apply stable_call; exact I
  | |- keeps _ (reg_or _ _) => apply stable_reg_or
  | |- keeps _ (reg_and _ _) => apply stable_reg_and
  | |- keeps _ (PutChar _ _) => apply stable_PutChar; side
  | |- keeps _ pause => apply stable_pause; side
  | |- keeps _ (when _ _) =>
      apply keeps_when; [apply stable_refl | stab_with side leaf]
  | |- keeps _ (if ?b then _ else _) => destruct b; stab_with side leaf
  | |- keeps _ (match ?r with Some _ => _ | None => _ end) =>
      destruct r; stab_with side leaf
  | |- keeps _ (spin _ _ _) =>
      apply keeps_spin;
      [apply stable_refl | apply stable_trans | stab_with side leaf
       | intro; stab_with side leaf]
  | |- keeps _ (loop _ _ _) =>
      apply keeps_loop;
      [apply stable_refl | apply stable_trans | intro; stab_with side leaf]
  | |- keeps _ _ => leaf
  end.

Ltac stab := stab_with ltac:(assumption) ltac:(solve [eauto with stable]).

(** ** What each function leaves alone *)

Section Footprints.

Variable readChar : list Z -> Z * list Z.
Variable p : var -> bool.
Variable q : txdev -> bool.

Hypothesis pTIMEOUT : p TIMEOUT = false.
Hypothesis pSTATE : p STATE = false.
Hypothesis pCHILD : p CHILD = false.
Hypothesis pSOURCE : p COMMAND_SOURCE = false.
Hypothesis pDESTINATION : p COMMAND_DESTINATION = false.
Hypothesis pTYPE : p COMMAND_TYPE = false.
Hypothesis pPARAM : p COMMAND_PARAM = false.
Hypothesis pLENGTH : p COMMAND_LENGTH = false.
Hypothesis pERROR : p COMMAND_ERROR = false.
Hypothesis pSERVO_ID : p SERVO_ID = false.
Hypothesis q014 : q TX_014 = false.
Hypothesis q23 : q TX_23 = false.

Lemma stable_settle : keeps (stable p q) settle.
Proof. unfold settle. stab. Qed.

Lemma stable_wait_tx d : keeps (stable p q) (wait_tx_complete d).
Proof. unfold wait_tx_complete. stab. Qed.

Lemma stable_cReadChar d : keeps (stable p q) (cReadChar readChar d).
Proof.
  intros w a w' H. unfold cReadChar in H.
  destruct (readChar (rx w d)) as [b rest]. inversion H; subst.
  apply stable_same; reflexivity.
Qed.

Lemma stable_cGetChar d : keeps (stable p q) (cGetChar d).
Proof.
  unfold cGetChar. apply keeps_bind; [apply stable_trans | stab |].
  intros _ w a w' H. destruct (rx w d) as [|b rest]; [discriminate|].
  inversion H; subst. apply stable_same; reflexivity.
Qed.

Lemma stable_unloadAllConfigs : keeps (stable p q) unloadAllConfigs.
Proof. unfold unloadAllConfigs. stab. Qed.

Lemma stable_unloadConfig n : keeps (stable p q) (unloadConfig n).
Proof. unfold unloadConfig. stab. Qed.

Lemma stable_show_servo_id : keeps (stable p q) show_servo_id.
Proof. unfold show_servo_id. stab. Qed.

#[local] Hint Resolve stable_settle stable_wait_tx stable_cReadChar stable_cGetChar
  stable_unloadAllConfigs stable_unloadConfig stable_show_servo_id : stable.

Lemma stable_configToggle mode : keeps (stable p q) (configToggle mode).
Proof. unfold configToggle, release_role, enter_role, attach_bus. stab. Qed.

#[local] Hint Resolve stable_configToggle : stable.

Lemma stable_commandReady : keeps (stable p q) (commandReady readChar).
Proof. unfold commandReady. stab. Qed.

Lemma stable_sayHello : keeps (stable p q) sayHello.
Proof. unfold sayHello. stab. Qed.

Lemma stable_respond ty : keeps (stable p q) (respond ty).
Proof. unfold respond. stab. Qed.

Lemma stable_servoInstruction a b c d e :
  keeps (stable p q) (servoInstruction a b c d e).
Proof. unfold servoInstruction. stab. Qed.

#[local] Hint Resolve stable_commandReady stable_sayHello stable_respond
  stable_servoInstruction : stable.

Lemma stable_childListen : keeps (stable p q) (childListen readChar).
Proof. unfold childListen. stab. Qed.

Lemma stable_childResponse : keeps (stable p q) (childResponse readChar).
Proof.
  unfold childResponse, child_port_select, child_wait, child_timer_stop. stab.
Qed.

Lemma stable_reid_check i : keeps (stable p q) (reid_check readChar i).
Proof. unfold reid_check. stab. Qed.

#[local] Hint Resolve stable_reid_check : stable.

Lemma stable_reid_listen i : keeps (stable p q) (reid_listen readChar i).
Proof. unfold reid_listen. stab. Qed.

#[local] Hint Resolve stable_childListen stable_childResponse stable_reid_listen
  : stable.

Lemma stable_reid_attempts : keeps (stable p q) (reid_attempts readChar).
Proof. unfold reid_attempts. stab. Qed.

#[local] Hint Resolve stable_reid_attempts : stable.

Lemma stable_reid : keeps (stable p q) (reid readChar).
Proof. unfold reid. stab. Qed.

Lemma stable_servoFinder : keeps (stable p q) (servoFinder readChar).
Proof.
  unfold servoFinder, find_servo, find_attempts, find_listen, level_check,
    level_attempts, level_listen.
  stab.
Qed.

End Footprints.

(** The same for code over concrete selections [p] and [q]. *)
Ltac stable_fn :=
  idtac;
  lazymatch goal with
  | |- keeps _ (configToggle _) => apply stable_configToggle; reflexivity
  | |- keeps _ (commandReady _) => apply stable_commandReady; reflexivity
  | |- keeps _ sayHello => apply stable_sayHello; reflexivity
  | |- keeps _ (respond _) => apply stable_respond; reflexivity
  | |- keeps _ configCleared => apply stable_respond; reflexivity
  | |- keeps _ pingResponse => apply stable_respond; reflexivity
  | |- keeps _ assignedID => apply stable_respond; reflexivity
  | |- keeps _ (servoInstruction _ _ _ _ _) =>
      apply stable_servoInstruction; reflexivity
  | |- keeps _ (childListen _) => apply stable_childListen; reflexivity
  | |- keeps _ (childResponse _) => apply stable_childResponse; reflexivity
  | |- keeps _ (reid_check _ _) => apply stable_reid_check; reflexivity
  | |- keeps _ (reid_listen _ _) => apply stable_reid_listen; reflexivity
  | |- keeps _ (reid_attempts _) => apply stable_reid_attempts; reflexivity
  | |- keeps _ (reid _) => apply stable_reid; reflexivity
  | |- keeps _ (servoFinder _) => apply stable_servoFinder; reflexivity
  | |- keeps _ (cGetChar _) => apply stable_cGetChar; reflexivity
  | |- keeps _ (cReadChar _ _) => apply stable_cReadChar
  | |- keeps _ (wait_tx_complete _) => apply stable_wait_tx; reflexivity
  | |- keeps _ settle => apply stable_settle; reflexivity
  end.

Ltac stabc := stab_with ltac:(reflexivity) ltac:(stable_fn).

(** Find what the run [H] leaves alone, for the selections [p] and [q]. *)
Ltac frame_of H p q :=
  match type of H with
  | ?m ?w = Some (_, _) =>
      let K := fresh "K" in
      assert (K : keeps (stable p q) m) by stabc;
      apply K in H; clear K
  end.

(** ** Running straight-line code *)

Lemma bind_ret {A B : Type} (a : A) (k : A -> M B) w :
  bind (ret a) k w = k a w.
Proof. reflexivity. Qed.

Lemma bind_get {B : Type} v (k : Z -> M B) w :
  bind (get v) k w = k (glob w v) w.
Proof. reflexivity. Qed.

Lemma bind_set {B : Type} v x (k : unit -> M B) w :
  bind (set v x) k w = k tt (set_glob v x w).
Proof. reflexivity. Qed.

Lemma bind_call {B : Type} c (k : unit -> M B) w :
  bind (call c) k w = k tt (log_call c w).
Proof. reflexivity. Qed.

Lemma bind_reg_or {B : Type} r m (k : unit -> M B) w :
  bind (reg_or r m) k w = k tt (set_reg r (Z.lor (reg w r) m) w).
Proof. reflexivity. Qed.

Lemma bind_reg_and {B : Type} r m (k : unit -> M B) w :
  bind (reg_and r m) k w = k tt (set_reg r (Z.land (reg w r) m) w).
Proof. reflexivity. Qed.

Lemma bind_PutChar {B : Type} d b (k : unit -> M B) w :
  bind (PutChar d b) k w = k tt (set_txc d false (log_call (TxPut d b) w)).
Proof. reflexivity. Qed.

Lemma bind_bind {A B C : Type} (m : M A) (k : A -> M B) (h : B -> M C) w :
  bind (bind m k) h w = bind m (fun a => bind (k a) h) w.
Proof. unfold bind. destruct (m w) as [[a w1]|]; reflexivity. Qed.

Create Rewrite HintDb run.

#[local] Hint Rewrite @bind_ret @bind_get @bind_set @bind_call @bind_reg_or
  @bind_reg_and @bind_PutChar : run.

(** Split a run of [m ;; k] that returned into the run of [m] and of [k]. *)
Ltac split_run H :=
  let a := fresh "a" in
  let w := fresh "w" in
  let E := fresh "E" in
  apply bind_some in H; destruct H as (a & w & E & H).

Ltac run H :=
  repeat first
    [ progress (autorewrite with run in H)
    | match type of H with
      | bind _ _ _ = Some _ => split_run H
      end ].

(** ** Role switches *)

Lemma release_role_total (w : world) :
  exists w', release_role w = Some (tt, w') /\ same_but_regs w w'.
Proof.
  unfold release_role, unloadConfig, unloadAllConfigs, same_but_regs.
  autorewrite with run. cbn [glob set_reg].
  repeat match goal with
         | |- context [if ?b then _ else _] => destruct b
         end;
    autorewrite with run; eexists; (split; [reflexivity|]);
    repeat split; reflexivity.
Qed.

Lemma attach_bus_total (w : world) :
  exists w', attach_bus w = Some (tt, w') /\ same_but_regs w w' /\ hal w' = hal w.
Proof.
  unfold attach_bus, show_servo_id, same_but_regs.
  autorewrite with run.
  destruct (negb (glob w CONFIGURED =? 0)); autorewrite with run;
    cbn [glob set_reg];
    repeat match goal with
           | |- context [if ?b then _ else _] => destruct b
           end;
    autorewrite with run; eexists; (split; [reflexivity|]);
    repeat split; reflexivity.
Qed.

(** Switching to the Wait role never blocks and changes no global but
    [STATE]; in particular it leaves [TIMEOUT] as it is. *)
Lemma configToggle_WAIT (w : world) :
  exists w',
    configToggle WAIT w = Some (tt, w') /\
    glob w' STATE = WAIT /\
    (forall v, v <> STATE -> glob w' v = glob w v) /\
    rx w' = rx w /\ txc w' = txc w /\ future w' = future w /\
    (forall d, wire d (hal w') = wire d (hal w)).
Proof.
  destruct (release_role_total w) as (w1 & E1 & G1 & R1 & T1 & F1 & W1).
  set (w2 := set_glob STATE WAIT
               (log_call (RxStart RX8_2)
                  (log_call (RxStart WAIT_RECV)
                     (log_call (LoadConfig waiting) w1)))).
  assert (E2 : enter_role WAIT w1 = Some (tt, w2)) by reflexivity.
  destruct (attach_bus_total w2) as (w3 & E3 & (G3 & R3 & T3 & F3 & W3) & _).
  exists w3. split.
  - unfold configToggle. rewrite (bind_run _ _ _ _ _ E1).
    rewrite (bind_run _ _ _ _ _ E2). exact E3.
  - rewrite G3, R3, T3, F3. subst w2. cbn [glob rx txc future set_glob log_call].
    rewrite G1, R1, T1, F1. repeat split; try reflexivity.
    + intros v Hv. destruct (var_eq_dec v STATE); [contradiction|reflexivity].
    + intros d. rewrite W3. cbn. apply W1.
Qed.

(** Every other role switch that returns has cleared [TIMEOUT]. *)
Lemma enter_role_clears (mode : Z) (w w' : world) (u : unit) :
  MY_RESPONSE <= mode <= INITIALIZE ->
  enter_role mode w = Some (u, w') ->
  glob w' TIMEOUT = 0 /\ glob w' STATE = mode.
Proof.
  intros Hm H.
  assert (Hc : mode = 2 \/ mode = 3 \/ mode = 4 \/ mode = 5 \/ mode = 6 \/
               mode = 7 \/ mode = 8)
    by (unfold MY_RESPONSE, INITIALIZE in Hm; lia).
  destruct Hc as [->|[->|[->|[->|[->|[->| ->]]]]]]; cbn in H;
    run H; inversion H; subst; cbn; split; reflexivity.
Qed.

Lemma configToggle_clears (mode : Z) (w w' : world) (u : unit) :
  MY_RESPONSE <= mode <= INITIALIZE ->
  configToggle mode w = Some (u, w') ->
  glob w' TIMEOUT = 0 /\ glob w' STATE = mode.
Proof.
  intros Hm H. unfold configToggle in H. run H.
  destruct (attach_bus_total w1) as (w3 & E3 & (G3 & _) & _).
  rewrite E3 in H. inversion H; subst. rewrite G3.
  destruct a0. eapply enter_role_clears; eauto.
Qed.

(** ** What the emitters put on the wires *)

Lemma but_role_true (v : var) : v <> TIMEOUT -> v <> STATE -> but_role v = true.
Proof. destruct v; simpl; congruence. Qed.

Lemma respond_emits (ty : Z) (w w' : world) (u : unit) :
  respond ty w = Some (u, w') ->
  wire TX_014 (hal w') = wire TX_014 (hal w) ++ response_frame (glob w ID) ty /\
  wire TX_23 (hal w') = wire TX_23 (hal w) ++ response_frame (glob w ID) ty /\
  glob w' STATE = WAIT /\
  (forall v, v <> TIMEOUT -> v <> STATE -> glob w' v = glob w v).
Proof.
  intros H.
  assert (Hs : stable but_role no_tx w w')
    by (eapply stable_respond; try reflexivity; exact H).
  unfold respond in H. split_run H.
  apply (stable_configToggle but_role all_tx) in E; try reflexivity.
  destruct E as (Eg & Ew & _).
  autorewrite with run in H. split_run H. split_run H.
  apply (stable_wait_tx but_role all_tx) in E, E0; try reflexivity.
  destruct E as (_ & Ew1 & _). destruct E0 as (_ & Ew2 & _).
  destruct (configToggle_WAIT w2) as (w3 & E3 & S3 & _ & _ & _ & _ & W3).
  rewrite E3 in H. inversion H; subst w3.
  rewrite !W3, !Ew2, !Ew1 by reflexivity. cbn.
  rewrite (Eg ID) by reflexivity. rewrite !Ew by reflexivity.
  cbn. rewrite <- !app_assoc. cbn.
  repeat split; try reflexivity; try assumption.
  intros v Hv1 Hv2. apply Hs. apply but_role_true; assumption.
Qed.

Lemma sayHello_emits (w w' : world) (u : unit) :
  sayHello w = Some (u, w') ->
  wire TX_014 (hal w') =
    wire TX_014 (hal w) ++ hello_frame (glob w ID) (glob w CHILD) /\
  wire TX_23 (hal w') = wire TX_23 (hal w).
Proof.
  intros H. split.
  - unfold sayHello in H. split_run H.
    apply (stable_configToggle but_role all_tx) in E; try reflexivity.
    destruct E as (Eg & Ew & _).
    autorewrite with run in H. split_run H.
    apply (stable_wait_tx but_role all_tx) in E; try reflexivity.
    destruct E as (_ & Ew1 & _).
    destruct (configToggle_WAIT w1) as (w3 & E3 & _ & _ & _ & _ & _ & W3).
    rewrite E3 in H. inversion H; subst w3.
    rewrite !W3, !Ew1 by reflexivity. cbn.
    rewrite (Eg ID), (Eg CHILD) by reflexivity. rewrite !Ew by reflexivity.
    cbn. rewrite <- !app_assoc. reflexivity.
  - apply (stable_sayHello but_role only_TX_23) in H; try reflexivity.
    apply H. reflexivity.
Qed.

Lemma servoInstruction_emits (id len ins addr val : Z) (w w' : world)
      (u : unit) :
  servoInstruction id len ins addr val w = Some (u, w') ->
  wire TX_014 (hal w') =
    wire TX_014 (hal w) ++ servo_frame id len ins addr val /\
  wire TX_23 (hal w') = wire TX_23 (hal w) /\
  glob w' TIMEOUT = 0 /\ glob w' STATE = INITIALIZE /\
  (forall v, v <> TIMEOUT -> v <> STATE -> glob w' v = glob w v).
Proof.
  intros H.
  assert (Hs : stable but_role only_TX_23 w w')
    by (eapply stable_servoInstruction; try reflexivity; exact H).
  split; [|split; [apply Hs; reflexivity|]].
  - unfold servoInstruction in H. split_run H.
    apply (stable_configToggle but_role all_tx) in E; try reflexivity.
    destruct E as (_ & Ew & _).
    autorewrite with run in H. split_run H. split_run H.
    apply (stable_wait_tx but_role all_tx) in E0; try reflexivity.
    destruct E0 as (_ & Ew1 & _).
    apply (stable_configToggle but_role all_tx) in H; try reflexivity.
    destruct H as (_ & Ew2 & _).
    rewrite Ew2, Ew1 by reflexivity. unfold servo_frame.
    destruct (ins =? PING_SERVO); autorewrite with run in E;
      inversion E; subst;
      cbn; rewrite !Ew by reflexivity; rewrite <- !app_assoc; reflexivity.
  - unfold servoInstruction in H. split_run H. split_run H. split_run H.
    split_run H.
    apply configToggle_clears in H; [|unfold MY_RESPONSE, INITIALIZE; lia].
    destruct H as [HT HS]. repeat split; try assumption.
    intros v Hv1 Hv2. apply Hs. apply but_role_true; assumption.
Qed.

(** ** The transmit-complete flags *)

Lemma events_keep_complete (b : list event) (w : world) (d : txdev) :
  txc w d = true -> txc (fold_left apply_event b w) d = true.
Proof.
  revert w. induction b as [|e b IH]; intros w H; [exact H|].
  cbn [fold_left]. apply IH.
  destruct e as [t|d' x|d']; cbn.
  - destruct (running t (hal w)); exact H.
  - exact H.
  - destruct (txdev_eq_dec d d'); [reflexivity|exact H].
Qed.

Lemma pause_keeps_complete (w w' : world) (u : unit) (d : txdev) :
  pause w = Some (u, w') -> txc w d = true -> txc w' d = true.
Proof.
  unfold pause. destruct (future w) as [|b rest]; [discriminate|].
  intros H Ht. inversion H; subst. apply events_keep_complete. exact Ht.
Qed.

(** The wait on a transmitter ends with its flag up, and takes no flag
    down. *)
Lemma wait_tx_complete_done (d : txdev) (w w' : world) (u : unit) :
  wait_tx_complete d w = Some (u, w') ->
  txc w' d = true /\ (forall d', txc w d' = true -> txc w' d' = true).
Proof.
  intros H. unfold wait_tx_complete in H.
  apply (spin_inv
           (fun _ w1 => forall d', txc w d' = true -> txc w1 d' = true)) in H.
  - destruct H as [Hm Hc]. split; [|exact Hm].
    apply negb_false_iff in Hc. exact Hc.
  - intros l w1 u1 w2 l2 w3 HI _ Hp Hb d' Hd. inversion Hb; subst.
    eapply pause_keeps_complete; [exact Hp|]. apply HI, Hd.
  - intros d' Hd. exact Hd.
Qed.

Lemma respond_waits (ty : Z) (w w' : world) (u : unit) :
  respond ty w = Some (u, w') ->
  txc w' TX_014 = true /\ txc w' TX_23 = true.
Proof.
  intros H. unfold respond in H. split_run H.
  autorewrite with run in H. split_run H. split_run H.
  apply wait_tx_complete_done in E0, E1.
  destruct E0 as [D1 _]. destruct E1 as [D2 M2].
  destruct (configToggle_WAIT w2) as (w3 & E3 & _ & _ & _ & T3 & _).
  rewrite E3 in H. inversion H; subst w3. rewrite T3.
  split; [apply M2, D1|exact D2].
Qed.

Lemma sayHello_waits (w w' : world) (u : unit) :
  sayHello w = Some (u, w') ->
  txc w' TX_014 = true /\ glob w' STATE = WAIT.
Proof.
  intros H. unfold sayHello in H. split_run H.
  autorewrite with run in H. split_run H.
  apply wait_tx_complete_done in E0. destruct E0 as [D1 _].
  destruct (configToggle_WAIT w1) as (w3 & E3 & S3 & _ & _ & T3 & _).
  rewrite E3 in H. inversion H; subst w3. rewrite T3.
  split; assumption.
Qed.

Lemma respond_sent_on_both (ty : Z) (w w' : world) (u : unit) :
  respond ty w = Some (u, w') -> sent_on_both ty w w'.
Proof.
  intros H. destruct (respond_waits _ _ _ _ H) as [T1 T2].
  apply respond_emits in H. destruct H as (W1 & W2 & S & _).
  repeat split; assumption.
Qed.

(** ** A fact on repeated lists *)

Lemma concat_repeat_snoc {A : Type} (x : list A) (n : nat) :
  concat (repeat x n) ++ x = concat (repeat x (S n)).
Proof.
  induction n as [|n IH]; simpl.
  - rewrite app_nil_r. reflexivity.
  - rewrite <- app_assoc. simpl in IH. rewrite IH. reflexivity.
Qed.

(** ** The frame handler *)

Section Claims.

Variable readChar : list Z -> Z * list Z.

(** C10.  An ID_ASSIGNMENT frame addressed to this module whose parameter is
    not in 1..250 is ignored: [takeAction] returns at once and leaves the
    whole board as it was, so [ID], [CONFIGURED], [CHILD] and [SERVO_ID] keep
    their values, no API call is made and no byte is put on a transmitter. *)
Theorem id_assign_out_of_range_ignored (w : world) :
  glob w COMMAND_TYPE = ID_ASSIGNMENT ->
  glob w COMMAND_DESTINATION = glob w ID ->
  ~ (1 <= glob w COMMAND_PARAM <= 250) ->
  takeAction readChar w = Some (tt, w).
Proof.
  intros Hty Hdst Hp. unfold takeAction.
  rewrite bind_get, Hty. change (ID_ASSIGNMENT =? HELLO_BYTE) with false.
  change (ID_ASSIGNMENT =? PING) with false.
  change (ID_ASSIGNMENT =? ID_ASSIGNMENT) with true. cbv iota.
  rewrite !bind_get, Hdst, Z.eqb_refl, bind_get.
  unfold MASTER_ID, DEFAULT_ID.
  destruct (glob w COMMAND_PARAM >? 0) eqn:H0;
    destruct (glob w COMMAND_PARAM <? 251) eqn:H1; simpl; try reflexivity.
  exfalso. apply Hp. rewrite Z.gtb_ltb in H0.
  apply Z.ltb_lt in H0, H1. lia.
Qed.

(** C5.  Whatever command tuple [servoInstruction] is given, the packet it
    puts on TX_014 ends with a checksum byte [c], a value of [char], such
    that [(id + length + instruction + address + value + c) mod 256 = 255]. *)
Theorem servo_checksum_law (id len ins addr val : Z) (w w' : world) (u : unit) :
  servoInstruction id len ins addr val w = Some (u, w') ->
  exists packet c,
    wire TX_014 (hal w') = wire TX_014 (hal w) ++ packet ++ [c] /\
    c = servo_checksum id len ins addr val /\
    0 <= c < 256 /\
    (id + len + ins + addr + val + c) mod 256 = 255.
Proof.
  intros H. apply servoInstruction_emits in H. destruct H as (Hw & _).
  exists (if ins =? PING_SERVO
          then [SERVO_START; SERVO_START; id; len; ins]
          else [SERVO_START; SERVO_START; id; len; ins; addr; val]).
  exists (servo_checksum id len ins addr val).
  split; [|split; [reflexivity|]].
  - rewrite Hw. unfold servo_frame. destruct (ins =? PING_SERVO); reflexivity.
  - unfold servo_checksum, to_char.
    pose proof (Z.mod_pos_bound (id + len + ins + addr + val) 256 eq_refl) as Hb.
    rewrite (Z.mod_small (255 - _)) by lia.
    split; [lia|].
    replace (id + len + ins + addr + val +
             (255 - (id + len + ins + addr + val) mod 256))
      with (255 + ((id + len + ins + addr + val) -
                   (id + len + ins + addr + val) mod 256)) by lia.
    rewrite (Z.div_mod (id + len + ins + addr + val) 256) at 1 by lia.
    replace (255 + (256 * ((id + len + ins + addr + val) / 256) +
                    (id + len + ins + addr + val) mod 256 -
                    (id + len + ins + addr + val) mod 256))
      with (255 + ((id + len + ins + addr + val) / 256) * 256) by lia.
    rewrite Z.mod_add by lia. reflexivity.
Qed.

(** The CLEAR_CONFIG branch of [takeAction], main.c lines 614-642: it
    returns at once when the frame is for another module, and what holds
    whenever it has returned. *)
Lemma clear_config_cases (w : world) :
  glob w COMMAND_TYPE = CLEAR_CONFIG ->
  (glob w COMMAND_DESTINATION <> glob w ID ->
   exists w', takeAction readChar w = Some (tt, w')) /\
  forall u w',
    takeAction readChar w = Some (u, w') ->
    (glob w COMMAND_DESTINATION = glob w ID ->
     wire TX_014 (hal w') =
       wire TX_014 (hal w) ++ response_frame (glob w ID) CONFIG_CLEARED /\
     wire TX_23 (hal w') =
       wire TX_23 (hal w) ++ response_frame (glob w ID) CONFIG_CLEARED) /\
    (glob w COMMAND_DESTINATION <> glob w ID -> hal w' = hal w) /\
    (glob w COMMAND_DESTINATION = BROADCAST \/
     glob w COMMAND_DESTINATION <= glob w ID ->
     glob w' ID = DEFAULT_ID /\ glob w' CONFIGURED = 0 /\ glob w' CHILD = 0) /\
    glob w' SERVO_ID = glob w SERVO_ID.
Proof.
  intros Hty.
  assert (Hhead : takeAction readChar w =
                  (when (glob w COMMAND_DESTINATION =? glob w ID) configCleared ;;
                   dst' <- get COMMAND_DESTINATION ;;
                   id' <- get ID ;;
                   when ((dst' <=? id') || (dst' =? BROADCAST))
                        (set ID DEFAULT_ID ;; set CONFIGURED 0 ;; set CHILD 0) ;;
                   reg_or PRT2DR 1) w).
  { unfold takeAction. rewrite bind_get, Hty.
    change (CLEAR_CONFIG =? HELLO_BYTE) with false.
    change (CLEAR_CONFIG =? PING) with false.
    change (CLEAR_CONFIG =? ID_ASSIGNMENT) with false.
    change (CLEAR_CONFIG =? CLEAR_CONFIG) with true. cbv iota.
    rewrite !bind_get. reflexivity. }
  rewrite Hhead. clear Hhead. split.
  - intros Hne. apply Z.eqb_neq in Hne. rewrite Hne. unfold when at 1.
    autorewrite with run.
    destruct ((glob w COMMAND_DESTINATION <=? glob w ID) ||
              (glob w COMMAND_DESTINATION =? BROADCAST)); unfold when;
      autorewrite with run; eexists; reflexivity.
  - intros u w' H.
    destruct (glob w COMMAND_DESTINATION =? glob w ID) eqn:Hd.
    + apply Z.eqb_eq in Hd. unfold when at 1 in H. split_run H.
      apply respond_emits in E. destruct E as (W1 & W2 & _ & Hg).
      autorewrite with run in H.
      rewrite (Hg COMMAND_DESTINATION), (Hg ID) in H by discriminate.
      rewrite Hd, Z.leb_refl in H. cbn [orb when] in H.
      autorewrite with run in H. inversion H; subst w'. cbn.
      rewrite W1, W2, (Hg SERVO_ID) by discriminate.
      split; [intros _; split; reflexivity|].
      split; [intros Hne; contradiction|].
      split; [intros _; repeat split; reflexivity|reflexivity].
    + apply Z.eqb_neq in Hd. unfold when at 1 in H.
      autorewrite with run in H.
      destruct ((glob w COMMAND_DESTINATION <=? glob w ID) ||
                (glob w COMMAND_DESTINATION =? BROADCAST)) eqn:Hc;
        unfold when in H; autorewrite with run in H; inversion H; subst w';
        cbn; (split; [intros He; contradiction|]);
        (split; [intros _; reflexivity|]); (split; [|reflexivity]).
      * intros _. repeat split; reflexivity.
      * apply orb_false_iff in Hc. destruct Hc as [Hc1 Hc2].
        apply Z.eqb_neq in Hc2. apply Z.leb_gt in Hc1.
        intros [Hb|Hl]; exfalso; [contradiction|lia].
Qed.

(** The accepted branch of ID_ASSIGNMENT, main.c lines 554-605. *)
Lemma accept_id_run (p : Z) (w w' : world) (u : unit) :
  (set ID p ;;
   set CONFIGURED 1 ;;
   assignedID ;;
   id' <- get ID ;;
   s <- get SERVO_ID ;;
   when (negb (id' =? s)) (reid readChar)) w = Some (u, w') ->
  glob w' ID = p /\
  glob w' CONFIGURED = 1 /\
  wire TX_23 (hal w') = wire TX_23 (hal w) ++ response_frame p ID_ASSIGN_OK /\
  exists servo_packets,
    wire TX_014 (hal w') =
      wire TX_014 (hal w) ++ response_frame p ID_ASSIGN_OK ++ servo_packets.
Proof.
  intros H. autorewrite with run in H. split_run H.
  apply respond_emits in E. destruct E as (W1 & W2 & _ & Hg).
  cbn in W1, W2.
  assert (G1 : glob w0 ID = p)
    by (rewrite (Hg ID) by discriminate; reflexivity).
  assert (G2 : glob w0 CONFIGURED = 1)
    by (rewrite (Hg CONFIGURED) by discriminate; reflexivity).
  autorewrite with run in H.
  destruct (negb (glob w0 ID =? glob w0 SERVO_ID)); unfold when in H.
  - apply (stable_reid readChar id_and_configured only_TX_23) in H;
      try reflexivity.
    destruct H as (Sg & Sw & l & Sl).
    rewrite (Sg ID), (Sg CONFIGURED), (Sw TX_23), G1, G2, W2, Sl by reflexivity.
    rewrite wire_app, W1.
    repeat split; try reflexivity.
    exists (wire TX_014 l). rewrite <- app_assoc. reflexivity.
  - inversion H; subst w'. rewrite G1, G2, W1, W2.
    repeat split; try reflexivity. exists []. rewrite app_nil_r. reflexivity.
Qed.

(** C1.  For an ID_ASSIGNMENT frame addressed to this module with a
    parameter in 1..250, once [takeAction] has returned [ID] is the
    parameter, [CONFIGURED] is 1, and the ID_ASSIGN_OK response from the new
    ID to the master has gone out on both transmitters (on TX_014 it is
    followed by whatever servo packets the re-ID procedure sent). *)
Theorem id_assign_accepted (w w' : world) (u : unit) :
  glob w COMMAND_TYPE = ID_ASSIGNMENT ->
  glob w COMMAND_DESTINATION = glob w ID ->
  1 <= glob w COMMAND_PARAM <= 250 ->
  takeAction readChar w = Some (u, w') ->
  glob w' ID = glob w COMMAND_PARAM /\
  glob w' CONFIGURED = 1 /\
  wire TX_23 (hal w') =
    wire TX_23 (hal w) ++ response_frame (glob w COMMAND_PARAM) ID_ASSIGN_OK /\
  exists servo_packets,
    wire TX_014 (hal w') =
      wire TX_014 (hal w) ++
      response_frame (glob w COMMAND_PARAM) ID_ASSIGN_OK ++ servo_packets.
Proof.
  intros Hty Hdst Hp H. unfold takeAction in H.
  rewrite bind_get, Hty in H. change (ID_ASSIGNMENT =? HELLO_BYTE) with false in H.
  change (ID_ASSIGNMENT =? PING) with false in H.
  change (ID_ASSIGNMENT =? ID_ASSIGNMENT) with true in H. cbv iota in H.
  rewrite !bind_get, Hdst, Z.eqb_refl, bind_get in H.
  assert (Hin : (glob w COMMAND_PARAM >? MASTER_ID) &&
                (glob w COMMAND_PARAM <? DEFAULT_ID) = true).
  { apply andb_true_iff. rewrite Z.gtb_ltb. unfold MASTER_ID, DEFAULT_ID.
    split; apply Z.ltb_lt; lia. }
  rewrite Hin in H. apply accept_id_run in H. exact H.
Qed.

(** ** The configured invariant *)

Lemma stable_preserves_ok (q : txdev -> bool) (w w' : world) :
  stable id_and_configured q w w' -> preserves_ok w w'.
Proof.
  intros (Hg & _) Hok Hc. rewrite (Hg ID) by reflexivity.
  apply Hok. rewrite <- (Hg CONFIGURED) by reflexivity. exact Hc.
Qed.

Lemma takeAction_preserves_ok : keeps preserves_ok (takeAction readChar).
Proof.
  intros w u w' H. unfold takeAction in H. rewrite bind_get in H.
  destruct (glob w COMMAND_TYPE =? HELLO_BYTE).
  { frame_of H id_and_configured no_tx. eapply stable_preserves_ok, H. }
  destruct (glob w COMMAND_TYPE =? PING).
  { frame_of H id_and_configured no_tx. eapply stable_preserves_ok, H. }
  destruct (glob w COMMAND_TYPE =? ID_ASSIGNMENT).
  { rewrite !bind_get in H.
    destruct (glob w COMMAND_DESTINATION =? glob w ID).
    - rewrite bind_get in H.
      destruct ((glob w COMMAND_PARAM >? MASTER_ID) &&
                (glob w COMMAND_PARAM <? DEFAULT_ID)) eqn:Hin.
      + apply accept_id_run in H. destruct H as (G1 & G2 & _).
        apply andb_true_iff in Hin. destruct Hin as [H0 H1].
        rewrite Z.gtb_ltb in H0. apply Z.ltb_lt in H0, H1.
        unfold MASTER_ID, DEFAULT_ID in *.
        intros _ _. rewrite G1. lia.
      + inversion H; subst. intros Hok; exact Hok.
    - frame_of H id_and_configured no_tx. eapply stable_preserves_ok, H. }
  destruct (glob w COMMAND_TYPE =? CLEAR_CONFIG).
  { rewrite !bind_get in H. split_run H.
    frame_of E id_and_configured no_tx. apply stable_preserves_ok in E.
    rewrite !bind_get in H.
    destruct ((glob w0 COMMAND_DESTINATION <=? glob w0 ID) ||
              (glob w0 COMMAND_DESTINATION =? BROADCAST));
      unfold when in H; autorewrite with run in H; inversion H; subst w'.
    - intros _ Hc. cbn in Hc. exfalso. exact (Hc eq_refl).
    - intros Hok. apply E in Hok. exact Hok. }
  inversion H; subst. intros Hok; exact Hok.
Qed.

Lemma operation_preserves_ok (w w' : world) :
  operation readChar w w' -> preserves_ok w w'.
Proof.
  intros [u H|c H|u H|u H|u H|u H|c H|c H|a b c d e u H|mode u H];
    [eapply takeAction_preserves_ok, H|..];
    frame_of H id_and_configured no_tx; eapply stable_preserves_ok, H.
Qed.

Lemma main_pass_preserves_ok : keeps preserves_ok (main_pass readChar).
Proof.
  intros w u w' H. unfold main_pass in H. split_run H. split_run H.
  frame_of E id_and_configured no_tx. apply stable_preserves_ok in E.
  frame_of E0 id_and_configured no_tx. apply stable_preserves_ok in E0.
  intros Hok. apply E, E0 in Hok.
  destruct (negb (a0 =? 0)); unfold when in H.
  - eapply takeAction_preserves_ok; eauto.
  - inversion H; subst. exact Hok.
Qed.

Lemma main_init_ok (w0 w : world) (u : unit) :
  main_init readChar w0 = Some (u, w) -> configured_id_ok w.
Proof.
  unfold main_init. intros H. autorewrite with run in H.
  frame_of H id_and_configured no_tx. destruct H as (Hg & _).
  intros Hc. rewrite (Hg CONFIGURED) in Hc by reflexivity.
  exfalso. apply Hc. reflexivity.
Qed.

(** C7.  In every state the module reaches between two passes of its main
    loop, [CONFIGURED] set implies [ID] in 1..250; and from such a state
    every operation (the handler with its ID assignment and configuration
    clear, the frame reader, the four responses, the two listens, a servo
    instruction, a role switch) that returns leaves a state where this holds
    again. *)
Theorem configured_implies_assigned_id (w : world) :
  reachable readChar w ->
  configured_id_ok w /\
  forall w', operation readChar w w' -> configured_id_ok w'.
Proof.
  intros Hr.
  assert (Hok : configured_id_ok w).
  { induction Hr as [w0 w u H|w w' u Hr IH H].
    - eapply main_init_ok, H.
    - eapply main_pass_preserves_ok; eauto. }
  split; [exact Hok|].
  intros w' Hop. eapply operation_preserves_ok; eauto.
Qed.

(** ** The re-ID procedure *)

(** What one look at the servo line does. *)
Lemma reid_check_cases (i : Z) (w : world) (i' : Z) (w' : world) :
  reid_check readChar i w = Some (i', w') ->
  exists c w1,
    commandReady readChar w = Some (c, w1) /\
    ((c <> 0 /\ glob w1 COMMAND_ERROR = 0 /\
      glob w1 COMMAND_SOURCE = glob w1 ID /\
      i' = SERVO_COMM_ATTEMPTS /\
      glob w' SERVO_ID = glob w1 ID /\ glob w' TIMEOUT = 1 /\
      glob w' STATE = WAIT /\
      (forall v, v <> STATE -> v <> TIMEOUT -> v <> SERVO_ID ->
                 glob w' v = glob w1 v) /\
      same_wires w1 w')
     \/
     (~ (c <> 0 /\ glob w1 COMMAND_ERROR = 0 /\
         glob w1 COMMAND_SOURCE = glob w1 ID) /\
      i' = i /\ w' = w1)).
Proof.
  intros H. unfold reid_check in H. split_run H. rename a into c.
  exists c, w0. split; [exact E|].
  destruct (c =? 0) eqn:Hc; cbn [negb] in H.
  { apply Z.eqb_eq in Hc. inversion H; subst. right.
    split; [|split; reflexivity]. intros (Hn & _). apply Hn. reflexivity. }
  apply Z.eqb_neq in Hc. rewrite bind_get in H.
  destruct (glob w0 COMMAND_ERROR =? 0) eqn:He.
  2:{ apply Z.eqb_neq in He. inversion H; subst. right.
      split; [|split; reflexivity]. intros (_ & Hn & _). contradiction. }
  apply Z.eqb_eq in He. rewrite !bind_get in H.
  destruct (glob w0 COMMAND_SOURCE =? glob w0 ID) eqn:Hs.
  2:{ apply Z.eqb_neq in Hs. inversion H; subst. right.
      split; [|split; reflexivity]. intros (_ & _ & Hn). contradiction. }
  apply Z.eqb_eq in Hs. left. autorewrite with run in H.
  destruct (configToggle_WAIT
              (set_glob SERVO_ID (glob w0 ID) (set_glob TIMEOUT 1 w0)))
    as (w3 & E3 & S3 & G3 & _ & _ & _ & W3).
  rewrite (bind_run _ _ _ _ _ E3) in H. inversion H; subst i' w3.
  repeat split; try assumption.
  - rewrite G3 by discriminate. reflexivity.
  - rewrite G3 by discriminate. reflexivity.
  - intros v H1 H2 H3. rewrite G3 by assumption. cbn.
    destruct (var_eq_dec v SERVO_ID); [contradiction|].
    destruct (var_eq_dec v TIMEOUT); [contradiction|reflexivity].
Qed.

Lemma commandReady_ids (w : world) (c : Z) (w' : world) :
  commandReady readChar w = Some (c, w') ->
  glob w' ID = glob w ID /\ glob w' SERVO_ID = glob w SERVO_ID /\
  same_wires w w'.
Proof.
  intros H. apply (stable_commandReady readChar ids all_tx) in H;
    try reflexivity.
  destruct H as (Hg & Hw & _).
  repeat split; try (apply Hg; reflexivity). intros d. apply Hw. reflexivity.
Qed.

Lemma reid_check_step (I0 S0 i : Z) (w : world) (i' : Z) (w' : world) :
  pending I0 S0 w ->
  reid_check readChar i w = Some (i', w') ->
  same_wires w w' /\
  ((i' = i /\ pending I0 S0 w') \/
   (i' = SERVO_COMM_ATTEMPTS /\ accepted I0 w')).
Proof.
  intros [HI HS] H. apply reid_check_cases in H.
  destruct H as (c & w1 & E & H). apply commandReady_ids in E.
  destruct E as (EI & ES & EW).
  destruct H as [(Hc & He & Hs & Hi & G1 & G2 & G3 & G4 & W4)|(_ & Hi & Hw)].
  - split.
    + intros d. rewrite W4. apply EW.
    + right. split; [exact Hi|]. unfold accepted.
      rewrite (G4 ID), (G4 COMMAND_SOURCE), (G4 COMMAND_ERROR) by discriminate.
      rewrite G1, Hs, EI, HI. repeat split; assumption.
  - subst w'. split; [exact EW|]. left. split; [exact Hi|].
    split; congruence.
Qed.

Lemma pause_ids (w : world) (u : unit) (w' : world) :
  pause w = Some (u, w') ->
  glob w' ID = glob w ID /\ glob w' SERVO_ID = glob w SERVO_ID /\
  same_wires w w'.
Proof.
  intros H. apply (stable_pause ids all_tx) in H; try reflexivity.
  destruct H as (Hg & Hw & _).
  repeat split; try (apply Hg; reflexivity). intros d. apply Hw. reflexivity.
Qed.

Lemma reid_listen_step (I0 S0 i : Z) (w : world) (i' : Z) (w' : world) :
  pending I0 S0 w ->
  reid_listen readChar i w = Some (i', w') ->
  same_wires w w' /\
  ((i' = i /\ pending I0 S0 w') \/
   (i' = SERVO_COMM_ATTEMPTS /\ accepted I0 w')).
Proof.
  intros Hp H. unfold reid_listen in H.
  apply (spin_inv
           (fun l w1 =>
              same_wires w w1 /\
              ((l = i /\ pending I0 S0 w1) \/
               (l = SERVO_COMM_ATTEMPTS /\ accepted I0 w1)))) in H.
  - apply H.
  - intros l w1 u w2 l2 w3 (W1 & J) Hc Hpause Hbody.
    destruct J as [(Hl & P1)|(_ & A1)].
    2:{ destruct A1 as (_ & _ & _ & HT & _). cbn in Hc. rewrite HT in Hc.
        discriminate. }
    subst l. apply pause_ids in Hpause. destruct Hpause as (PI & PS & PW).
    assert (P2 : pending I0 S0 w2) by (destruct P1; split; congruence).
    destruct (reid_check_step _ _ _ _ _ _ P2 Hbody) as (W3 & J3).
    split; [|exact J3].
    intros d. rewrite W3, PW. apply W1.
  - split; [intros d; reflexivity|]. left. split; [reflexivity|exact Hp].
Qed.

Lemma servoInstruction_pending (I0 S0 a b c d e : Z) (w w' : world)
      (u : unit) :
  pending I0 S0 w ->
  servoInstruction a b c d e w = Some (u, w') ->
  pending I0 S0 w' /\
  wire TX_014 (hal w') = wire TX_014 (hal w) ++ servo_frame a b c d e /\
  wire TX_23 (hal w') = wire TX_23 (hal w).
Proof.
  intros [HI HS] H. apply servoInstruction_emits in H.
  destruct H as (W1 & W2 & _ & _ & Hg).
  split; [|split; assumption].
  split; rewrite Hg by discriminate; assumption.
Qed.

Lemma reid_attempts_run (I0 S0 : Z) (w : world) (i' : Z) (w' : world) :
  pending I0 S0 w ->
  reid_attempts readChar w = Some (i', w') ->
  wire TX_23 (hal w') = wire TX_23 (hal w) /\
  exists k : nat,
    wire TX_014 (hal w') = wire TX_014 (hal w) ++ pings k /\
    ((k = 10%nat /\ pending I0 S0 w') \/
     ((1 <= k <= 10)%nat /\ accepted I0 w')).
Proof.
  intros Hp H. unfold reid_attempts in H.
  apply (loop_inv
           (fun i w1 =>
              wire TX_23 (hal w1) = wire TX_23 (hal w) /\
              exists k : nat,
                wire TX_014 (hal w1) = wire TX_014 (hal w) ++ pings k /\
                ((i = Z.of_nat k /\ (k <= 10)%nat /\ pending I0 S0 w1) \/
                 (i = 11 /\ (1 <= k <= 10)%nat /\ accepted I0 w1)))) in H.
  - destruct H as ((W23 & k & W14 & J) & Hc). split; [exact W23|].
    exists k. split; [exact W14|].
    destruct J as [(Hi & Hk & P)|(_ & Hk & A)]; [left|right; split; assumption].
    apply Z.ltb_ge in Hc. unfold SERVO_COMM_ATTEMPTS in Hc.
    split; [lia|exact P].
  - intros i w1 i2 w3 (W23 & k & W14 & J) Hc Hbody.
    apply Z.ltb_lt in Hc. unfold SERVO_COMM_ATTEMPTS in Hc.
    destruct J as [(Hi & Hk & P)|(Hi & _)]; [|lia].
    split_run Hbody. split_run Hbody. inversion Hbody; subst i2 w3.
    destruct (servoInstruction_pending _ _ _ _ _ _ _ _ _ _ P E)
      as (P2 & E14 & E23).
    destruct (reid_listen_step _ _ _ _ _ _ P2 E0) as (W3 & J3).
    split; [rewrite W3, E23; exact W23|].
    exists (S k). split.
    + rewrite W3, E14, W14, <- app_assoc. f_equal.
      apply concat_repeat_snoc.
    + destruct J3 as [(Ha & P3)|(Ha & A3)]; subst a0.
      * left. split; [lia|]. split; [lia|exact P3].
      * right. unfold SERVO_COMM_ATTEMPTS. split; [lia|].
        split; [lia|exact A3].
  - split; [reflexivity|]. exists 0%nat. split.
    + cbn. rewrite app_nil_r. reflexivity.
    + left. split; [reflexivity|]. split; [lia|exact Hp].
Qed.

Lemma reid_run (w w' : world) (u : unit) :
  glob w ID <> glob w SERVO_ID ->
  reid readChar w = Some (u, w') ->
  wire TX_23 (hal w') = wire TX_23 (hal w) /\
  accepted (glob w ID) w' /\
  exists (n k : nat),
    (1 <= k <= 10)%nat /\
    wire TX_014 (hal w') =
      wire TX_014 (hal w) ++
      failed_rounds (glob w SERVO_ID) (glob w ID) n ++
      write_packet (glob w SERVO_ID) (glob w ID) ++ pings k.
Proof.
  intros Hne H. unfold reid in H.
  set (I0 := glob w ID) in *. set (S0 := glob w SERVO_ID) in *.
  apply (loop_inv
           (fun (_ : unit) w1 =>
              wire TX_23 (hal w1) = wire TX_23 (hal w) /\
              ((pending I0 S0 w1 /\
                exists n : nat,
                  wire TX_014 (hal w1) =
                    wire TX_014 (hal w) ++ failed_rounds S0 I0 n) \/
               (accepted I0 w1 /\
                exists (n k : nat),
                  (1 <= k <= 10)%nat /\
                  wire TX_014 (hal w1) =
                    wire TX_014 (hal w) ++ failed_rounds S0 I0 n ++
                    write_packet S0 I0 ++ pings k)))) in H.
  - destruct H as ((W23 & J) & Hc). split; [exact W23|].
    destruct J as [([PI PS] & _)|(A & Hex)]; [|split; assumption].
    apply negb_false_iff, Z.eqb_eq in Hc. congruence.
  - intros [] w1 [] w3 (W23 & J) Hc Hbody.
    apply negb_true_iff, Z.eqb_neq in Hc.
    destruct J as [(P & n & W14)|((AI & AS & _) & _)]; [|congruence].
    rewrite !bind_get in Hbody. split_run Hbody. split_run Hbody.
    inversion Hbody; subst w3.
    destruct P as [PI PS]. rewrite PS, PI in E.
    destruct (servoInstruction_pending I0 S0 _ _ _ _ _ _ _ _
                (conj PI PS) E) as (P2 & E14 & E23).
    destruct (reid_attempts_run _ _ _ _ _ P2 E0) as (F23 & k & F14 & J2).
    split; [rewrite F23, E23; exact W23|].
    destruct J2 as [(Hk & P3)|(Hk & A3)].
    + left. split; [exact P3|]. exists (S n).
      rewrite F14, E14, W14, <- !app_assoc. f_equal. subst k.
      apply (concat_repeat_snoc (write_packet S0 I0 ++ pings 10) n).
    + right. split; [exact A3|]. exists n, k. split; [exact Hk|].
      rewrite F14, E14, W14, <- !app_assoc. reflexivity.
  - split; [reflexivity|]. left. split; [split; reflexivity|].
    exists 0%nat. cbn. rewrite app_nil_r. reflexivity.
Qed.

(** The accepted branch of ID_ASSIGNMENT when the servo has another ID:
    the response, then the re-ID procedure. *)
Lemma accept_id_reid (p : Z) (w w' : world) (u : unit) :
  p <> glob w SERVO_ID ->
  (set ID p ;;
   set CONFIGURED 1 ;;
   assignedID ;;
   id' <- get ID ;;
   s <- get SERVO_ID ;;
   when (negb (id' =? s)) (reid readChar)) w = Some (u, w') ->
  accepted p w' /\
  exists (n k : nat),
    (1 <= k <= 10)%nat /\
    wire TX_014 (hal w') =
      wire TX_014 (hal w) ++ response_frame p ID_ASSIGN_OK ++
      failed_rounds (glob w SERVO_ID) p n ++
      write_packet (glob w SERVO_ID) p ++ pings k.
Proof.
  intros Hne H. autorewrite with run in H. split_run H.
  apply respond_emits in E. destruct E as (W1 & _ & _ & Hg).
  cbn in W1.
  assert (G1 : glob w0 ID = p)
    by (rewrite (Hg ID) by discriminate; reflexivity).
  assert (G2 : glob w0 SERVO_ID = glob w SERVO_ID)
    by (rewrite (Hg SERVO_ID) by discriminate; reflexivity).
  autorewrite with run in H.
  assert (Hn : glob w0 ID <> glob w0 SERVO_ID) by congruence.
  apply Z.eqb_neq in Hn. rewrite Hn in H. cbn [negb when] in H.
  apply Z.eqb_neq in Hn. apply reid_run in H; [|exact Hn].
  destruct H as (_ & A & n & k & Hk & W).
  rewrite G1, G2 in *. split; [exact A|].
  exists n, k. split; [exact Hk|].
  rewrite W, W1, <- app_assoc. reflexivity.
Qed.

(** C6.  For an accepted ID_ASSIGNMENT whose new ID differs from
    [SERVO_ID], a handler that returns has put on TX_014, after its
    response, some rounds of one WRITE of the new ID to address 3 of the
    servo under its current ID followed by ten broadcast PINGs, then a last
    round of that WRITE and between one and ten PINGs; it returns with
    [SERVO_ID] equal to [ID], in the Wait role, the last servo reply read
    having the ID as source and no error.  When the new ID is the servo's,
    no servo packet is sent.  And one look at the servo line makes
    [SERVO_ID] equal to [ID], back in the Wait role, exactly when it reads a
    reply whose source is [ID] and whose error byte is 0. *)
Theorem reid_procedure (w : world) :
  glob w COMMAND_TYPE = ID_ASSIGNMENT ->
  glob w COMMAND_DESTINATION = glob w ID ->
  1 <= glob w COMMAND_PARAM <= 250 ->
  (forall u w',
      takeAction readChar w = Some (u, w') ->
      (glob w COMMAND_PARAM = glob w SERVO_ID ->
       wire TX_014 (hal w') =
         wire TX_014 (hal w) ++
         response_frame (glob w COMMAND_PARAM) ID_ASSIGN_OK /\
       glob w' SERVO_ID = glob w SERVO_ID) /\
      (glob w COMMAND_PARAM <> glob w SERVO_ID ->
       (exists (n k : nat),
           (1 <= k <= 10)%nat /\
           wire TX_014 (hal w') =
             wire TX_014 (hal w) ++
             response_frame (glob w COMMAND_PARAM) ID_ASSIGN_OK ++
             failed_rounds (glob w SERVO_ID) (glob w COMMAND_PARAM) n ++
             write_packet (glob w SERVO_ID) (glob w COMMAND_PARAM) ++
             pings k) /\
       glob w' SERVO_ID = glob w COMMAND_PARAM /\
       glob w' ID = glob w COMMAND_PARAM /\
       glob w' STATE = WAIT /\
       glob w' COMMAND_SOURCE = glob w COMMAND_PARAM /\
       glob w' COMMAND_ERROR = 0)) /\
  (forall v i i' v',
      glob v ID <> glob v SERVO_ID ->
      reid_check readChar i v = Some (i', v') ->
      (glob v' SERVO_ID = glob v' ID /\ glob v' STATE = WAIT <->
       exists c v1,
         commandReady readChar v = Some (c, v1) /\ c <> 0 /\
         glob v1 COMMAND_SOURCE = glob v1 ID /\ glob v1 COMMAND_ERROR = 0)).
Proof.
  intros Hty Hdst Hp. split.
  - intros u w'. unfold takeAction.
    rewrite bind_get, Hty. change (ID_ASSIGNMENT =? HELLO_BYTE) with false.
    change (ID_ASSIGNMENT =? PING) with false.
    change (ID_ASSIGNMENT =? ID_ASSIGNMENT) with true. cbv iota.
    rewrite !bind_get, Hdst, Z.eqb_refl, bind_get.
    assert (Hin : (glob w COMMAND_PARAM >? MASTER_ID) &&
                  (glob w COMMAND_PARAM <? DEFAULT_ID) = true).
    { apply andb_true_iff. rewrite Z.gtb_ltb. unfold MASTER_ID, DEFAULT_ID.
      split; apply Z.ltb_lt; lia. }
    rewrite Hin. intros H. split.
    + intros Heq. autorewrite with run in H. split_run H.
      apply respond_emits in E. destruct E as (W1 & _ & _ & Hg).
      cbn in W1. autorewrite with run in H.
      rewrite (Hg ID), (Hg SERVO_ID) in H by discriminate. cbn in H.
      rewrite Heq, Z.eqb_refl in H. inversion H; subst w'.
      rewrite W1, (Hg SERVO_ID) by discriminate. split; reflexivity.
    + intros Hne. apply accept_id_reid in H; [|exact Hne].
      destruct H as ((AI & AS & AW & _ & AC & AE) & Hex).
      repeat split; assumption.
  - intros v i i' v' Hne H. apply reid_check_cases in H.
    destruct H as (c & v1 & E & H).
    destruct (commandReady_ids _ _ _ E) as (EI & ES & _).
    destruct H as [(Hc & He & Hs & _ & G1 & _ & G3 & G4 & _)|(Hn & _ & Hw)].
    + split.
      * intros _. exists c, v1. repeat split; assumption.
      * intros _. split; [|exact G3].
        rewrite (G4 ID) by discriminate. exact G1.
    + subst v'. split.
      * intros [Heq _]. exfalso. apply Hne. congruence.
      * intros (c' & v1' & E' & Hc & Hs & He). exfalso.
        rewrite E in E'. inversion E'; subst c' v1'.
        apply Hn. repeat split; assumption.
Qed.

(** ** The timeout flag when a polling function returns *)

Lemma childResponse_clears (w : world) (c : Z) (w' : world) :
  childResponse readChar w = Some (c, w') -> glob w' TIMEOUT = 0.
Proof.
  unfold childResponse. intros H. split_run H. split_run H. split_run H.
  rewrite bind_set in H.
  destruct (configToggle_WAIT (set_glob TIMEOUT 0 w2))
    as (w3 & E3 & _ & G3 & _).
  rewrite (bind_run _ _ _ _ _ E3) in H. inversion H; subst.
  rewrite G3 by discriminate. reflexivity.
Qed.

Lemma childListen_timed_out_clears (w w' : world) :
  childListen readChar w = Some (0, w') -> glob w' TIMEOUT = 0.
Proof.
  unfold childListen. intros H. split_run H. split_run H.
  apply (spin_inv (fun r _ => r = None \/ r = Some 1)) in E0.
  - destruct E0 as [[->| ->] _].
    + autorewrite with run in H.
      destruct (configToggle_WAIT
                  (set_glob TIMEOUT 0 (log_call (TimerStop HELLO_TIMEOUT) w1)))
        as (w3 & E3 & _ & G3 & _).
      rewrite (bind_run _ _ _ _ _ E3) in H. inversion H; subst.
      rewrite G3 by discriminate. reflexivity.
    + inversion H.
  - intros r w2 u w3 r2 w4 _ _ _ Hbody. split_run Hbody.
    destruct (negb (a1 =? 0)); inversion Hbody; subst; [right|left];
      reflexivity.
  - left. reflexivity.
Qed.

(** The accepted branch of ID_ASSIGNMENT with a servo under another ID
    returns with [TIMEOUT] set. *)
Lemma accept_id_timeout (p : Z) (w w' : world) (u : unit) :
  p <> glob w SERVO_ID ->
  (set ID p ;;
   set CONFIGURED 1 ;;
   assignedID ;;
   id' <- get ID ;;
   s <- get SERVO_ID ;;
   when (negb (id' =? s)) (reid readChar)) w = Some (u, w') ->
  glob w' TIMEOUT = 1.
Proof.
  intros Hne H. apply accept_id_reid in H; [|exact Hne].
  destruct H as ((_ & _ & _ & HT & _) & _). exact HT.
Qed.

(** The status-return-level loops of [servoFinder], entered with a level
    other than the wanted one, end with [TIMEOUT] set. *)
Lemma level_listen_cases (l : Z * Z) (w : world) (l' : Z * Z) (w' : world) :
  level_listen readChar l w = Some (l', w') ->
  l' = l \/
  (l' = (SERVO_COMM_ATTEMPTS, STATUS_RET_LEVEL) /\ glob w' TIMEOUT = 1).
Proof.
  intros H. unfold level_listen in H.
  apply (spin_inv
           (fun l1 w1 =>
              l1 = l \/
              (l1 = (SERVO_COMM_ATTEMPTS, STATUS_RET_LEVEL) /\
               glob w1 TIMEOUT = 1))) in H.
  - apply H.
  - intros l1 w1 u w2 l2 w3 J Hc _ Hbody.
    destruct J as [->|(_ & HT)]; [|cbn in Hc; rewrite HT in Hc; discriminate].
    split_run Hbody.
    destruct (negb (a =? 0)); [|inversion Hbody; left; reflexivity].
    rewrite bind_get in Hbody.
    destruct (glob w0 COMMAND_ERROR =? 0);
      [|inversion Hbody; left; reflexivity].
    rewrite bind_get in Hbody.
    destruct (glob w0 COMMAND_PARAM =? STATUS_RET_LEVEL) eqn:Hp;
      autorewrite with run in Hbody; inversion Hbody; subst.
    + right. apply Z.eqb_eq in Hp. rewrite Hp. split; reflexivity.
    + left. reflexivity.
  - left. reflexivity.
Qed.

Lemma level_attempts_cases (srl : Z) (w : world) (l' : Z * Z) (w' : world) :
  level_attempts readChar srl w = Some (l', w') ->
  snd l' = srl \/ (snd l' = STATUS_RET_LEVEL /\ glob w' TIMEOUT = 1).
Proof.
  intros H. unfold level_attempts in H.
  apply (loop_inv
           (fun (l1 : Z * Z) w1 =>
              snd l1 = srl \/
              (l1 = (11, STATUS_RET_LEVEL) /\ glob w1 TIMEOUT = 1))) in H.
  - destruct H as [[H|(-> & HT)] _]; [left; exact H|right].
    split; [reflexivity|exact HT].
  - intros l1 w1 l2 w2 J Hc Hbody.
    destruct J as [Hs|(-> & _)]; [|discriminate].
    rewrite bind_get in Hbody. split_run Hbody. split_run Hbody.
    inversion Hbody; subst l2 w2.
    apply level_listen_cases in E0. destruct E0 as [->|(-> & HT)].
    + left. exact Hs.
    + right. split; [reflexivity|exact HT].
  - left. reflexivity.
Qed.

Lemma level_check_sets_timeout (srl : Z) (w : world) (srl' : Z) (w' : world) :
  srl <> STATUS_RET_LEVEL ->
  level_check readChar srl w = Some (srl', w') ->
  glob w' TIMEOUT = 1.
Proof.
  intros Hne H. unfold level_check in H.
  apply (loop_inv
           (fun l w1 =>
              l = srl \/ (l = STATUS_RET_LEVEL /\ glob w1 TIMEOUT = 1))) in H.
  - destruct H as [[->|(_ & HT)] Hc]; [|exact HT].
    apply negb_false_iff, Z.eqb_eq in Hc. contradiction.
  - intros l w1 l2 w2 J Hc Hbody.
    apply negb_true_iff, Z.eqb_neq in Hc.
    destruct J as [->|(-> & _)]; [|contradiction].
    split_run Hbody. inversion Hbody; subst l2 w2.
    apply level_attempts_cases in E. exact E.
  - left. reflexivity.
Qed.

Lemma servoFinder_sets_timeout (w w' : world) (u : unit) :
  servoFinder readChar w = Some (u, w') -> glob w' TIMEOUT = 1.
Proof.
  unfold servoFinder. intros H. split_run H. split_run H.
  apply level_check_sets_timeout in E0;
    [|unfold STATUS_RET_LEVEL, STATUS_RET_READ; discriminate].
  destruct (configToggle_WAIT w1) as (w3 & E3 & _ & G3 & _).
  rewrite E3 in H. inversion H; subst.
  rewrite G3 by discriminate. exact E0.
Qed.

(** C8, as the code has it.  [childResponse] returns with [TIMEOUT]
    cleared on every path, [childListen] does when it timed out, and so does
    every switch to a role other than Wait, the settlement wait of the
    response role included.  The servo listening loops leave through
    [TIMEOUT = 1]: the handler of an accepted ID_ASSIGNMENT that had to re-ID
    the servo, and [servoFinder], return with [TIMEOUT] set. *)
Theorem timeout_flag_on_return :
  (forall w c w',
      childResponse readChar w = Some (c, w') -> glob w' TIMEOUT = 0) /\
  (forall w w',
      childListen readChar w = Some (0, w') -> glob w' TIMEOUT = 0) /\
  (forall mode w u w',
      MY_RESPONSE <= mode <= INITIALIZE ->
      configToggle mode w = Some (u, w') -> glob w' TIMEOUT = 0) /\
  (forall w u w',
      glob w COMMAND_TYPE = ID_ASSIGNMENT ->
      glob w COMMAND_DESTINATION = glob w ID ->
      1 <= glob w COMMAND_PARAM <= 250 ->
      glob w COMMAND_PARAM <> glob w SERVO_ID ->
      takeAction readChar w = Some (u, w') -> glob w' TIMEOUT = 1) /\
  (forall w u w',
      servoFinder readChar w = Some (u, w') -> glob w' TIMEOUT = 1).
Proof.
  split; [exact childResponse_clears|].
  split; [exact childListen_timed_out_clears|].
  split; [intros mode w u w' Hm H; eapply configToggle_clears; eauto|].
  split; [|intros w u w' H; eapply servoFinder_sets_timeout, H].
  intros w u w' Hty Hdst Hp Hne. unfold takeAction.
  rewrite bind_get, Hty. change (ID_ASSIGNMENT =? HELLO_BYTE) with false.
  change (ID_ASSIGNMENT =? PING) with false.
  change (ID_ASSIGNMENT =? ID_ASSIGNMENT) with true. cbv iota.
  rewrite !bind_get, Hdst, Z.eqb_refl, bind_get.
  assert (Hin : (glob w COMMAND_PARAM >? MASTER_ID) &&
                (glob w COMMAND_PARAM <? DEFAULT_ID) = true).
  { apply andb_true_iff. rewrite Z.gtb_ltb. unfold MASTER_ID, DEFAULT_ID.
    split; apply Z.ltb_lt; lia. }
  rewrite Hin. intros H. eapply accept_id_timeout; eauto.
Qed.

(** C4, as the code has it.  [pingResponse], [assignedID] and
    [configCleared] put their complete response frame on both transmitters
    and return, in the Wait role, once both transmissions are complete.
    [sayHello] puts its frame on TX_014 only and waits for that transmitter
    only; so the hello of a fresh unconfigured module goes out on TX_014 and
    nothing goes out on TX_23. *)
Theorem responses_on_the_wires :
  (forall w u w', pingResponse w = Some (u, w') -> sent_on_both PING w w') /\
  (forall w u w',
      assignedID w = Some (u, w') -> sent_on_both ID_ASSIGN_OK w w') /\
  (forall w u w',
      configCleared w = Some (u, w') -> sent_on_both CONFIG_CLEARED w w') /\
  (forall w u w',
      sayHello w = Some (u, w') ->
      wire TX_014 (hal w') =
        wire TX_014 (hal w) ++ hello_frame (glob w ID) (glob w CHILD) /\
      wire TX_23 (hal w') = wire TX_23 (hal w) /\
      txc w' TX_014 = true /\ glob w' STATE = WAIT) /\
  (forall w u w',
      glob w COMMAND_TYPE = HELLO_BYTE ->
      glob w CONFIGURED = 0 ->
      takeAction readChar w = Some (u, w') ->
      wire TX_014 (hal w') =
        wire TX_014 (hal w) ++ hello_frame (glob w ID) (glob w CHILD) /\
      wire TX_23 (hal w') = wire TX_23 (hal w)).
Proof.
  split; [intros w u w'; apply respond_sent_on_both|].
  split; [intros w u w'; apply respond_sent_on_both|].
  split; [intros w u w'; apply respond_sent_on_both|].
  split.
  - intros w u w' H. destruct (sayHello_waits _ _ _ H) as [T S].
    apply sayHello_emits in H. destruct H as [W1 W2].
    repeat split; assumption.
  - intros w u w' Hty Hc. unfold takeAction.
    rewrite bind_get, Hty. change (HELLO_BYTE =? HELLO_BYTE) with true.
    cbv iota. rewrite !bind_get, Hc. change (0 =? 0) with true. cbv iota.
    apply sayHello_emits.
Qed.

End Claims.

(** ** The reader and the child wait under a peeking [cReadChar] *)

Lemma cGetChar_ready (d : rxdev) (b : Z) (rest : list Z) (w : world) :
  rx w d = b :: rest -> cGetChar d w = Some (b, set_rx d rest w).
Proof.
  intros H. unfold cGetChar, spin, bind. cbn [spin_fuel]. rewrite H.
  cbv beta iota. rewrite H. reflexivity.
Qed.

(** The Wait branch of [commandReady] when [cReadChar] peeks and a start
    byte and four more bytes are pending. *)
Lemma peeking_reader_run (w : world) (a b c d : Z) (rest : list Z) :
  glob w STATE = WAIT ->
  rx w WAIT_RECV = START_TRANSMIT :: a :: b :: c :: d :: rest ->
  exists w',
    commandReady peekChar w = Some (1, w') /\
    glob w' COMMAND_SOURCE = a /\ glob w' COMMAND_DESTINATION = b /\
    glob w' COMMAND_TYPE = c /\ glob w' COMMAND_PARAM = d /\
    rx w' WAIT_RECV = rest.
Proof.
  intros HS Hrx. unfold commandReady.
  rewrite bind_get, HS. change (WAIT =? WAIT) with true. cbv iota.
  unfold cReadChar at 1. unfold bind at 1. rewrite Hrx. cbn [peekChar hd].
  change (START_TRANSMIT =? START_TRANSMIT) with true. cbv iota.
  erewrite bind_run by (apply cGetChar_ready; cbn; reflexivity).
  change (START_TRANSMIT =? START_TRANSMIT) with true. cbv iota.
  erewrite bind_run by (apply cGetChar_ready; cbn; reflexivity).
  rewrite bind_set.
  erewrite bind_run by (apply cGetChar_ready; cbn; reflexivity).
  rewrite bind_set.
  erewrite bind_run by (apply cGetChar_ready; cbn; reflexivity).
  rewrite bind_set.
  erewrite bind_run by (apply cGetChar_ready; cbn; reflexivity).
  rewrite bind_set.
  eexists. split; [reflexivity|]. repeat split; reflexivity.
Qed.

Lemma irq_batch_idle (b : list event) (w : world) :
  (forall t, running t (hal w) = false) ->
  Forall is_irq b -> fold_left apply_event b w = w.
Proof.
  intros Hr Hb. induction Hb as [|e b He _ IH]; [reflexivity|].
  destruct e as [t| |]; try contradiction.
  cbn. rewrite Hr. exact IH.
Qed.

Section Idle.

(** Any receiver call that reads 0 from an idle receiver. *)
Variable readChar : list Z -> Z * list Z.
Hypothesis readChar_idle : readChar [] = (0, []).

Lemma commandReady_wait_idle (w : world) :
  glob w STATE = WAIT -> rx w WAIT_RECV = [] ->
  commandReady readChar w = Some (0, set_rx WAIT_RECV [] w).
Proof.
  intros HS Hrx. unfold commandReady.
  rewrite bind_get, HS. change (WAIT =? WAIT) with true. cbv iota.
  unfold cReadChar, bind. rewrite Hrx, readChar_idle. reflexivity.
Qed.

(** In the Wait role, with nothing arriving and no timer running, the wait
    for a child never ends, however often timers would fire. *)
Lemma child_wait_unbounded (n : nat) (w : world) :
  glob w STATE = WAIT -> glob w TIMEOUT = 0 -> rx w WAIT_RECV = [] ->
  (forall t, running t (hal w) = false) ->
  Forall (Forall is_irq) (future w) ->
  spin_fuel n
    (fun child_responded w =>
       (child_responded =? 0) && (glob w TIMEOUT =? 0))
    (fun child_responded =>
       c <- commandReady readChar ;;
       if negb (c =? 0) then ret 1 else ret child_responded)
    0 w = None.
Proof.
  revert w. induction n as [|n IH]; intros w HS HT Hrx Hr Hf; [reflexivity|].
  cbn [spin_fuel]. rewrite HT. cbn [Z.eqb andb].
  unfold bind at 1, pause.
  destruct (future w) as [|b rest] eqn:Ef; [reflexivity|].
  inversion Hf as [|b' rest' Hb Hrest]; subst b' rest'.
  rewrite irq_batch_idle by assumption.
  rewrite bind_bind.
  rewrite (bind_run _ _ _ _ _
             (commandReady_wait_idle (set_future rest w) HS Hrx)).
  cbn [Z.eqb negb]. rewrite bind_ret.
  apply IH; try assumption; reflexivity.
Qed.

(** What [takeAction] does with a PING or an ID_ASSIGNMENT for a module
    further down, main.c lines 541-545 and 608-612. *)
Lemma takeAction_downstream (w : world) :
  glob w COMMAND_TYPE = PING \/ glob w COMMAND_TYPE = ID_ASSIGNMENT ->
  glob w COMMAND_DESTINATION > glob w ID ->
  takeAction readChar w = (childResponse readChar ;; ret tt) w.
Proof.
  intros Hty Hdst. unfold takeAction. rewrite bind_get.
  assert (He : (glob w COMMAND_DESTINATION =? glob w ID) = false)
    by (apply Z.eqb_neq; lia).
  assert (Hgt : (glob w COMMAND_DESTINATION >? glob w ID) = true)
    by (rewrite Z.gtb_ltb; apply Z.ltb_lt; lia).
  destruct Hty as [Hty|Hty]; rewrite Hty.
  - change (PING =? HELLO_BYTE) with false. change (PING =? PING) with true.
    cbv iota. rewrite !bind_get, He, Hgt. reflexivity.
  - change (ID_ASSIGNMENT =? HELLO_BYTE) with false.
    change (ID_ASSIGNMENT =? PING) with false.
    change (ID_ASSIGNMENT =? ID_ASSIGNMENT) with true.
    cbv iota. rewrite !bind_get, He, Hgt. reflexivity.
Qed.

(** C9, as the code has it.  A PING or an ID_ASSIGNMENT for a module
    further down that reaches a module with no child makes [childResponse]
    wait with no timer armed: no role is entered, the module stays in Wait
    where no timer runs, and no number of timer interrupts ends the wait
    (only a frame from the master does). *)
Theorem stray_ping_waits_without_timer (w : world) :
  glob w COMMAND_TYPE = PING \/ glob w COMMAND_TYPE = ID_ASSIGNMENT ->
  glob w COMMAND_DESTINATION > glob w ID ->
  glob w CHILD = 0 ->
  glob w STATE = WAIT -> glob w TIMEOUT = 0 -> rx w WAIT_RECV = [] ->
  (forall t, running t (hal w) = false) ->
  Forall (Forall is_irq) (future w) ->
  child_port_select w = Some (tt, w) /\
  takeAction readChar w = None.
Proof.
  intros Hty Hdst Hch HS HT Hrx Hr Hf.
  assert (Hsel : child_port_select w = Some (tt, w)).
  { unfold child_port_select. rewrite bind_get, Hch. reflexivity. }
  split; [exact Hsel|].
  rewrite takeAction_downstream by assumption.
  unfold bind at 1. unfold childResponse.
  rewrite (bind_run _ _ _ _ _ Hsel). unfold bind at 1.
  unfold child_wait, spin.
  rewrite child_wait_unbounded by assumption. reflexivity.
Qed.

End Idle.

(** ** Runs on the example boards *)

Lemma run_of_answer {A : Type} (m : M A) (w : world) (a : A) :
  answer m w = Some a -> m w = Some (a, run_of m w).
Proof.
  unfold answer, run_of. destruct (m w) as [[a' w']|]; [|discriminate].
  intros H. inversion H; subst. reflexivity.
Qed.

Lemma assign_run :
  takeAction peekChar assign_board
  = Some (tt, run_of (takeAction peekChar) assign_board).
Proof. apply run_of_answer. vm_compute. reflexivity. Qed.

Lemma id_assign_accepted_witness :
  exists w',
    takeAction peekChar assign_board = Some (tt, w') /\
    glob w' ID = 5 /\
    glob w' CONFIGURED = 1 /\
    wire TX_23 (hal w') = [] ++ [248; 248; 5; 0; 202; 85; 85] /\
    exists servo_packets,
      wire TX_014 (hal w') = [] ++ [248; 248; 5; 0; 202; 85; 85] ++ servo_packets.
Proof.
  exists (run_of (takeAction peekChar) assign_board).
  split; [exact assign_run|].
  apply (id_assign_accepted peekChar assign_board _ tt);
    [reflexivity | reflexivity | cbn; lia | exact assign_run].
Defined.

Lemma id_assign_out_of_range_ignored_witness :
  glob bad_assign_board COMMAND_PARAM = 0 /\
  takeAction peekChar bad_assign_board = Some (tt, bad_assign_board).
Proof.
  split; [reflexivity|].
  apply (id_assign_out_of_range_ignored peekChar bad_assign_board);
    [reflexivity | reflexivity | cbn; lia].
Defined.

Example own_clear_acknowledged :
  let w' := run_of (takeAction peekChar) own_clear_board in
  takeAction peekChar own_clear_board = Some (tt, w') /\
  wire TX_014 (hal w') = [248; 248; 5; 0; 205; 85; 85] /\
  wire TX_23 (hal w') = [248; 248; 5; 0; 205; 85; 85] /\
  glob w' ID = 251 /\ glob w' CONFIGURED = 0 /\ glob w' CHILD = 0.
Proof.
  split; [apply run_of_answer; vm_compute; reflexivity|].
  repeat (split; [vm_compute; reflexivity|]). vm_compute. reflexivity.
Qed.

Lemma write_run :
  servoInstruction 1 WRITE_LENGTH WRITE_SERVO ID_ADDRESS 3 write_board
  = Some (tt, run_of (servoInstruction 1 WRITE_LENGTH WRITE_SERVO ID_ADDRESS 3)
                     write_board).
Proof. apply run_of_answer. vm_compute. reflexivity. Qed.

Lemma servo_checksum_law_witness :
  exists w',
    servoInstruction 1 WRITE_LENGTH WRITE_SERVO ID_ADDRESS 3 write_board
      = Some (tt, w') /\
    exists packet c,
      wire TX_014 (hal w') = [] ++ packet ++ [c] /\
      c = 241 /\ 0 <= c < 256 /\ (1 + 4 + 3 + 3 + 3 + c) mod 256 = 255.
Proof.
  exists (run_of (servoInstruction 1 WRITE_LENGTH WRITE_SERVO ID_ADDRESS 3)
                 write_board).
  split; [exact write_run|].
  exact (servo_checksum_law 1 WRITE_LENGTH WRITE_SERVO ID_ADDRESS 3
                            write_board _ tt write_run).
Defined.

(** C4 fails as stated: the fresh module answers the master's hello on
    TX_014 only; nothing is put on TX_23, and the handler returns although
    TX_23 never reports a complete transmission. *)
Lemma hello_not_on_TX_23 :
  exists w',
    takeAction peekChar fresh_board = Some (tt, w') /\
    wire TX_014 (hal w') = [248; 248; 251; 0; 200; 0; 85; 85] /\
    wire TX_23 (hal w') = [] /\
    txc w' TX_23 = false.
Proof.
  exists (run_of (takeAction peekChar) fresh_board).
  split; [apply run_of_answer; vm_compute; reflexivity|].
  split; [vm_compute; reflexivity|].
  split; vm_compute; reflexivity.
Qed.

(** C3 fails as stated: with [cReadChar] a peek, the peek and the first
    [cGetChar] see the same byte, so on [F8 01 02 03 04], one start byte
    followed by four bytes, the Wait reader does not discard the start byte
    and report no frame: it reports a frame with source 1, destination 2,
    type 3 and parameter 4. *)
Lemma lone_start_byte_read_as_frame :
  rx one_start_board WAIT_RECV = [248; 1; 2; 3; 4] /\
  (exists w',
      commandReady peekChar one_start_board = Some (1, w') /\
      glob w' COMMAND_SOURCE = 1 /\ glob w' COMMAND_DESTINATION = 2 /\
      glob w' COMMAND_TYPE = 3 /\ glob w' COMMAND_PARAM = 4 /\
      rx w' WAIT_RECV = []) /\
  ~ (exists w', commandReady peekChar one_start_board = Some (0, w')).
Proof.
  split; [reflexivity|].
  destruct (peeking_reader_run one_start_board 1 2 3 4 [] eq_refl eq_refl)
    as (w' & H & R).
  split; [exists w'; split; assumption|].
  intros (v & Hv). rewrite H in Hv. discriminate.
Qed.

(** The master's hello as it is on the wire, [F8 F8 00 FE C8 00 55 55]: the
    second start byte is stored as the source and the other fields are off
    by one. *)
Example framed_hello_misread :
  exists w',
    commandReady peekChar
      (board [(STATE, WAIT)] [248; 248; 0; 254; 200; 0; 85; 85] [])
      = Some (1, w') /\
    glob w' COMMAND_SOURCE = 248 /\ glob w' COMMAND_DESTINATION = 0 /\
    glob w' COMMAND_TYPE = 254 /\ glob w' COMMAND_PARAM = 200 /\
    rx w' WAIT_RECV = [0; 85; 85].
Proof.
  apply (peeking_reader_run _ 248 0 254 200 [0; 85; 85]); reflexivity.
Qed.

Lemma assign_reid_run :
  takeAction peekChar assign_reid_board
  = Some (tt, run_of (takeAction peekChar) assign_reid_board).
Proof. apply run_of_answer. vm_compute. reflexivity. Qed.

Lemma reid_procedure_witness :
  exists w',
    takeAction peekChar assign_reid_board = Some (tt, w') /\
    (exists (n k : nat),
        (1 <= k <= 10)%nat /\
        wire TX_014 (hal w') =
          [] ++ [248; 248; 3; 0; 202; 85; 85] ++ failed_rounds 1 3 n ++
          [255; 255; 1; 4; 3; 3; 3; 241] ++ pings k) /\
    glob w' SERVO_ID = 3 /\ glob w' ID = 3 /\ glob w' STATE = WAIT /\
    glob w' COMMAND_SOURCE = 3 /\ glob w' COMMAND_ERROR = 0.
Proof.
  exists (run_of (takeAction peekChar) assign_reid_board).
  split; [exact assign_reid_run|].
  apply (proj1 (reid_procedure peekChar assign_reid_board
                               eq_refl eq_refl ltac:(cbn; lia))
               tt _ assign_reid_run).
  discriminate.
Defined.

(** The bytes that run puts on TX_014: the response, the WRITE, one PING. *)
Example reid_scenario_wire :
  wire TX_014 (hal (run_of (takeAction peekChar) assign_reid_board)) =
  [248; 248; 3; 0; 202; 85; 85;
   255; 255; 1; 4; 3; 3; 3; 241;
   255; 255; 254; 2; 1; 254].
Proof. vm_compute. reflexivity. Qed.

Example reid_second_round :
  let w' := run_of (takeAction peekChar)
                   (set_future (response_script ++ silent_round_script)
                               assign_reid_board) in
  glob w' SERVO_ID = 3 /\
  wire TX_014 (hal w') =
    [248; 248; 3; 0; 202; 85; 85] ++ failed_rounds 1 3 1 ++
    write_packet 1 3 ++ pings 1.
Proof. split; vm_compute; reflexivity. Qed.

Lemma boot_run : main_init peekChar boot_board = Some (tt, booted_board).
Proof. unfold booted_board. apply run_of_answer. vm_compute. reflexivity. Qed.

Lemma configured_run :
  main_pass peekChar booted_board = Some (tt, configured_board).
Proof.
  unfold configured_board. apply run_of_answer. vm_compute. reflexivity.
Qed.

Lemma configured_board_reachable : reachable peekChar configured_board.
Proof.
  eapply reach_pass; [|exact configured_run].
  eapply reach_boot. exact boot_run.
Qed.

Lemma configured_implies_assigned_id_witness :
  reachable peekChar configured_board /\
  glob configured_board CONFIGURED = 1 /\
  glob configured_board ID = 5 /\
  configured_id_ok configured_board /\
  forall w', operation peekChar configured_board w' -> configured_id_ok w'.
Proof.
  split; [exact configured_board_reachable|].
  split; [vm_compute; reflexivity|].
  split; [vm_compute; reflexivity|].
  exact (configured_implies_assigned_id peekChar configured_board
                                        configured_board_reachable).
Defined.

Lemma stray_ping_waits_without_timer_witness :
  glob stray_ping_board ID = 5 /\
  glob stray_ping_board COMMAND_DESTINATION = 7 /\
  child_port_select stray_ping_board = Some (tt, stray_ping_board) /\
  takeAction peekChar stray_ping_board = None.
Proof.
  split; [vm_compute; reflexivity|]. split; [vm_compute; reflexivity|].
  apply (stray_ping_waits_without_timer peekChar eq_refl stray_ping_board).
  - left. vm_compute. reflexivity.
  - vm_compute. reflexivity.
  - vm_compute. reflexivity.
  - vm_compute. reflexivity.
  - vm_compute. reflexivity.
  - vm_compute. reflexivity.
  - intros t. destruct t; vm_compute; reflexivity.
  - vm_compute. repeat constructor.
Defined.

(** With a child on port A the same PING is bounded: the module listens on
    the child's port with CHILD_1_TIMEOUT running and returns to the Wait
    role when that timer expires. *)
Example ping_downstream_with_child :
  let w := set_future [[Irq CHILD_1_TIMEOUT]]
                      (set_glob CHILD PORT_A stray_ping_board) in
  let w' := run_of (takeAction peekChar) w in
  takeAction peekChar w = Some (tt, w') /\
  glob w' STATE = WAIT /\ glob w' TIMEOUT = 0 /\
  wire TX_014 (hal w') = wire TX_014 (hal w).
Proof.
  split; [apply run_of_answer; vm_compute; reflexivity|].
  split; [vm_compute; reflexivity|].
  split; vm_compute; reflexivity.
Qed.

(** C8 fails as stated: the handler that re-IDs the servo runs polling loops
    on [TIMEOUT] and returns with it set; and [childListen], when it hears a
    child, returns through the [return 1] inside its loop with whatever the
    flag is, here 1. *)
Lemma timeout_left_set_on_return :
  (exists w',
      takeAction peekChar assign_reid_board = Some (tt, w') /\
      glob w' SERVO_ID = 3 /\ glob w' TIMEOUT = 1) /\
  (exists w',
      childListen peekChar hello_listen_board = Some (1, w') /\
      glob w' CHILD = PORT_A /\ glob w' TIMEOUT = 1).
Proof.
  split.
  - exists (run_of (takeAction peekChar) assign_reid_board).
    split; [exact assign_reid_run|].
    split; vm_compute; reflexivity.
  - exists (run_of (childListen peekChar) hello_listen_board).
    split; [apply run_of_answer; vm_compute; reflexivity|].
    split; vm_compute; reflexivity.
Qed.

(** * Further properties of the firmware *)

(** ** Composing what commands keep *)

(** [keep_with rf tr leaf] splits a goal [keeps R m] along the structure of
    [m]; [rf] and [tr] are the proofs that [R] is reflexive and transitive,
    [leaf] proves the goal for the commands [m] is made of. *)
Ltac keep_with rf tr leaf :=
  lazymatch goal with
  | |- keeps _ (bind _ _) =>
      apply keeps_bind;
      [exact tr | keep_with rf tr leaf | intro; keep_with rf tr leaf]
  | |- keeps _ (ret _) => apply keeps_ret; exact rf
  | |- keeps _ (get _) => apply keeps_get; exact rf
  | |- keeps _ (when _ _) => apply keeps_when; [exact rf | keep_with rf tr leaf]
  | |- keeps _ (if ?b then _ else _) => destruct b eqn:?; keep_with rf tr leaf
  | |- keeps _ (match ?r with Some _ => _ | None => _ end) =>
      destruct r; keep_with rf tr leaf
  | |- keeps _ (spin _ _ _) =>
      apply keeps_spin;
      [exact rf | exact tr | keep_with rf tr leaf | intro; keep_with rf tr leaf]
  | |- keeps _ (loop _ _ _) =>
      apply keeps_loop; [exact rf | exact tr | intro; keep_with rf tr leaf]
  | |- keeps _ _ => leaf
  end.

(** ** Commands that only read *)

Lemma reads_only_refl p w : reads_only p w w.
Proof. repeat split; reflexivity. Qed.

Lemma reads_only_trans p a b c :
  reads_only p a b -> reads_only p b c -> reads_only p a c.
Proof.
  intros (H1 & R1 & G1) (H2 & R2 & G2). split; [|split].
  - congruence.
  - congruence.
  - intros v Hv. rewrite (G2 v Hv). apply G1, Hv.
Qed.

Lemma reads_only_weaken (p p' : var -> bool) (w w' : world) :
  (forall v, p' v = true -> p v = true) ->
  reads_only p w w' -> reads_only p' w w'.
Proof.
  intros Hpp (H1 & R1 & G1). split; [exact H1|]. split; [exact R1|].
  intros v Hv. apply G1, Hpp, Hv.
Qed.

Section Reads.

Variable p : var -> bool.

Lemma reads_set v x : p v = false -> keeps (reads_only p) (set v x).
Proof.
  intros Hv w a w' H. inversion H; subst. split; [|split]; try reflexivity.
  intros v' Hv'. simpl. destruct (var_eq_dec v' v); [congruence|reflexivity].
Qed.

Lemma reads_events (b : list event) :
  p TIMEOUT = false -> forall w, reads_only p w (fold_left apply_event b w).
Proof.
  intros HT. induction b as [|e b IH]; intros w; simpl.
  - apply reads_only_refl.
  - eapply reads_only_trans; [|apply IH].
    destruct e as [t|d x|d]; simpl; try (repeat split; reflexivity).
    destruct (running t (hal w)); [|apply reads_only_refl].
    split; [|split]; try reflexivity.
    intros v Hv. simpl.
    destruct (var_eq_dec v TIMEOUT); [congruence|reflexivity].
Qed.

Lemma reads_pause : p TIMEOUT = false -> keeps (reads_only p) pause.
Proof.
  intros HT w a w' H. unfold pause in H.
  destruct (future w) as [|b rest]; [discriminate|]. inversion H; subst.
  eapply reads_only_trans; [|apply reads_events, HT].
  repeat split; reflexivity.
Qed.

Lemma reads_cReadChar (readChar : list Z -> Z * list Z) d :
  keeps (reads_only p) (cReadChar readChar d).
Proof.
  intros w a w' H. unfold cReadChar in H.
  destruct (readChar (rx w d)) as [b rest]. inversion H; subst.
  repeat split; reflexivity.
Qed.

Lemma reads_cGetChar d : p TIMEOUT = false -> keeps (reads_only p) (cGetChar d).
Proof.
  intros HT. unfold cGetChar.
  apply keeps_bind; [apply reads_only_trans| |].
  - apply keeps_spin;
      [apply reads_only_refl | apply reads_only_trans | apply reads_pause, HT |].
    intros _. apply keeps_ret, reads_only_refl.
  - intros _ w a w' H. destruct (rx w d) as [|b rest]; [discriminate|].
    inversion H; subst. repeat split; reflexivity.
Qed.

End Reads.

Ltac reads_leaf :=
  idtac;
  lazymatch goal with
  | |- keeps _ (set _ _) => apply reads_set; reflexivity
  | |- keeps _ pause => apply reads_pause; reflexivity
  | |- keeps _ (cReadChar _ _) => apply reads_cReadChar
  | |- keeps _ (cGetChar _) => apply reads_cGetChar; reflexivity
  end.

Ltac reads p :=
  keep_with (reads_only_refl p) (reads_only_trans p) ltac:(reads_leaf).

(** What the run [H] only reads, for the selection [p]. *)
Ltac reads_of H p :=
  match type of H with
  | ?m ?w = Some (_, _) =>
      let K := fresh "K" in
      assert (K : keeps (reads_only p) m) by (reads p);
      apply K in H; clear K
  end.

Section Handler.

Variable readChar : list Z -> Z * list Z.

Lemma commandReady_identity : keeps (reads_only identity) (commandReady readChar).
Proof. unfold commandReady. reads identity. Qed.

(** Run the reader's code in [H] down to each of its returns. *)
Ltac reader_paths H :=
  repeat first
    [ match type of H with
      | bind (cReadChar _ _) _ _ = Some _ =>
          let E := fresh "E" in
          let b := fresh "b" in
          let v := fresh "v" in
          apply bind_some in H; destruct H as (b & v & E & H);
          apply (reads_cReadChar but_timeout) in E
      | bind (cGetChar _) _ _ = Some _ =>
          let E := fresh "E" in
          let b := fresh "b" in
          let v := fresh "v" in
          apply bind_some in H; destruct H as (b & v & E & H);
          apply (reads_cGetChar but_timeout) in E; [|reflexivity]
      | bind (set _ _) _ _ = Some _ => rewrite bind_set in H
      | (if ?b then _ else _) _ = Some _ => destruct b
      | ret _ _ = Some _ => inversion H; subst; clear H
      end ].

Ltac reads_chain :=
  repeat first
    [ eassumption
    | apply reads_only_refl
    | eapply reads_only_trans; [eassumption|] ].

(** When the reader reports no frame it has written no global. *)
Lemma commandReady_cases (w w' : world) (c : Z) :
  commandReady readChar w = Some (c, w') ->
  (c = 0 /\ reads_only but_timeout w w') \/ c = 1.
Proof.
  intros H. unfold commandReady in H. rewrite bind_get in H.
  reader_paths H;
    first [ right; reflexivity | left; split; [reflexivity | reads_chain] ].
Qed.

Lemma commandReady_child (w w' : world) (c : Z) :
  glob w STATE <> HELLO_MODE ->
  commandReady readChar w = Some (c, w') ->
  reads_only identity_and_child w w'.
Proof.
  intros Hs H. unfold commandReady in H. rewrite bind_get in H.
  destruct (glob w STATE =? WAIT); [reads_of H identity_and_child; exact H|].
  destruct (glob w STATE =? HELLO_MODE) eqn:Hh;
    [apply Z.eqb_eq in Hh; exfalso; exact (Hs Hh)|].
  reads_of H identity_and_child. exact H.
Qed.


(** ** Frames the handler has nothing to do for *)

(** X1.  A frame of a type the handler does not know, and a PING or an
    ID_ASSIGNMENT for a module nearer the master ([dst < ID]), is ignored:
    [takeAction] returns at once and leaves the whole board as it was. *)
Theorem foreign_frame_ignored (w : world) :
  (glob w COMMAND_TYPE <> HELLO_BYTE /\ glob w COMMAND_TYPE <> PING /\
   glob w COMMAND_TYPE <> ID_ASSIGNMENT /\
   glob w COMMAND_TYPE <> CLEAR_CONFIG) \/
  ((glob w COMMAND_TYPE = PING \/ glob w COMMAND_TYPE = ID_ASSIGNMENT) /\
   glob w COMMAND_DESTINATION < glob w ID) ->
  takeAction readChar w = Some (tt, w).
Proof.
  intros H. unfold takeAction. rewrite bind_get.
  destruct H as [(H1 & H2 & H3 & H4)|(Hty & Hlt)].
  - apply Z.eqb_neq in H1, H2, H3, H4. rewrite H1, H2, H3, H4. reflexivity.
  - assert (He : (glob w COMMAND_DESTINATION =? glob w ID) = false)
      by (apply Z.eqb_neq; lia).
    assert (Hg : (glob w COMMAND_DESTINATION >? glob w ID) = false)
      by (rewrite Z.gtb_ltb; apply Z.ltb_ge; lia).
    destruct Hty as [Hty|Hty]; rewrite Hty.
    + change (PING =? HELLO_BYTE) with false. change (PING =? PING) with true.
      cbv iota. rewrite !bind_get, He, Hg. reflexivity.
    + change (ID_ASSIGNMENT =? HELLO_BYTE) with false.
      change (ID_ASSIGNMENT =? PING) with false.
      change (ID_ASSIGNMENT =? ID_ASSIGNMENT) with true.
      cbv iota. rewrite !bind_get, He, Hg. reflexivity.
Qed.

(** X2.  A CLEAR_CONFIG for a module further from the master ([dst > ID],
    not the broadcast) is not acted on: the module returns at once with
    every global as it was and with no API call made, but its LED is
    switched off, bit 0 of PRT2DR being set, also when it stays
    configured. *)
Theorem clear_further_down_led_off (w : world) :
  glob w COMMAND_TYPE = CLEAR_CONFIG ->
  glob w COMMAND_DESTINATION > glob w ID ->
  glob w COMMAND_DESTINATION <> BROADCAST ->
  exists w',
    takeAction readChar w = Some (tt, w') /\
    glob w' = glob w /\ hal w' = hal w /\
    rx w' = rx w /\ future w' = future w /\
    Z.testbit (reg w' PRT2DR) 0 = true /\
    (forall r, r <> PRT2DR -> reg w' r = reg w r).
Proof.
  intros Hty Hgt Hnb.
  exists (set_reg PRT2DR (Z.lor (reg w PRT2DR) 1) w).
  split.
  - unfold takeAction. rewrite bind_get, Hty.
    change (CLEAR_CONFIG =? HELLO_BYTE) with false.
    change (CLEAR_CONFIG =? PING) with false.
    change (CLEAR_CONFIG =? ID_ASSIGNMENT) with false.
    change (CLEAR_CONFIG =? CLEAR_CONFIG) with true. cbv iota.
    rewrite !bind_get.
    assert (He : (glob w COMMAND_DESTINATION =? glob w ID) = false)
      by (apply Z.eqb_neq; lia).
    assert (Hl : (glob w COMMAND_DESTINATION <=? glob w ID) = false)
      by (apply Z.leb_gt; lia).
    assert (Hb : (glob w COMMAND_DESTINATION =? BROADCAST) = false)
      by (apply Z.eqb_neq; exact Hnb).
    rewrite He. unfold when at 1. rewrite bind_ret, !bind_get, Hl, Hb.
    reflexivity.
  - repeat split; try reflexivity.
    + cbn [reg set_reg].
      destruct (port_eq_dec PRT2DR PRT2DR) as [_|Hn]; [|exfalso; exact (Hn eq_refl)].
      rewrite Z.lor_spec. apply orb_true_r.
    + intros r Hr. cbn [reg set_reg].
      destruct (port_eq_dec r PRT2DR) as [He|_]; [exfalso; exact (Hr He)|].
      reflexivity.
Qed.

(** X3.  A PING is answered by the module it is addressed to and by no
    other: when the destination is [ID] the ping frame goes out on both
    transmitters and the module is back in the Wait role; when it is not,
    nothing is put on either transmitter.  In both cases [ID], [CONFIGURED]
    and [SERVO_ID] are as before. *)
Theorem ping_answered_by_addressee (w w' : world) (u : unit) :
  glob w COMMAND_TYPE = PING ->
  takeAction readChar w = Some (u, w') ->
  (glob w COMMAND_DESTINATION = glob w ID -> sent_on_both PING w w') /\
  (glob w COMMAND_DESTINATION <> glob w ID -> same_wires w w') /\
  glob w' ID = glob w ID /\ glob w' CONFIGURED = glob w CONFIGURED /\
  glob w' SERVO_ID = glob w SERVO_ID.
Proof.
  intros Hty H.
  assert (Hs : stable ids no_tx w w').
  { unfold takeAction in H. rewrite bind_get, Hty in H.
    change (PING =? HELLO_BYTE) with false in H.
    change (PING =? PING) with true in H. cbv iota in H.
    frame_of H ids no_tx. exact H. }
  unfold takeAction in H. rewrite bind_get, Hty in H.
  change (PING =? HELLO_BYTE) with false in H.
  change (PING =? PING) with true in H. cbv iota in H. rewrite !bind_get in H.
  split; [|split].
  - intros Hd. rewrite Hd, Z.eqb_refl in H.
    apply respond_sent_on_both in H. exact H.
  - intros Hd. apply Z.eqb_neq in Hd. rewrite Hd in H.
    frame_of H ids all_tx. destruct H as (_ & Hw & _).
    intros d. apply Hw. reflexivity.
  - destruct Hs as (Hg & _). repeat split; apply Hg; reflexivity.
Qed.

(** ** Listening to a child *)

Lemma reads_only_stable (p p' : var -> bool) (q : txdev -> bool) (w w' : world) :
  (forall v, p' v = true -> p v = true) ->
  reads_only p w w' -> stable p' q w w'.
Proof.
  intros Hpp (Hh & _ & Hg). split; [|split].
  - intros v Hv. apply Hg, Hpp, Hv.
  - intros d _. rewrite Hh. reflexivity.
  - exists []. rewrite Hh. reflexivity.
Qed.

Lemma standing_identity_and_child (v : var) :
  standing v = true -> identity_and_child v = true.
Proof. destruct v; simpl; congruence. Qed.

Lemma child_wait_reads (w w' : world) (r r' : Z) :
  glob w STATE <> HELLO_MODE -> r = 0 \/ r = 1 ->
  child_wait readChar r w = Some (r', w') ->
  (r' = 0 \/ r' = 1) /\ reads_only identity_and_child w w'.
Proof.
  intros Hs Hr H. unfold child_wait in H.
  apply (spin_inv
           (fun l w1 =>
              (l = 0 \/ l = 1) /\ reads_only identity_and_child w w1)) in H.
  - apply H.
  - intros l w1 u w2 l2 w3 (Hl & R1) _ Hp Hb.
    apply (reads_pause identity_and_child) in Hp; [|reflexivity].
    assert (R2 : reads_only identity_and_child w w2)
      by (eapply reads_only_trans; eauto).
    split_run Hb.
    apply commandReady_child in E.
    + split.
      * destruct (negb (a =? 0)); inversion Hb; subst; [right; reflexivity|exact Hl].
      * destruct (negb (a =? 0)); inversion Hb; subst;
          eapply reads_only_trans; eauto.
    + destruct R2 as (_ & _ & G). rewrite (G STATE) by reflexivity. exact Hs.
  - split; [exact Hr|apply reads_only_refl].
Qed.

Lemma child_port_select_state (w w' : world) (u : unit) :
  glob w STATE <> HELLO_MODE ->
  child_port_select w = Some (u, w') ->
  glob w' STATE <> HELLO_MODE /\ stable standing all_tx w w'.
Proof.
  intros Hs H. split.
  - unfold child_port_select in H. rewrite bind_get in H.
    repeat match type of H with
           | (if ?b then _ else _) _ = Some _ => destruct b
           end;
      try (apply configToggle_clears in H;
           [destruct H as [_ H]; rewrite H; discriminate
           |unfold MY_RESPONSE, INITIALIZE; cbv; split; discriminate]).
    inversion H; subst. exact Hs.
  - unfold child_port_select in H. frame_of H standing all_tx. exact H.
Qed.

(** [childResponse], entered outside the hello role, changes nothing of the
    module's standing and transmits nothing. *)
Lemma childResponse_forward (w w' : world) (c : Z) :
  glob w STATE <> HELLO_MODE ->
  childResponse readChar w = Some (c, w') ->
  (c = 0 \/ c = 1) /\ stable standing all_tx w w' /\
  glob w' STATE = WAIT /\ glob w' TIMEOUT = 0.
Proof.
  intros Hs H.
  assert (HT : glob w' TIMEOUT = 0) by (eapply childResponse_clears, H).
  unfold childResponse in H. split_run H. split_run H. split_run H.
  apply child_port_select_state in E; [|exact Hs]. destruct E as [Hs0 S0].
  apply child_wait_reads in E0; [|exact Hs0|left; reflexivity].
  destruct E0 as [Hc R1].
  apply (reads_only_stable _ standing all_tx) in R1;
    [|exact standing_identity_and_child].
  unfold child_timer_stop in E1. frame_of E1 standing all_tx.
  rewrite bind_set in H.
  destruct (configToggle_WAIT (set_glob TIMEOUT 0 w2))
    as (w3 & E3 & S3 & _).
  assert (K : stable standing all_tx (set_glob TIMEOUT 0 w2) w3).
  { eapply (stable_configToggle standing all_tx); try reflexivity. exact E3. }
  rewrite (bind_run _ _ _ _ _ E3) in H. inversion H; subst c w3.
  split; [exact Hc|]. split; [|split; assumption].
  eapply stable_trans; [exact S0|].
  eapply stable_trans; [exact R1|].
  eapply stable_trans; [exact E1|].
  eapply stable_trans; [|exact K].
  split; [|split]; [|reflexivity|exists []; reflexivity].
  intros v Hv. cbn. destruct (var_eq_dec v TIMEOUT); [subst; discriminate|].
  reflexivity.
Qed.

(** X5.  A frame that is for a module further from the master is not
    answered: for a HELLO that reaches a configured module with a child, and
    for a PING or an ID_ASSIGNMENT with [dst > ID], the handler puts nothing
    on either transmitter, leaves [ID], [CONFIGURED], [SERVO_ID] and [CHILD]
    as they were, and returns in the Wait role with [TIMEOUT] cleared. *)
Theorem forwarding_is_silent (w w' : world) (u : unit) :
  glob w STATE = WAIT ->
  (glob w COMMAND_TYPE = HELLO_BYTE /\ glob w CONFIGURED <> 0 /\
   glob w CHILD <> 0) \/
  ((glob w COMMAND_TYPE = PING \/ glob w COMMAND_TYPE = ID_ASSIGNMENT) /\
   glob w COMMAND_DESTINATION > glob w ID) ->
  takeAction readChar w = Some (u, w') ->
  same_wires w w' /\
  glob w' ID = glob w ID /\ glob w' CONFIGURED = glob w CONFIGURED /\
  glob w' SERVO_ID = glob w SERVO_ID /\ glob w' CHILD = glob w CHILD /\
  glob w' STATE = WAIT /\ glob w' TIMEOUT = 0.
Proof.
  intros Hs Hcase H.
  assert (Hrun : exists c, childResponse readChar w = Some (c, w')).
  { destruct Hcase as [(Hty & Hc & Hch)|(Hty & Hgt)].
    - unfold takeAction in H. rewrite bind_get, Hty in H.
      change (HELLO_BYTE =? HELLO_BYTE) with true in H. cbv iota in H.
      rewrite !bind_get in H.
      apply Z.eqb_neq in Hc, Hch. rewrite Hc, Hch in H. cbn [negb] in H.
      split_run H. inversion H; subst. exists a. exact E.
    - rewrite takeAction_downstream in H by assumption.
      split_run H. inversion H; subst. exists a. exact E. }
  destruct Hrun as (c & Hrun).
  apply childResponse_forward in Hrun;
    [|rewrite Hs; unfold WAIT, HELLO_MODE; discriminate].
  destruct Hrun as (_ & (Hg & Hw & _) & HS & HT).
  split; [intros d; apply Hw; reflexivity|].
  repeat split; try assumption; apply Hg; reflexivity.
Qed.

(** ** Listening for a new child *)

(** In the hello role a frame is reported with the port letter of the
    receiver that heard it in [CHILD]. *)
Lemma commandReady_hello_port (w w' : world) :
  glob w STATE = HELLO_MODE ->
  commandReady readChar w = Some (1, w') -> is_port (glob w' CHILD).
Proof.
  intros Hs H. unfold commandReady in H. rewrite bind_get, Hs in H.
  change (HELLO_MODE =? WAIT) with false in H.
  change (HELLO_MODE =? HELLO_MODE) with true in H. cbv iota in H.
  reader_paths H; unfold is_port; cbn; auto.
Qed.

Lemma childListen_cases (w w' : world) (r : Z) :
  childListen readChar w = Some (r, w') ->
  stable ids all_tx w w' /\
  ((r = 0 /\ glob w' CHILD = glob w CHILD /\ glob w' STATE = WAIT /\
    glob w' TIMEOUT = 0) \/
   (r = 1 /\ is_port (glob w' CHILD) /\ glob w' STATE = HELLO_MODE)).
Proof.
  intros H.
  assert (Hst : stable ids all_tx w w')
    by (eapply (stable_childListen readChar ids all_tx); try reflexivity;
        exact H).
  split; [exact Hst|].
  unfold childListen in H. split_run H. split_run H.
  assert (S0 : glob w0 STATE = HELLO_MODE).
  { apply configToggle_clears in E; [apply E|].
    unfold MY_RESPONSE, HELLO_MODE, INITIALIZE. lia. }
  apply (stable_configToggle standing all_tx) in E; try reflexivity.
  destruct E as (G0 & _).
  apply (spin_inv
           (fun r w2 =>
              glob w2 STATE = HELLO_MODE /\
              match r with
              | None => glob w2 CHILD = glob w0 CHILD
              | Some v => v = 1 /\ is_port (glob w2 CHILD)
              end)) in E0.
  - destruct E0 as [[S1 J] _]. destruct a0 as [v|].
    + destruct J as [-> P]. inversion H; subst. right.
      repeat split; assumption.
    + autorewrite with run in H.
      destruct (configToggle_WAIT
                  (set_glob TIMEOUT 0 (log_call (TimerStop HELLO_TIMEOUT) w1)))
        as (w3 & E3 & S3 & G3 & _).
      rewrite (bind_run _ _ _ _ _ E3) in H. inversion H; subst. left.
      split; [reflexivity|]. split; [|split; [exact S3|]].
      * rewrite G3 by discriminate. cbn. rewrite J. apply G0. reflexivity.
      * rewrite G3 by discriminate. reflexivity.
  - intros l w2 u w3 l2 w4 (S2 & J) Hc Hp Hb.
    destruct l as [v|]; [discriminate|].
    apply (reads_pause identity_and_child) in Hp; [|reflexivity].
    destruct Hp as (_ & _ & Gp).
    assert (S3 : glob w3 STATE = HELLO_MODE)
      by (rewrite (Gp STATE) by reflexivity; exact S2).
    split_run Hb.
    assert (S5 : glob w5 STATE = HELLO_MODE).
    { destruct (commandReady_identity _ _ _ E) as (_ & _ & Gi).
      rewrite (Gi STATE) by reflexivity. exact S3. }
    destruct (commandReady_cases _ _ _ E) as [[-> (_ & _ & Gc)]| ->];
      cbn [Z.eqb negb] in Hb; inversion Hb; subst.
    + split; [exact S5|].
      rewrite (Gc CHILD), (Gp CHILD) by reflexivity. exact J.
    + split; [exact S5|]. split; [reflexivity|].
      eapply commandReady_hello_port; [exact S3|exact E].
  - split; [exact S0|reflexivity].
Qed.

(** Listening for a child and passing on what was heard, main.c lines
    521-525. *)
Lemma hello_listen_run (w w' : world) (u : unit) :
  (heard <- childListen readChar ;; when (negb (heard =? 0)) sayHello) w
  = Some (u, w') ->
  glob w' STATE = WAIT /\
  glob w' ID = glob w ID /\ glob w' CONFIGURED = glob w CONFIGURED /\
  glob w' SERVO_ID = glob w SERVO_ID /\
  wire TX_23 (hal w') = wire TX_23 (hal w) /\
  ((glob w' CHILD = glob w CHILD /\ glob w' TIMEOUT = 0 /\
    wire TX_014 (hal w') = wire TX_014 (hal w)) \/
   (is_port (glob w' CHILD) /\
    wire TX_014 (hal w') =
      wire TX_014 (hal w) ++ hello_frame (glob w ID) (glob w' CHILD))).
Proof.
  intros H. split_run H. rename a into heard. apply childListen_cases in E.
  destruct E as ((Gl & Wl & _) & [(-> & C1 & S1 & T1)|(-> & P1 & S1)]);
    cbn [Z.eqb negb when] in H.
  - inversion H; subst w0.
    repeat split; try assumption; try (apply Gl; reflexivity);
      try (apply Wl; reflexivity).
    left. repeat split; try assumption. apply Wl. reflexivity.
  - destruct (sayHello_waits _ _ _ H) as [_ S2].
    assert (K : stable standing no_tx w0 w')
      by (eapply (stable_sayHello standing no_tx); try reflexivity; exact H).
    destruct K as (Gs & _).
    apply sayHello_emits in H. destruct H as [W14 W23].
    split; [exact S2|].
    rewrite !Gs by reflexivity. rewrite W23, W14.
    rewrite (Wl TX_014), (Wl TX_23) by reflexivity.
    rewrite (Gl ID), (Gl CONFIGURED), (Gl SERVO_ID) by reflexivity.
    repeat split. right. split; [exact P1|reflexivity].
Qed.

(** X4.  A HELLO that reaches a configured module with no child makes it
    listen on its four ports.  If no child is heard it answers nothing and
    still has no child; if one is heard, [CHILD] is the letter of the port
    and the module sends the master a hello frame that carries its own ID
    and that letter, on TX_014.  Either way it is back in the Wait role with
    [ID], [CONFIGURED] and [SERVO_ID] as before. *)
Theorem hello_forwarded_with_port (w w' : world) (u : unit) :
  glob w COMMAND_TYPE = HELLO_BYTE ->
  glob w CONFIGURED <> 0 -> glob w CHILD = 0 ->
  takeAction readChar w = Some (u, w') ->
  glob w' STATE = WAIT /\
  glob w' ID = glob w ID /\ glob w' CONFIGURED = glob w CONFIGURED /\
  glob w' SERVO_ID = glob w SERVO_ID /\
  wire TX_23 (hal w') = wire TX_23 (hal w) /\
  ((glob w' CHILD = 0 /\ glob w' TIMEOUT = 0 /\
    wire TX_014 (hal w') = wire TX_014 (hal w)) \/
   (is_port (glob w' CHILD) /\
    wire TX_014 (hal w') =
      wire TX_014 (hal w) ++ hello_frame (glob w ID) (glob w' CHILD))).
Proof.
  intros Hty Hc Hch H. unfold takeAction in H. rewrite bind_get, Hty in H.
  change (HELLO_BYTE =? HELLO_BYTE) with true in H. cbv iota in H.
  rewrite !bind_get in H. apply Z.eqb_neq in Hc. rewrite Hc, Hch in H.
  change (0 =? 0) with true in H. cbv iota in H.
  apply hello_listen_run in H. rewrite Hch in H. exact H.
Qed.

End Handler.

(** ** The frame reader over a receiver call that takes what it reads *)

Section Taking.

(** A [cReadChar] that hands out the first pending byte and removes it. *)
Variable readChar : list Z -> Z * list Z.
Hypothesis readChar_takes : forall b l, readChar (b :: l) = (b, l).

Lemma cReadChar_takes (d : rxdev) (b : Z) (rest : list Z) (w : world) :
  rx w d = b :: rest -> cReadChar readChar d w = Some (b, set_rx d rest w).
Proof. intros H. unfold cReadChar. rewrite H, readChar_takes. reflexivity. Qed.

Lemma taking_reader_frame (w : world) (s d t p : Z) (rest : list Z) :
  glob w STATE = WAIT ->
  rx w WAIT_RECV =
    START_TRANSMIT :: START_TRANSMIT :: s :: d :: t :: p :: rest ->
  exists w',
    commandReady readChar w = Some (1, w') /\
    glob w' COMMAND_SOURCE = s /\ glob w' COMMAND_DESTINATION = d /\
    glob w' COMMAND_TYPE = t /\ glob w' COMMAND_PARAM = p /\
    rx w' WAIT_RECV = rest.
Proof.
  intros HS Hrx. unfold commandReady.
  rewrite bind_get, HS. change (WAIT =? WAIT) with true. cbv iota.
  rewrite (bind_run _ _ _ _ _ (cReadChar_takes _ _ _ _ Hrx)).
  change (START_TRANSMIT =? START_TRANSMIT) with true. cbv iota.
  erewrite bind_run by (apply cGetChar_ready; cbn; reflexivity).
  change (START_TRANSMIT =? START_TRANSMIT) with true. cbv iota.
  erewrite bind_run by (apply cGetChar_ready; cbn; reflexivity).
  rewrite bind_set.
  erewrite bind_run by (apply cGetChar_ready; cbn; reflexivity).
  rewrite bind_set.
  erewrite bind_run by (apply cGetChar_ready; cbn; reflexivity).
  rewrite bind_set.
  erewrite bind_run by (apply cGetChar_ready; cbn; reflexivity).
  rewrite bind_set.
  eexists. split; [reflexivity|]. repeat split; reflexivity.
Qed.

(** X7.  With a receiver call that takes the byte it returns, the Wait
    reader reports a frame exactly on two start bytes in a row, and then
    takes the next four bytes as source, destination, type and parameter.
    A start byte followed by another byte is dropped together with that
    byte, and any other byte is dropped alone; in both cases no frame is
    reported, no global is written and no API call is made. *)
Theorem taking_reader_recognises (w : world) (x y : Z) (rest : list Z) :
  glob w STATE = WAIT ->
  rx w WAIT_RECV = x :: y :: rest ->
  (x = START_TRANSMIT -> y = START_TRANSMIT ->
   forall s d t p rest',
     rest = s :: d :: t :: p :: rest' ->
     exists w',
       commandReady readChar w = Some (1, w') /\
       glob w' COMMAND_SOURCE = s /\ glob w' COMMAND_DESTINATION = d /\
       glob w' COMMAND_TYPE = t /\ glob w' COMMAND_PARAM = p /\
       rx w' WAIT_RECV = rest') /\
  (x = START_TRANSMIT -> y <> START_TRANSMIT ->
   exists w',
     commandReady readChar w = Some (0, w') /\
     rx w' WAIT_RECV = rest /\ glob w' = glob w /\ hal w' = hal w) /\
  (x <> START_TRANSMIT ->
   exists w',
     commandReady readChar w = Some (0, w') /\
     rx w' WAIT_RECV = y :: rest /\ glob w' = glob w /\ hal w' = hal w).
Proof.
  intros HS Hrx. split; [|split].
  - intros -> -> s d t p rest' ->. apply taking_reader_frame; assumption.
  - intros -> Hy. unfold commandReady.
    rewrite bind_get, HS. change (WAIT =? WAIT) with true. cbv iota.
    rewrite (bind_run _ _ _ _ _ (cReadChar_takes _ _ _ _ Hrx)).
    change (START_TRANSMIT =? START_TRANSMIT) with true. cbv iota.
    erewrite bind_run by (apply cGetChar_ready; cbn; reflexivity).
    apply Z.eqb_neq in Hy. rewrite Hy.
    eexists. split; [reflexivity|]. repeat split; reflexivity.
  - intros Hx. unfold commandReady.
    rewrite bind_get, HS. change (WAIT =? WAIT) with true. cbv iota.
    rewrite (bind_run _ _ _ _ _ (cReadChar_takes _ _ _ _ Hrx)).
    apply Z.eqb_neq in Hx. rewrite Hx.
    eexists. split; [reflexivity|]. repeat split; reflexivity.
Qed.

(** The Wait branch of [commandReady] after its two tests, main.c lines
    408-424, when two bytes are pending. *)
Lemma taking_reader_head (w : world) (x y : Z) (rest : list Z) :
  glob w STATE = WAIT ->
  rx w WAIT_RECV = x :: y :: rest ->
  commandReady readChar w =
    if x =? START_TRANSMIT then
      if y =? START_TRANSMIT then
        (s <- cGetChar WAIT_RECV ;; set COMMAND_SOURCE s ;;
         d <- cGetChar WAIT_RECV ;; set COMMAND_DESTINATION d ;;
         t <- cGetChar WAIT_RECV ;; set COMMAND_TYPE t ;;
         p <- cGetChar WAIT_RECV ;; set COMMAND_PARAM p ;;
         ret 1)
          (set_rx WAIT_RECV rest (set_rx WAIT_RECV (y :: rest) w))
      else Some (0, set_rx WAIT_RECV rest (set_rx WAIT_RECV (y :: rest) w))
    else Some (0, set_rx WAIT_RECV (y :: rest) w).
Proof.
  intros HS Hrx. unfold commandReady.
  rewrite bind_get, HS. change (WAIT =? WAIT) with true. cbv iota.
  rewrite (bind_run _ _ _ _ _ (cReadChar_takes _ _ _ _ Hrx)).
  destruct (x =? START_TRANSMIT); [|reflexivity].
  erewrite bind_run by (apply cGetChar_ready; cbn; reflexivity).
  destruct (y =? START_TRANSMIT); reflexivity.
Qed.

(** C3, with the receiver calls the code is written for.  When
    [cReadChar] takes the byte it returns, the Wait reader reports a frame
    exactly when two start bytes head the receive channel, and it then
    takes exactly the next four bytes as source, destination, type and
    parameter, and nothing after them.  When a start byte is not followed
    by a second one it is discarded, with the byte read after it, and a
    byte that is no start byte is discarded alone; no frame is reported,
    no global is written and no API call is made, so the module keeps
    listening in the Wait role. *)
Theorem wait_reader_recognises (w : world) (x y : Z) (rest : list Z) :
  glob w STATE = WAIT ->
  rx w WAIT_RECV = x :: y :: rest ->
  (forall c w',
      commandReady readChar w = Some (c, w') ->
      (c = 1 <-> x = START_TRANSMIT /\ y = START_TRANSMIT)) /\
  (x = START_TRANSMIT -> y = START_TRANSMIT ->
   forall s d t p rest',
     rest = s :: d :: t :: p :: rest' ->
     exists w',
       commandReady readChar w = Some (1, w') /\
       glob w' COMMAND_SOURCE = s /\ glob w' COMMAND_DESTINATION = d /\
       glob w' COMMAND_TYPE = t /\ glob w' COMMAND_PARAM = p /\
       rx w' WAIT_RECV = rest') /\
  (~ (x = START_TRANSMIT /\ y = START_TRANSMIT) ->
   exists w',
     commandReady readChar w = Some (0, w') /\
     glob w' = glob w /\ hal w' = hal w /\
     rx w' WAIT_RECV = if x =? START_TRANSMIT then rest else y :: rest).
Proof.
  intros HS Hrx. rewrite (taking_reader_head w x y rest HS Hrx).
  split; [|split].
  - intros c w' H.
    destruct (x =? START_TRANSMIT) eqn:Hx;
      [destruct (y =? START_TRANSMIT) eqn:Hy|].
    + apply Z.eqb_eq in Hx, Hy.
      repeat first [ split_run H | progress autorewrite with run in H ].
      inversion H. split; [intros _; split; assumption|reflexivity].
    + apply Z.eqb_neq in Hy. inversion H.
      split; [discriminate|intros [_ Hy']; contradiction].
    + apply Z.eqb_neq in Hx. inversion H.
      split; [discriminate|intros [Hx' _]; contradiction].
  - intros -> -> s d t p rest' ->.
    rewrite <- (taking_reader_head w _ _ _ HS Hrx).
    apply taking_reader_frame; assumption.
  - intros Hn.
    destruct (x =? START_TRANSMIT) eqn:Hx;
      [destruct (y =? START_TRANSMIT) eqn:Hy|].
    + exfalso. apply Hn. apply Z.eqb_eq in Hx, Hy. split; assumption.
    + eexists. split; [reflexivity|]. repeat split; reflexivity.
    + eexists. split; [reflexivity|]. repeat split; reflexivity.
Qed.

(** X8.  What the emitters write, the reader reads back.  The hello frame
    [sayHello] puts on TX_014, arriving on the Wait receiver of a module,
    is read as a HELLO from the sender's ID to the master with the sender's
    [CHILD] as parameter, and its two end bytes stay pending.  The frame of
    the three responders has no parameter byte: it is read as a frame of
    its type from the sender's ID to the master whose parameter is the first
    end byte, and one end byte stays pending. *)
Theorem emitted_frames_read_back (w w' : world) (u : unit) (v : world) :
  glob v STATE = WAIT ->
  (sayHello w = Some (u, w') ->
   wire TX_014 (hal w') = wire TX_014 (hal w) ++ rx v WAIT_RECV ->
   exists v',
     commandReady readChar v = Some (1, v') /\
     glob v' COMMAND_SOURCE = glob w ID /\
     glob v' COMMAND_DESTINATION = MASTER_ID /\
     glob v' COMMAND_TYPE = HELLO_BYTE /\
     glob v' COMMAND_PARAM = glob w CHILD /\
     rx v' WAIT_RECV = [END_TRANSMIT; END_TRANSMIT]) /\
  (forall ty,
     respond ty w = Some (u, w') ->
     wire TX_23 (hal w') = wire TX_23 (hal w) ++ rx v WAIT_RECV ->
     exists v',
       commandReady readChar v = Some (1, v') /\
       glob v' COMMAND_SOURCE = glob w ID /\
       glob v' COMMAND_DESTINATION = MASTER_ID /\
       glob v' COMMAND_TYPE = ty /\
       glob v' COMMAND_PARAM = END_TRANSMIT /\
       rx v' WAIT_RECV = [END_TRANSMIT]).
Proof.
  intros HS. split.
  - intros H Hw. apply sayHello_emits in H. destruct H as [W _].
    rewrite W in Hw. apply app_inv_head in Hw.
    apply taking_reader_frame; [exact HS|]. rewrite <- Hw. reflexivity.
  - intros ty H Hw. apply respond_emits in H. destruct H as (_ & W & _).
    rewrite W in Hw. apply app_inv_head in Hw.
    apply taking_reader_frame; [exact HS|]. rewrite <- Hw. reflexivity.
Qed.

End Taking.

(** ** A frame that stops short *)

Lemma events_future (b : list event) (w : world) :
  future (fold_left apply_event b w) = future w.
Proof.
  revert w. induction b as [|e b IH]; intros w; [reflexivity|].
  cbn [fold_left]. rewrite IH.
  destruct e as [t|d x|d]; cbn; [destruct (running t (hal w))|..]; reflexivity.
Qed.

Lemma events_rx_silent (d : rxdev) (b : list event) (w : world) :
  Forall (fun e => match e with Recv d' _ => d' <> d | _ => True end) b ->
  rx (fold_left apply_event b w) d = rx w d.
Proof.
  intros Hb. revert w. induction Hb as [|e b He _ IH]; intros w; [reflexivity|].
  cbn [fold_left]. rewrite IH.
  destruct e as [t|d' x|d']; cbn.
  - destruct (running t (hal w)); reflexivity.
  - destruct (rxdev_eq_dec d d') as [Heq|_]; [|reflexivity].
    exfalso. apply He. symmetry. exact Heq.
  - reflexivity.
Qed.

(** A blocking read on a receiver where nothing is pending and nothing
    arrives does not return. *)
Lemma cGetChar_wait_starves (d : rxdev) (n : nat) (w : world) :
  rx w d = [] -> silent_on d (future w) ->
  spin_fuel n (fun _ w => match rx w d with [] => true | _ => false end)
            (fun _ => ret tt) tt w = None.
Proof.
  revert w. induction n as [|n IH]; intros w Hrx Hq; [reflexivity|].
  cbn [spin_fuel]. rewrite Hrx. unfold bind at 1, pause.
  destruct (future w) as [|b rest] eqn:Ef; [reflexivity|].
  inversion Hq as [|b' rest' Hb Hrest]; subst b' rest'.
  rewrite bind_ret. apply IH.
  - rewrite events_rx_silent by exact Hb. exact Hrx.
  - rewrite events_future. exact Hrest.
Qed.

Lemma cGetChar_starves (d : rxdev) (w : world) :
  rx w d = [] -> silent_on d (future w) -> cGetChar d w = None.
Proof.
  intros Hrx Hq. unfold cGetChar, bind, spin.
  rewrite cGetChar_wait_starves by assumption. reflexivity.
Qed.

Section Truncated.

Variable readChar : list Z -> Z * list Z.

(** The reader has read two start bytes' worth and goes on to take four
    bytes, of which fewer are there. *)
Ltac starve :=
  unfold bind;
  rewrite cGetChar_starves by (cbn; first [reflexivity|assumption]);
  reflexivity.

Ltac take_or_starve pend :=
  let b := fresh "b" in
  destruct pend as [|b pend];
  [starve|erewrite bind_run by (apply cGetChar_ready; cbn; reflexivity)].

(** X9.  A frame that stops short blocks the reader for good.  When the
    receiver call of the Wait role reads a start byte (of the servo role, a
    servo start byte) and what is then pending is the beginning of a frame,
    fewer than the five bytes the reader goes on to take, [commandReady]
    does not return as long as no further byte arrives on that receiver: it
    sits in a blocking read that no timer interrupt ends. *)
Theorem truncated_frame_blocks (w : world) (d : rxdev) (start : Z)
        (pend : list Z) :
  (glob w STATE = WAIT /\ d = WAIT_RECV /\ start = START_TRANSMIT) \/
  (glob w STATE = INITIALIZE /\ d = INIT_RX /\ start = SERVO_START) ->
  readChar (rx w d) = (start, pend) ->
  hd start pend = start ->
  (length pend < 5)%nat ->
  silent_on d (future w) ->
  commandReady readChar w = None.
Proof.
  intros [(HS & -> & ->)|(HS & -> & ->)] Hr Hhd Hlen Hq; unfold commandReady;
    rewrite bind_get, HS.
  - change (WAIT =? WAIT) with true. cbv iota.
    unfold cReadChar at 1. unfold bind at 1. rewrite Hr.
    change (START_TRANSMIT =? START_TRANSMIT) with true. cbv iota.
    take_or_starve pend. cbn [hd] in Hhd. subst b.
    change (START_TRANSMIT =? START_TRANSMIT) with true. cbv iota.
    take_or_starve pend. rewrite bind_set.
    take_or_starve pend. rewrite bind_set.
    take_or_starve pend. rewrite bind_set.
    destruct pend as [|b3 pend]; [starve|cbn in Hlen; lia].
  - change (INITIALIZE =? WAIT) with false.
    change (INITIALIZE =? HELLO_MODE) with false.
    change (INITIALIZE =? RESPONSE_1) with false.
    change (INITIALIZE =? RESPONSE_2) with false.
    change (INITIALIZE =? RESPONSE_3) with false.
    change (INITIALIZE =? RESPONSE_4) with false.
    change (INITIALIZE =? INITIALIZE) with true. cbv iota.
    unfold cReadChar at 1. unfold bind at 1. rewrite Hr.
    change (SERVO_START =? SERVO_START) with true. cbv iota.
    take_or_starve pend. cbn [hd] in Hhd. subst b.
    change (SERVO_START =? SERVO_START) with true. cbv iota.
    take_or_starve pend. rewrite bind_set.
    take_or_starve pend. rewrite bind_set.
    take_or_starve pend. rewrite bind_set.
    destruct pend as [|b3 pend]; [starve|cbn in Hlen; lia].
Qed.

End Truncated.

(** ** The pins after a role switch *)

Lemma kept_refl {A : Type} (f : world -> A) (w : world) : kept f w w.
Proof. reflexivity. Qed.

Lemma kept_trans {A : Type} (f : world -> A) (a b c : world) :
  kept f a b -> kept f b c -> kept f a c.
Proof. unfold kept. congruence. Qed.

Lemma kept_pause {A : Type} (f : world -> A) :
  (forall l w, f (set_future l w) = f w) ->
  (forall e w, f (apply_event w e) = f w) -> keeps (kept f) pause.
Proof.
  intros Hf He w a w' H. unfold pause in H.
  destruct (future w) as [|b rest]; [discriminate|]. inversion H; subst.
  clear H. unfold kept. rewrite <- (Hf rest w). generalize (set_future rest w).
  induction b as [|e b IH]; intros v; [reflexivity|].
  cbn [fold_left]. rewrite IH. apply He.
Qed.

Lemma pins_event (e : event) (w : world) : pins (apply_event w e) = pins w.
Proof.
  destruct e as [t|d x|d]; cbn; [destruct (running t (hal w))|..]; reflexivity.
Qed.

Ltac kept_leaf :=
  idtac;
  lazymatch goal with
  | |- keeps (kept pins) pause =>
      apply kept_pause; [reflexivity | exact pins_event]
  | |- keeps _ _ =>
      let H := fresh "H" in
      intros ? ? ? H; inversion H; subst; reflexivity
  end.

Lemma enter_role_pins (mode : Z) : keeps (kept pins) (enter_role mode).
Proof.
  unfold enter_role, settle.
  keep_with (kept_refl pins) (kept_trans pins) ltac:(kept_leaf).
Qed.

Lemma unload_pins (st : Z) :
  keeps (kept pins)
        (if negb (st =? 0) then unloadConfig st else unloadAllConfigs).
Proof.
  unfold unloadConfig, unloadAllConfigs.
  keep_with (kept_refl pins) (kept_trans pins) ltac:(kept_leaf).
Qed.

Lemma land_lor_same (x m : Z) : Z.land (Z.lor x m) m = m.
Proof.
  apply Z.bits_inj'. intros n _. rewrite Z.land_spec, Z.lor_spec.
  destruct (Z.testbit x n), (Z.testbit m n); reflexivity.
Qed.

Lemma land_lor_masked (x a b c : Z) :
  Z.land a c = 0 -> Z.land (Z.lor (Z.land x a) b) c = Z.land b c.
Proof.
  intros Ha. rewrite Z.land_lor_distr_l, <- Z.land_assoc, Ha, Z.land_0_r.
  apply Z.lor_0_l.
Qed.

Lemma land_lor_upper (x a b : Z) :
  Z.land b a = 0 -> Z.land (Z.lor (Z.land x a) b) a = Z.land x a.
Proof.
  intros Hb. rewrite Z.land_lor_distr_l, <- Z.land_assoc, Z.land_diag, Hb.
  apply Z.lor_0_r.
Qed.

Lemma display_masked (x m : Z) :
  Z.land m 255 = m -> Z.land (Z.land (Z.lor x 255) m) 255 = m.
Proof.
  intros Hm. rewrite <- Z.land_assoc, Hm. rewrite <- Hm at 1.
  rewrite (Z.land_comm m 255), Z.land_assoc, land_lor_same.
  rewrite Z.land_comm. exact Hm.
Qed.

(** The registers [attach_bus] leaves. *)
Lemma attach_bus_regs (w w' : world) (u : unit) :
  attach_bus w = Some (u, w') ->
  reg w' PRT0DR = reg w PRT0DR /\
  reg w' PRT0GS =
    Z.lor (reg w PRT0GS) (if glob w CONFIGURED =? 0 then 1 else 31) /\
  reg w' PRT2DR =
    (if glob w CONFIGURED =? 0 then Z.lor (reg w PRT2DR) 1
     else Z.land (reg w PRT2DR) 254) /\
  (glob w CONFIGURED = 0 -> reg w' PRT1DR = reg w PRT1DR) /\
  (glob w CONFIGURED <> 0 ->
   Z.land (reg w' PRT1DR) 255 =
     if (1 <=? glob w SERVO_ID) && (glob w SERVO_ID <=? 6)
     then servo_id_leds (glob w SERVO_ID) else 255).
Proof.
  intros H. unfold attach_bus, show_servo_id in H. rewrite bind_get in H.
  destruct (glob w CONFIGURED =? 0) eqn:Ec; cbn [negb] in H;
    autorewrite with run in H.
  - inversion H; subst. cbn. repeat split; try reflexivity.
    intros Hc. apply Z.eqb_eq in Ec. exfalso. exact (Hc Ec).
  - cbn [glob set_reg] in H.
    split; [|split; [|split; [|split]]].
    4:{ intros Hc. apply Z.eqb_neq in Ec. exfalso. exact (Ec Hc). }
    4:{ intros _.
        repeat match type of H with
               | (if ?b then _ else _) _ = Some _ =>
                   let E := fresh "E" in
                   destruct b eqn:E;
                   [apply Z.eqb_eq in E; rewrite E|apply Z.eqb_neq in E]
               end;
          inversion H; subst; cbn [reg set_reg];
          repeat match goal with
                 | |- context [port_eq_dec ?a ?b] =>
                     destruct (port_eq_dec a b); try discriminate;
                     try (exfalso; congruence)
                 end;
          try (apply display_masked; reflexivity).
        rewrite land_lor_same.
        destruct ((1 <=? glob w SERVO_ID) && (glob w SERVO_ID <=? 6)) eqn:Hr;
          [|reflexivity].
        apply andb_true_iff in Hr. destruct Hr as [H1 H6].
        apply Z.leb_le in H1, H6. lia. }
    all: repeat match type of H with
                | (if ?b then _ else _) _ = Some _ => destruct b
                end;
      inversion H; subst; reflexivity.
Qed.

(** The board when [attach_bus] starts, in a role switch that returns. *)
Lemma configToggle_attach (mode : Z) (w w' : world) (u : unit) :
  configToggle mode w = Some (u, w') ->
  exists w1,
    attach_bus w1 = Some (u, w') /\
    glob w1 CONFIGURED = glob w CONFIGURED /\
    glob w1 SERVO_ID = glob w SERVO_ID /\
    reg w1 PRT0DR = Z.lor (reg w PRT0DR) 31 /\
    reg w1 PRT0GS = Z.land (reg w PRT0GS) 224 /\
    reg w1 PRT1DR = reg w PRT1DR /\
    reg w1 PRT2DR = reg w PRT2DR.
Proof.
  intros H. unfold configToggle in H. split_run H. split_run H.
  exists w1. split; [exact H|].
  unfold release_role in E.
  rewrite bind_reg_or, bind_reg_and, bind_get in E.
  apply unload_pins in E. apply enter_role_pins in E0.
  unfold kept, pins in E, E0. cbn [glob reg set_reg] in E.
  inversion E0 as [[C0 S0 R0]]. inversion E as [[C1 S1 R1]].
  rewrite C0, S0, R0, C1, S1, R1. repeat split; reflexivity.
Qed.

(** X10.  Every role switch that returns leaves the five bus pins of port 0
    driven high and attaches the module to the global bus by its standing:
    an unconfigured module with pin 0 alone and its LED off (bit 0 of
    PRT2DR set), a configured module with all five pins and its LED on.
    The three upper bits of the bus register are not touched. *)
Theorem role_switch_sets_the_pins (mode : Z) (w w' : world) (u : unit) :
  configToggle mode w = Some (u, w') ->
  Z.land (reg w' PRT0DR) 31 = 31 /\
  Z.land (reg w' PRT0GS) 31 = (if glob w CONFIGURED =? 0 then 1 else 31) /\
  Z.land (reg w' PRT0GS) 224 = Z.land (reg w PRT0GS) 224 /\
  Z.testbit (reg w' PRT2DR) 0 = (glob w CONFIGURED =? 0).
Proof.
  intros H. apply configToggle_attach in H.
  destruct H as (w1 & H & C1 & _ & R0 & R1 & _ & R3).
  apply attach_bus_regs in H. destruct H as (A0 & A1 & A2 & _).
  rewrite A0, A1, A2, R0, R1, R3, C1.
  split; [apply land_lor_same|].
  destruct (glob w CONFIGURED =? 0).
  - split; [apply land_lor_masked; reflexivity|].
    split; [apply land_lor_upper; reflexivity|].
    rewrite Z.lor_spec. apply orb_true_r.
  - split; [apply land_lor_masked; reflexivity|].
    split; [apply land_lor_upper; reflexivity|].
    rewrite Z.land_spec. apply andb_false_r.
Qed.

(** X11.  A role switch of a configured module shows [SERVO_ID] on port 1:
    for an ID from 1 to 6 its three binary digits on pins 3, 5 and 7, a
    digit 1 pulling the pin low; for any other ID, 0 and 7 included, all
    eight pins are high.  An unconfigured module leaves port 1 alone. *)
Theorem servo_id_on_the_leds (mode : Z) (w w' : world) (u : unit) :
  configToggle mode w = Some (u, w') ->
  (glob w CONFIGURED <> 0 ->
   Z.land (reg w' PRT1DR) 255 =
     if (1 <=? glob w SERVO_ID) && (glob w SERVO_ID <=? 6)
     then servo_id_leds (glob w SERVO_ID) else 255) /\
  (glob w CONFIGURED = 0 -> reg w' PRT1DR = reg w PRT1DR).
Proof.
  intros H. apply configToggle_attach in H.
  destruct H as (w1 & H & C1 & S1 & _ & _ & R2 & _).
  apply attach_bus_regs in H. destruct H as (_ & _ & _ & A3 & A4).
  rewrite C1 in A3, A4. rewrite S1 in A4. rewrite R2 in A3.
  split; assumption.
Qed.

(** ** One configuration at a time *)

Lemma keeps_role_refl (w : world) : keeps_role w w.
Proof. intros H. exact H. Qed.

Lemma keeps_role_trans (a b c : world) :
  keeps_role a b -> keeps_role b c -> keeps_role a c.
Proof. unfold keeps_role. auto. Qed.

Lemma role_view_keeps (w w' : world) : kept role_view w w' -> keeps_role w w'.
Proof.
  unfold kept, role_view. intros E. inversion E as [[Es El]].
  intros [H|H]; [left; congruence|right].
  intros c. rewrite Es. change (loaded c (hal w')) with
    ((fun c => loaded c (hal w')) c). rewrite El. apply H.
Qed.

Lemma role_view_event (e : event) (w : world) :
  role_view (apply_event w e) = role_view w.
Proof.
  destruct e as [t|d x|d]; cbn; [destruct (running t (hal w)); [|reflexivity]|..];
    reflexivity.
Qed.

Lemma loaded_view_event (e : event) (w : world) :
  loaded_view (apply_event w e) = loaded_view w.
Proof.
  destruct e as [t|d x|d]; cbn; [destruct (running t (hal w))|..]; reflexivity.
Qed.

Section Kept.

Variable A : Type.
Variable f : world -> A.
Hypothesis f_rx : forall d l w, f (set_rx d l w) = f w.
Hypothesis f_future : forall l w, f (set_future l w) = f w.
Hypothesis f_event : forall e w, f (apply_event w e) = f w.

Lemma kept_cReadChar (readChar : list Z -> Z * list Z) (d : rxdev) :
  keeps (kept f) (cReadChar readChar d).
Proof.
  intros w a w' H. unfold cReadChar in H.
  destruct (readChar (rx w d)) as [b rest]. inversion H; subst. apply f_rx.
Qed.

Lemma kept_cGetChar (d : rxdev) : keeps (kept f) (cGetChar d).
Proof.
  unfold cGetChar. apply keeps_bind; [apply kept_trans| |].
  - apply keeps_spin;
      [apply kept_refl | apply kept_trans | apply kept_pause; assumption |].
    intros _. apply keeps_ret, kept_refl.
  - intros _ w a w' H. destruct (rx w d) as [|b rest]; [discriminate|].
    inversion H; subst. apply f_rx.
Qed.

End Kept.

(** Leaves of [keeps (kept f)] for a projection [f] that the receivers, the
    script and the events leave alone, as [frx], [ffut] and [fev] say. *)
Ltac kept_leaves frx ffut fev :=
  idtac;
  lazymatch goal with
  | |- keeps _ pause => apply kept_pause; [exact ffut | exact fev]
  | |- keeps _ (cReadChar _ _) => apply kept_cReadChar; exact frx
  | |- keeps _ (cGetChar _) => apply kept_cGetChar; [exact frx|exact ffut|exact fev]
  | |- keeps _ _ =>
      let H := fresh "H" in
      intros ? ? ? H; inversion H; subst; reflexivity
  end.

Ltac kept_loaded :=
  keep_with (kept_refl loaded_view) (kept_trans loaded_view)
            ltac:(kept_leaves (fun (d : rxdev) (l : list Z) (w : world) =>
                                 eq_refl (loaded_view w))
                              (fun (l : list (list event)) (w : world) =>
                                 eq_refl (loaded_view w))
                              loaded_view_event).

Lemma unloadAllConfigs_clears (w w' : world) (u : unit) :
  unloadAllConfigs w = Some (u, w') ->
  (forall c, loaded c (hal w') = false) /\ glob w' = glob w.
Proof.
  intros H. inversion H; subst. split; [|reflexivity].
  intros c. destruct c; reflexivity.
Qed.

Lemma unloadConfig_clears (w w' : world) (u : unit) :
  one_role w ->
  unloadConfig (glob w STATE) w = Some (u, w') ->
  (forall c, loaded c (hal w') = false) /\ glob w' = glob w.
Proof.
  unfold one_role, role_config, unloadConfig. intros Hone H.
  assert (Hoff : forall c c0,
             role_config (glob w STATE) = c0 -> c0 <> Some c ->
             loaded c (hal w) = false).
  { intros c c0 Hc Hn. destruct (loaded c (hal w)) eqn:L; [|reflexivity].
    apply Hone in L. exfalso. apply Hn. rewrite <- Hc. exact L. }
  unfold role_config in Hoff. clear Hone.
  repeat match type of H with
         | (if ?b then _ else _) _ = Some _ => destruct b
         end;
    inversion H; subst w'; (split; [|reflexivity]); intros c;
    cbn [hal log_call loaded];
    try (destruct (config_eq_dec c _) as [|Hn]; [reflexivity|]);
    eapply Hoff; try reflexivity; intros Hs; inversion Hs; subst;
    apply Hn; reflexivity.
Qed.

Lemma release_role_clears (w w' : world) (u : unit) :
  role_matches w ->
  release_role w = Some (u, w') ->
  (forall c, loaded c (hal w') = false) /\ glob w' = glob w.
Proof.
  intros J H. unfold release_role in H.
  rewrite bind_reg_or, bind_reg_and, bind_get in H. cbn [glob set_reg] in H.
  destruct (glob w STATE =? 0) eqn:E0; cbn [negb] in H.
  - apply unloadAllConfigs_clears in H. exact H.
  - apply Z.eqb_neq in E0. destruct J as [J|J]; [exfalso; exact (E0 J)|].
    match type of H with
    | unloadConfig _ ?wx = _ =>
        apply (unloadConfig_clears wx) in H; [exact H|exact J]
    end.
Qed.

(** [enter_role] loads the configuration of its role, and no other. *)
Lemma enter_role_loads (mode : Z) (w w' : world) (u : unit) :
  WAIT <= mode <= INITIALIZE ->
  enter_role mode w = Some (u, w') ->
  glob w' STATE = mode /\
  exists c0,
    role_config mode = Some c0 /\
    forall c, loaded c (hal w') =
              if config_eq_dec c c0 then true else loaded c (hal w).
Proof.
  intros Hm H.
  assert (Hc : mode = 1 \/ mode = 2 \/ mode = 3 \/ mode = 4 \/ mode = 5 \/
               mode = 6 \/ mode = 7 \/ mode = 8)
    by (unfold WAIT, INITIALIZE in Hm; lia).
  split.
  - destruct Hc as [->|Hc].
    + cbn in H. inversion H; subst. reflexivity.
    + eapply enter_role_clears; [|exact H].
      unfold MY_RESPONSE, INITIALIZE. lia.
  - destruct Hc as [->|[->|[->|[->|[->|[->|[->| ->]]]]]]];
      cbn [enter_role Z.eqb Pos.eqb WAIT MY_RESPONSE RESPONSE_1 RESPONSE_2
           RESPONSE_3 RESPONSE_4 HELLO_MODE INITIALIZE] in H;
      rewrite bind_call in H;
      match type of H with
      | ?m ?v = Some _ =>
          let K := fresh "K" in
          assert (K : keeps (kept loaded_view) m)
            by (unfold settle; kept_loaded);
          apply K in H; clear K
      end;
      eexists; (split; [reflexivity|]); intros c;
      change (loaded c (hal w')) with (loaded_view w' c); rewrite H;
      reflexivity.
Qed.

(** A role switch keeps the books: whatever was loaded is unloaded, and the
    configuration of the new role is loaded. *)
Lemma configToggle_one_role (mode : Z) (w w' : world) (u : unit) :
  WAIT <= mode <= INITIALIZE ->
  role_matches w ->
  configToggle mode w = Some (u, w') ->
  one_role w' /\ glob w' STATE = mode.
Proof.
  intros Hm J H. unfold configToggle in H. split_run H. split_run H.
  apply release_role_clears in E; [|exact J]. destruct E as [Hoff _].
  apply enter_role_loads in E0; [|exact Hm].
  destruct E0 as (S1 & c0 & Hc0 & L1).
  destruct (attach_bus_total w1) as (w3 & E3 & (G3 & _) & H3).
  rewrite E3 in H. inversion H; subst w3.
  split; [|rewrite G3; exact S1].
  intros c. rewrite H3, G3, S1, Hc0, L1, Hoff.
  destruct (config_eq_dec c c0) as [->|Hn]; split; intros Hx;
    try reflexivity; try discriminate.
  inversion Hx; subst. exfalso. apply Hn. reflexivity.
Qed.

Lemma keeps_role_configToggle (mode : Z) :
  WAIT <= mode <= INITIALIZE -> keeps keeps_role (configToggle mode).
Proof.
  intros Hm w u w' H J. right.
  eapply configToggle_one_role; eauto.
Qed.

Lemma keeps_role_of_view {A : Type} (m : M A) :
  keeps (kept role_view) m -> keeps keeps_role m.
Proof. intros K w a w' H. apply role_view_keeps. eapply K, H. Qed.

Ltac kept_role :=
  keep_with (kept_refl role_view) (kept_trans role_view)
            ltac:(kept_leaves (fun (d : rxdev) (l : list Z) (w : world) =>
                                 eq_refl (role_view w))
                              (fun (l : list (list event)) (w : world) =>
                                 eq_refl (role_view w))
                              role_view_event).

Section Roles.

Variable readChar : list Z -> Z * list Z.

Lemma role_commandReady : keeps keeps_role (commandReady readChar).
Proof. apply keeps_role_of_view. unfold commandReady. kept_role. Qed.

Lemma role_wait_tx (d : txdev) : keeps keeps_role (wait_tx_complete d).
Proof. apply keeps_role_of_view. unfold wait_tx_complete. kept_role. Qed.

Ltac role_leaf :=
  idtac;
  lazymatch goal with
  | |- keeps _ (configToggle _) =>
      apply keeps_role_configToggle; cbv; split; discriminate
  | |- keeps _ (commandReady _) => apply role_commandReady
  | |- keeps _ (wait_tx_complete _) => apply role_wait_tx
  | |- keeps _ _ => apply keeps_role_of_view; kept_role
  end.

Ltac role := keep_with keeps_role_refl keeps_role_trans ltac:(role_leaf).

Lemma role_sayHello : keeps keeps_role sayHello.
Proof. unfold sayHello. role. Qed.

Lemma role_respond (ty : Z) : keeps keeps_role (respond ty).
Proof. unfold respond. role. Qed.

Lemma role_servoInstruction (a b c d e : Z) :
  keeps keeps_role (servoInstruction a b c d e).
Proof. unfold servoInstruction. role. Qed.

Lemma role_childListen : keeps keeps_role (childListen readChar).
Proof. unfold childListen. role. Qed.

Lemma role_childResponse : keeps keeps_role (childResponse readChar).
Proof.
  unfold childResponse, child_port_select, child_wait, child_timer_stop. role.
Qed.

Lemma role_reid : keeps keeps_role (reid readChar).
Proof.
  unfold reid, reid_attempts, reid_listen, reid_check, servoInstruction. role.
Qed.

Lemma role_servoFinder : keeps keeps_role (servoFinder readChar).
Proof.
  unfold servoFinder, find_servo, find_attempts, find_listen, level_check,
    level_attempts, level_listen, servoInstruction.
  role.
Qed.

Lemma role_takeAction : keeps keeps_role (takeAction readChar).
Proof.
  unfold takeAction, pingResponse, assignedID, configCleared.
  keep_with keeps_role_refl keeps_role_trans
    ltac:(idtac;
          lazymatch goal with
          | |- keeps _ sayHello => apply role_sayHello
          | |- keeps _ (respond _) => apply role_respond
          | |- keeps _ (childListen _) => apply role_childListen
          | |- keeps _ (childResponse _) => apply role_childResponse
          | |- keeps _ (reid _) => apply role_reid
          | |- keeps _ _ => role_leaf
          end).
Qed.

End Roles.

(** ** Who writes [CHILD] *)

Lemma away_refl (w : world) : away w w.
Proof. intros H. split; [exact H|reflexivity]. Qed.

Lemma away_trans (a b c : world) : away a b -> away b c -> away a c.
Proof.
  intros H1 H2 Ha. destruct (H1 Ha) as [Hb E1]. destruct (H2 Hb) as [Hc E2].
  split; [exact Hc|congruence].
Qed.

Lemma away_of_kept {A : Type} (m : M A) :
  keeps (kept role_and_child) m -> keeps away m.
Proof.
  intros K w a w' H Hs. apply K in H. unfold kept, role_and_child in H.
  inversion H as [[E1 E2]]. split; [rewrite E1; exact Hs|reflexivity].
Qed.

Lemma role_and_child_event (e : event) (w : world) :
  role_and_child (apply_event w e) = role_and_child w.
Proof.
  destruct e as [t|d x|d]; cbn; [destruct (running t (hal w))|..]; reflexivity.
Qed.

Ltac kept_role_and_child :=
  keep_with (kept_refl role_and_child) (kept_trans role_and_child)
            ltac:(kept_leaves (fun (d : rxdev) (l : list Z) (w : world) =>
                                 eq_refl (role_and_child w))
                              (fun (l : list (list event)) (w : world) =>
                                 eq_refl (role_and_child w))
                              role_and_child_event).

Section Away.

Variable readChar : list Z -> Z * list Z.

Lemma away_commandReady : keeps away (commandReady readChar).
Proof.
  intros w c w' H Hs. apply (commandReady_child readChar _ _ _ Hs) in H.
  destruct H as (_ & _ & G). rewrite (G STATE), (G CHILD) by reflexivity.
  split; [exact Hs|reflexivity].
Qed.

Lemma away_configToggle_WAIT : keeps away (configToggle WAIT).
Proof.
  intros w u w' H _.
  destruct (configToggle_WAIT w) as (w3 & E3 & S3 & G3 & _).
  rewrite E3 in H. inversion H; subst w3.
  split; [rewrite S3; discriminate|apply G3; discriminate].
Qed.

Lemma away_servoInstruction (a b c d e : Z) :
  keeps away (servoInstruction a b c d e).
Proof.
  intros w u w' H _. apply servoInstruction_emits in H.
  destruct H as (_ & _ & _ & S & G).
  split; [rewrite S; discriminate|apply G; discriminate].
Qed.

Ltac away_leaf :=
  idtac;
  lazymatch goal with
  | |- keeps _ (configToggle WAIT) => apply away_configToggle_WAIT
  | |- keeps _ (commandReady _) => apply away_commandReady
  | |- keeps _ (servoInstruction _ _ _ _ _) => apply away_servoInstruction
  | |- keeps _ _ => apply away_of_kept; kept_role_and_child
  end.

Lemma away_reid : keeps away (reid readChar).
Proof.
  unfold reid, reid_attempts, reid_listen, reid_check.
  keep_with away_refl away_trans ltac:(away_leaf).
Qed.

Lemma away_servoFinder : keeps away (servoFinder readChar).
Proof.
  unfold servoFinder, find_servo, find_attempts, find_listen, level_check,
    level_attempts, level_listen.
  keep_with away_refl away_trans ltac:(away_leaf).
Qed.

End Away.

(** ** Finding the servo *)

Lemma found_refl (w : world) : found w w.
Proof. left. reflexivity. Qed.

Lemma found_trans (a b c : world) : found a b -> found b c -> found a c.
Proof.
  unfold found. intros [H1|H1] [H2|H2].
  - left. congruence.
  - right. exact H2.
  - right. rewrite H2. exact H1.
  - right. exact H2.
Qed.

Lemma found_of_kept {A : Type} (m : M A) :
  keeps (kept servo_id_of) m -> keeps found m.
Proof. intros K w a w' H. left. apply K in H. exact H. Qed.

Lemma servo_id_of_event (e : event) (w : world) :
  servo_id_of (apply_event w e) = servo_id_of w.
Proof.
  destruct e as [t|d x|d]; cbn; [destruct (running t (hal w))|..]; reflexivity.
Qed.

Ltac kept_servo_id :=
  keep_with (kept_refl servo_id_of) (kept_trans servo_id_of)
            ltac:(kept_leaves (fun (d : rxdev) (l : list Z) (w : world) =>
                                 eq_refl (servo_id_of w))
                              (fun (l : list (list event)) (w : world) =>
                                 eq_refl (servo_id_of w))
                              servo_id_of_event).

Section Boot.

Variable readChar : list Z -> Z * list Z.

Lemma found_commandReady : keeps found (commandReady readChar).
Proof.
  intros w c w' H. left. apply commandReady_identity in H.
  destruct H as (_ & _ & G). apply G. reflexivity.
Qed.

Lemma found_servoInstruction (a b c d e : Z) :
  keeps found (servoInstruction a b c d e).
Proof.
  intros w u w' H. left. apply servoInstruction_emits in H.
  destruct H as (_ & _ & _ & _ & G). apply G; discriminate.
Qed.

Ltac found_leaf :=
  idtac;
  lazymatch goal with
  | |- keeps _ (commandReady _) => apply found_commandReady
  | |- keeps _ (servoInstruction _ _ _ _ _) => apply found_servoInstruction
  | |- keeps _ (set SERVO_ID ?s) =>
      let H := fresh "H" in
      intros ? ? ? H; inversion H; subst; right; cbn;
      match goal with
      | Hr : (_ && _) = true |- _ =>
          apply andb_true_iff in Hr; destruct Hr as [Hr1 Hr2];
          rewrite Z.geb_le in Hr1; apply Z.leb_le in Hr2;
          split; assumption
      end
  | |- keeps _ _ => apply found_of_kept; kept_servo_id
  end.

(** The search ends with an ID a servo can have. *)
Lemma find_servo_found (fw : Z) (w : world) (fw' : Z) (w' : world) :
  find_servo readChar fw w = Some (fw', w') ->
  found w w' /\ glob w' SERVO_ID <> SERVO_START.
Proof.
  intros H. unfold find_servo in H.
  apply (loop_inv (fun _ w1 => found w w1)) in H.
  - destruct H as [Hf Hc]. split; [exact Hf|]. apply Z.eqb_neq. exact Hc.
  - intros l w1 l2 w2 Hf _ Hb. eapply found_trans; [exact Hf|].
    revert Hb. generalize w1 l2 w2.
    change (keeps found
              (find_attempts readChar ;;
               s <- get SERVO_ID ;;
               (if (s =? SERVO_START) && (l =? 0) then ret 1 else ret l))).
    unfold find_attempts, find_listen.
    keep_with found_refl found_trans ltac:(found_leaf).
  - apply found_refl.
Qed.

Lemma concat_repeat_add {A : Type} (x : list A) (n m : nat) :
  concat (repeat x n) ++ concat (repeat x m) = concat (repeat x (n + m)).
Proof.
  induction n as [|n IH]; simpl; [reflexivity|].
  rewrite <- app_assoc, IH. reflexivity.
Qed.

(** One listening loop of the search puts nothing on the wires. *)
Lemma find_listen_wires (i : Z) : keeps same_wires (find_listen readChar i).
Proof.
  intros w i' w' H. unfold find_listen in H. frame_of H id_and_configured all_tx.
  destruct H as (_ & Hw & _). intros d. apply Hw. reflexivity.
Qed.

(** One round of the search: between one and ten PINGs. *)
Lemma find_attempts_wire (w : world) (i' : Z) (w' : world) :
  find_attempts readChar w = Some (i', w') ->
  wire TX_23 (hal w') = wire TX_23 (hal w) /\
  exists k : nat,
    (1 <= k)%nat /\ wire TX_014 (hal w') = wire TX_014 (hal w) ++ pings k.
Proof.
  intros H. unfold find_attempts in H.
  apply (loop_inv
           (fun i w1 =>
              wire TX_23 (hal w1) = wire TX_23 (hal w) /\
              exists k : nat,
                wire TX_014 (hal w1) = wire TX_014 (hal w) ++ pings k /\
                (i = 0 \/ (1 <= k)%nat))) in H.
  - destruct H as ((W23 & k & W14 & J) & Hc). split; [exact W23|].
    exists k. split; [|exact W14].
    destruct J as [->|J]; [discriminate|exact J].
  - intros i w1 i2 w3 (W23 & k & W14 & _) _ Hbody.
    split_run Hbody. split_run Hbody. inversion Hbody; subst i2 w3.
    apply servoInstruction_emits in E. destruct E as (E14 & E23 & _).
    apply find_listen_wires in E0.
    split; [rewrite E0, E23; exact W23|].
    exists (S k). split; [|right; lia].
    rewrite E0, E14, W14, <- app_assoc. f_equal. apply concat_repeat_snoc.
  - split; [reflexivity|]. exists 0%nat. split; [|left; reflexivity].
    cbn. rewrite app_nil_r. reflexivity.
Qed.

(** The whole search: PINGs, at least one when it had to search. *)
Lemma find_servo_wire (fw : Z) (w : world) (fw' : Z) (w' : world) :
  find_servo readChar fw w = Some (fw', w') ->
  wire TX_23 (hal w') = wire TX_23 (hal w) /\
  exists k : nat,
    wire TX_014 (hal w') = wire TX_014 (hal w) ++ pings k /\
    (glob w SERVO_ID = SERVO_START -> (1 <= k)%nat).
Proof.
  intros H. unfold find_servo in H.
  apply (loop_inv
           (fun (_ : Z) w1 =>
              wire TX_23 (hal w1) = wire TX_23 (hal w) /\
              exists k : nat,
                wire TX_014 (hal w1) = wire TX_014 (hal w) ++ pings k /\
                (w1 = w \/ (1 <= k)%nat))) in H.
  - destruct H as ((W23 & k & W14 & J) & Hc). split; [exact W23|].
    exists k. split; [exact W14|]. intros Hs.
    destruct J as [->|J]; [|exact J].
    apply Z.eqb_neq in Hc. exfalso. exact (Hc Hs).
  - intros l w1 l2 w3 (W23 & k & W14 & _) _ Hbody.
    split_run Hbody. rewrite bind_get in Hbody.
    assert (Hw : w3 = w0)
      by (destruct ((glob w0 SERVO_ID =? SERVO_START) && (l =? 0));
          inversion Hbody; reflexivity).
    subst w3. apply find_attempts_wire in E.
    destruct E as (E23 & k2 & Hk2 & E14).
    split; [rewrite E23; exact W23|].
    exists (k + k2)%nat. split; [|right; lia].
    rewrite E14, W14, <- app_assoc. f_equal. apply concat_repeat_add.
  - split; [reflexivity|]. exists 0%nat. split; [|left; reflexivity].
    cbn. rewrite app_nil_r. reflexivity.
Qed.

(** One listening loop of the level check. *)
Lemma level_listen_run (l : Z * Z) (w : world) (l' : Z * Z) (w' : world) :
  level_listen readChar l w = Some (l', w') ->
  stable ids all_tx w w' /\
  (l' = l \/ (l' = (SERVO_COMM_ATTEMPTS, STATUS_RET_LEVEL) /\ level_read w')).
Proof.
  intros H.
  assert (Hs : stable ids all_tx w w')
    by (unfold level_listen in H; frame_of H ids all_tx; exact H).
  split; [exact Hs|]. unfold level_listen in H.
  apply (spin_inv
           (fun l1 w1 =>
              l1 = l \/
              (l1 = (SERVO_COMM_ATTEMPTS, STATUS_RET_LEVEL) /\
               level_read w1))) in H.
  - apply H.
  - intros l1 w1 u w2 l2 w3 J Hc _ Hbody.
    destruct J as [->|(_ & HT & _)];
      [|cbn in Hc; rewrite HT in Hc; discriminate].
    split_run Hbody.
    destruct (negb (a =? 0)); [|inversion Hbody; left; reflexivity].
    rewrite bind_get in Hbody.
    destruct (glob w0 COMMAND_ERROR =? 0) eqn:He;
      [|inversion Hbody; left; reflexivity].
    rewrite bind_get in Hbody.
    destruct (glob w0 COMMAND_PARAM =? STATUS_RET_LEVEL) eqn:Hp;
      autorewrite with run in Hbody; inversion Hbody; subst.
    + right. apply Z.eqb_eq in Hp, He. rewrite Hp.
      split; [reflexivity|]. repeat split; cbn; assumption.
    + left. reflexivity.
  - left. reflexivity.
Qed.

(** One round of the level check: READs to the servo found, at least one. *)
Lemma level_attempts_run (srl : Z) (w : world) (l' : Z * Z) (w' : world) :
  level_attempts readChar srl w = Some (l', w') ->
  wire TX_23 (hal w') = wire TX_23 (hal w) /\
  glob w' SERVO_ID = glob w SERVO_ID /\
  (exists j : nat,
      (1 <= j)%nat /\
      wire TX_014 (hal w') =
        wire TX_014 (hal w) ++ level_reads (glob w SERVO_ID) j) /\
  (snd l' = srl \/ (snd l' = STATUS_RET_LEVEL /\ level_read w')).
Proof.
  intros H. unfold level_attempts in H.
  apply (loop_inv
           (fun (l1 : Z * Z) w1 =>
              wire TX_23 (hal w1) = wire TX_23 (hal w) /\
              glob w1 SERVO_ID = glob w SERVO_ID /\
              (exists j : nat,
                  wire TX_014 (hal w1) =
                    wire TX_014 (hal w) ++ level_reads (glob w SERVO_ID) j /\
                  (fst l1 = 0 \/ (1 <= j)%nat)) /\
              (snd l1 = srl \/
               (l1 = (11, STATUS_RET_LEVEL) /\ level_read w1)))) in H.
  - destruct H as ((W23 & HS & (j & W14 & Hj) & J) & Hc).
    split; [exact W23|]. split; [exact HS|]. split.
    + exists j. split; [|exact W14].
      destruct Hj as [Hj|Hj]; [|exact Hj].
      rewrite Hj in Hc. discriminate.
    + destruct J as [J|(-> & L)]; [left; exact J|right].
      split; [reflexivity|exact L].
  - intros l1 w1 l2 w3 (W23 & HS & (j & W14 & _) & J) Hc Hbody.
    destruct J as [Hsrl|(-> & _)]; [|discriminate].
    rewrite bind_get in Hbody. split_run Hbody. split_run Hbody.
    inversion Hbody; subst l2 w3.
    apply servoInstruction_emits in E.
    destruct E as (E14 & E23 & _ & _ & Eg).
    apply level_listen_run in E0. destruct E0 as ((Lg & Lw & _) & L).
    split; [rewrite (Lw TX_23), E23 by reflexivity; exact W23|].
    split; [rewrite (Lg SERVO_ID), Eg by (reflexivity || discriminate);
            exact HS|].
    split.
    + exists (S j). split; [|right; lia].
      rewrite (Lw TX_014), E14, W14, HS, <- app_assoc by reflexivity.
      f_equal. apply concat_repeat_snoc.
    + destruct L as [->|(-> & L)]; [left; exact Hsrl|right].
      split; [reflexivity|exact L].
  - split; [reflexivity|]. split; [reflexivity|]. split.
    + exists 0%nat. split; [|left; reflexivity].
      cbn. rewrite app_nil_r. reflexivity.
    + left. reflexivity.
Qed.

(** The whole level check, entered with a level other than the wanted one. *)
Lemma level_check_run (srl : Z) (w : world) (srl' : Z) (w' : world) :
  srl <> STATUS_RET_LEVEL ->
  level_check readChar srl w = Some (srl', w') ->
  wire TX_23 (hal w') = wire TX_23 (hal w) /\
  glob w' SERVO_ID = glob w SERVO_ID /\
  (exists j : nat,
      (1 <= j)%nat /\
      wire TX_014 (hal w') =
        wire TX_014 (hal w) ++ level_reads (glob w SERVO_ID) j) /\
  level_read w'.
Proof.
  intros Hne H. unfold level_check in H.
  apply (loop_inv
           (fun l w1 =>
              wire TX_23 (hal w1) = wire TX_23 (hal w) /\
              glob w1 SERVO_ID = glob w SERVO_ID /\
              exists j : nat,
                wire TX_014 (hal w1) =
                  wire TX_014 (hal w) ++ level_reads (glob w SERVO_ID) j /\
                ((l = srl /\ w1 = w) \/
                 (l = srl /\ (1 <= j)%nat) \/
                 (l = STATUS_RET_LEVEL /\ (1 <= j)%nat /\ level_read w1)))) in H.
  - destruct H as ((W23 & HS & j & W14 & J) & Hc).
    apply negb_false_iff, Z.eqb_eq in Hc.
    destruct J as [(-> & _)|[(-> & _)|(_ & Hj & L)]];
      try (exfalso; exact (Hne Hc)).
    split; [exact W23|]. split; [exact HS|]. split; [|exact L].
    exists j. split; assumption.
  - intros l w1 l2 w3 (W23 & HS & j & W14 & J) Hc Hbody.
    apply negb_true_iff, Z.eqb_neq in Hc.
    assert (Hl : l = srl)
      by (destruct J as [(-> & _)|[(-> & _)|(-> & _)]];
          [reflexivity|reflexivity|exfalso; apply Hc; reflexivity]).
    subst l. split_run Hbody. inversion Hbody; subst l2 w3.
    apply level_attempts_run in E.
    destruct E as (E23 & ES & (j2 & Hj2 & E14) & L).
    split; [rewrite E23; exact W23|]. split; [rewrite ES; exact HS|].
    exists (j + j2)%nat. split.
    + rewrite E14, W14, HS, <- app_assoc. f_equal. apply concat_repeat_add.
    + destruct L as [->|(-> & L)]; right; [left|right].
      * split; [reflexivity|lia].
      * split; [reflexivity|]. split; [lia|exact L].
  - split; [reflexivity|]. split; [reflexivity|].
    exists 0%nat. split; [|left; split; reflexivity].
    cbn. rewrite app_nil_r. reflexivity.
Qed.

(** [servoFinder], entered with no servo known. *)
Lemma servoFinder_run (w w' : world) (u : unit) :
  glob w SERVO_ID = SERVO_START ->
  servoFinder readChar w = Some (u, w') ->
  SERVO_ID_MIN <= glob w' SERVO_ID <= SERVO_ID_MAX /\
  glob w' STATE = WAIT /\ level_read w' /\
  wire TX_23 (hal w') = wire TX_23 (hal w) /\
  exists k j : nat,
    (1 <= k)%nat /\ (1 <= j)%nat /\
    wire TX_014 (hal w') =
      wire TX_014 (hal w) ++ pings k ++ level_reads (glob w' SERVO_ID) j.
Proof.
  intros Hs H. unfold servoFinder in H. split_run H. split_run H.
  destruct (find_servo_found _ _ _ _ E) as [Hf Hn].
  apply find_servo_wire in E. destruct E as (F23 & k & F14 & Hk).
  apply level_check_run in E0;
    [|unfold STATUS_RET_LEVEL, STATUS_RET_READ; discriminate].
  destruct E0 as (L23 & LS & (j & Hj & L14) & (LT & LP & LE)).
  destruct (configToggle_WAIT w1) as (w3 & E3 & S3 & G3 & _ & _ & _ & W3).
  rewrite E3 in H. inversion H; subst w3.
  assert (GS : glob w' SERVO_ID = glob w0 SERVO_ID)
    by (rewrite G3 by discriminate; exact LS).
  split.
  { rewrite GS. destruct Hf as [Hf|Hf]; [|exact Hf].
    exfalso. apply Hn. rewrite Hf. exact Hs. }
  split; [exact S3|]. split.
  { repeat split; rewrite G3 by discriminate; assumption. }
  split; [rewrite W3, L23; exact F23|].
  exists k, j. split; [apply Hk, Hs|]. split; [exact Hj|].
  rewrite W3, L14, F14, GS, <- app_assoc. reflexivity.
Qed.

(** The initialisation of [main], when it returns. *)
Lemma main_init_run (w0 w : world) (u : unit) :
  main_init readChar w0 = Some (u, w) ->
  SERVO_ID_MIN <= glob w SERVO_ID <= SERVO_ID_MAX /\
  glob w COMMAND_PARAM = STATUS_RET_LEVEL /\ glob w COMMAND_ERROR = 0 /\
  glob w STATE = WAIT /\ glob w ID = DEFAULT_ID /\
  glob w CONFIGURED = 0 /\ glob w CHILD = 0 /\
  wire TX_23 (hal w) = wire TX_23 (hal w0) /\
  exists k j : nat,
    (1 <= k)%nat /\ (1 <= j)%nat /\
    wire TX_014 (hal w) =
      wire TX_014 (hal w0) ++ pings k ++ level_reads (glob w SERVO_ID) j.
Proof.
  unfold main_init. intros H. autorewrite with run in H.
  assert (Hi : stable id_and_configured no_tx
                 (log_call EnableIntMask
                    (log_call EnableGInt
                       (set_glob ID DEFAULT_ID
                          (set_glob SERVO_ID 255
                             (set_glob STATE 0
                                (set_glob COMMAND_PARAM 0
                                   (set_glob TIMEOUT 0
                                      (set_glob CONFIGURED 0
                                         (set_glob CHILD 0 w0)))))))))
                 w)
    by (eapply (stable_servoFinder readChar id_and_configured no_tx);
        try reflexivity; exact H).
  destruct Hi as (Gi & _).
  assert (Ha := away_servoFinder readChar _ _ _ H).
  apply servoFinder_run in H; [|reflexivity].
  destruct H as (R & S & (_ & LP & LE) & W23 & k & j & Hk & Hj & W14).
  split; [exact R|]. split; [exact LP|]. split; [exact LE|].
  split; [exact S|].
  split; [rewrite (Gi ID) by reflexivity; reflexivity|].
  split; [rewrite (Gi CONFIGURED) by reflexivity; reflexivity|].
  split.
  { destruct Ha as [_ Hc]; [cbn; discriminate|]. rewrite Hc. reflexivity. }
  split; [exact W23|]. exists k, j. split; [exact Hk|]. split; [exact Hj|].
  exact W14.
Qed.

(** X14.  [main] does not reach its endless loop before its servo has
    answered: when the initialisation returns, [SERVO_ID] is an ID from 0 to
    253, taken from an error-free reply; the last reply read carried the
    wanted status return level and no error; the module is in the Wait
    role with the default ID, unconfigured and without a child.  All it
    has transmitted is, on TX_014, one or more broadcast PINGs followed by
    one or more READs of the status return level addressed to the servo it
    found, and nothing on TX_23. *)
Theorem boot_finds_the_servo (w0 w : world) (u : unit) :
  main_init readChar w0 = Some (u, w) ->
  SERVO_ID_MIN <= glob w SERVO_ID <= SERVO_ID_MAX /\
  glob w COMMAND_PARAM = STATUS_RET_LEVEL /\ glob w COMMAND_ERROR = 0 /\
  glob w STATE = WAIT /\ glob w ID = DEFAULT_ID /\
  glob w CONFIGURED = 0 /\ glob w CHILD = 0 /\
  wire TX_23 (hal w) = wire TX_23 (hal w0) /\
  exists k j : nat,
    (1 <= k)%nat /\ (1 <= j)%nat /\
    wire TX_014 (hal w) =
      wire TX_014 (hal w0) ++ pings k ++ level_reads (glob w SERVO_ID) j.
Proof. exact (main_init_run w0 w u). Qed.

(** The accepted branch of ID_ASSIGNMENT, main.c lines 554-605, as to the
    standing of the module. *)
Lemma accept_id_standing (p : Z) (w w' : world) (u : unit) :
  glob w STATE <> HELLO_MODE ->
  (set ID p ;;
   set CONFIGURED 1 ;;
   assignedID ;;
   id' <- get ID ;;
   s <- get SERVO_ID ;;
   when (negb (id' =? s)) (reid readChar)) w = Some (u, w') ->
  glob w' ID = p /\ glob w' CONFIGURED = 1 /\ glob w' SERVO_ID = p /\
  glob w' STATE = WAIT /\ glob w' CHILD = glob w CHILD.
Proof.
  intros Hs H. autorewrite with run in H. split_run H.
  apply respond_emits in E. destruct E as (_ & _ & S0 & Hg).
  assert (G1 : glob w0 ID = p)
    by (rewrite (Hg ID) by discriminate; reflexivity).
  assert (G2 : glob w0 CONFIGURED = 1)
    by (rewrite (Hg CONFIGURED) by discriminate; reflexivity).
  assert (G3 : glob w0 CHILD = glob w CHILD)
    by (rewrite (Hg CHILD) by discriminate; reflexivity).
  autorewrite with run in H.
  destruct (glob w0 ID =? glob w0 SERVO_ID) eqn:He; cbn [negb when] in H.
  - inversion H; subst w'. apply Z.eqb_eq in He.
    repeat split; try assumption. rewrite <- He. exact G1.
  - apply Z.eqb_neq in He.
    assert (Ha := away_reid readChar _ _ _ H).
    assert (Hc : stable id_and_configured no_tx w0 w')
      by (eapply (stable_reid readChar id_and_configured no_tx);
          try reflexivity; exact H).
    apply reid_run in H; [|exact He].
    destruct H as (_ & (AI & AS & AW & _) & _).
    destruct Ha as [_ Hch]; [rewrite S0; discriminate|].
    destruct Hc as (Hc & _).
    rewrite G1 in AI, AS.
    repeat split; try assumption.
    + rewrite (Hc CONFIGURED) by reflexivity. exact G2.
    + rewrite Hch. exact G3.
Qed.

(** A step that leaves the standing alone and ends in the Wait role. *)
Lemma settled_standing (q : txdev -> bool) (w w' : world) :
  settled w -> stable standing q w w' -> glob w' STATE = WAIT -> settled w'.
Proof.
  intros (_ & C01 & Cu & Cc & Cch & Cs) (G & _) S. unfold settled.
  rewrite (G ID), (G CONFIGURED), (G SERVO_ID), (G CHILD) by reflexivity.
  repeat split; try assumption; try apply Cu; try apply Cs; assumption.
Qed.

(** The handler takes a settled module to a settled module. *)
Lemma takeAction_settled (w w' : world) (u : unit) :
  settled w -> takeAction readChar w = Some (u, w') -> settled w'.
Proof.
  intros Hw H.
  assert (Hnh : glob w STATE <> HELLO_MODE)
    by (destruct Hw as (S & _); rewrite S; discriminate).
  unfold takeAction in H. rewrite bind_get in H.
  destruct (glob w COMMAND_TYPE =? HELLO_BYTE).
  { rewrite !bind_get in H.
    destruct (glob w CONFIGURED =? 0) eqn:Ec.
    - destruct (sayHello_waits _ _ _ H) as [_ S2].
      eapply (settled_standing no_tx); [exact Hw| |exact S2].
      eapply (stable_sayHello standing no_tx); try reflexivity. exact H.
    - destruct (glob w CHILD =? 0) eqn:Ech.
      + apply hello_listen_run in H.
        destruct H as (S2 & GI & GC & GS & _ & J).
        destruct Hw as (_ & C01 & Cu & Cc & Cch & Cs).
        apply Z.eqb_neq in Ec. unfold settled. rewrite GI, GC, GS.
        split; [exact S2|]. split; [exact C01|].
        split; [intros Hc; exfalso; exact (Ec Hc)|].
        split; [exact Cc|]. split; [|exact Cs].
        destruct J as [(-> & _)|(P & _)]; [exact Cch|right; exact P].
      + cbn [negb] in H. split_run H. inversion H; subst w0.
        apply childResponse_forward in E; [|exact Hnh].
        destruct E as (_ & K & S2 & _).
        eapply settled_standing; eauto. }
  destruct (glob w COMMAND_TYPE =? PING).
  { rewrite !bind_get in H.
    destruct (glob w COMMAND_DESTINATION =? glob w ID).
    - assert (K : stable standing no_tx w w')
        by (eapply (stable_respond standing no_tx); try reflexivity; exact H).
      apply respond_emits in H. destruct H as (_ & _ & S2 & _).
      eapply settled_standing; eauto.
    - destruct (glob w COMMAND_DESTINATION >? glob w ID).
      + split_run H. inversion H; subst w0.
        apply childResponse_forward in E; [|exact Hnh].
        destruct E as (_ & K & S2 & _).
        eapply settled_standing; eauto.
      + inversion H; subst. exact Hw. }
  destruct (glob w COMMAND_TYPE =? ID_ASSIGNMENT).
  { rewrite !bind_get in H.
    destruct (glob w COMMAND_DESTINATION =? glob w ID).
    - rewrite bind_get in H.
      destruct ((glob w COMMAND_PARAM >? MASTER_ID) &&
                (glob w COMMAND_PARAM <? DEFAULT_ID)) eqn:Hin.
      + apply accept_id_standing in H; [|exact Hnh].
        destruct H as (G1 & G2 & G3 & S2 & G4).
        apply andb_true_iff in Hin. destruct Hin as [H0 H1].
        rewrite Z.gtb_ltb in H0. apply Z.ltb_lt in H0, H1.
        unfold MASTER_ID, DEFAULT_ID in *.
        destruct Hw as (_ & _ & _ & _ & Cch & _).
        unfold settled. rewrite G1, G2, G3, G4.
        split; [exact S2|]. split; [right; reflexivity|].
        split; [intros Hc; discriminate|]. split; [reflexivity|].
        split; [exact Cch|]. unfold SERVO_ID_MIN, SERVO_ID_MAX. lia.
      + inversion H; subst. exact Hw.
    - destruct (glob w COMMAND_DESTINATION >? glob w ID).
      + split_run H. inversion H; subst w0.
        apply childResponse_forward in E; [|exact Hnh].
        destruct E as (_ & K & S2 & _).
        eapply settled_standing; eauto.
      + inversion H; subst. exact Hw. }
  destruct (glob w COMMAND_TYPE =? CLEAR_CONFIG).
  { rewrite !bind_get in H. split_run H.
    assert (Hw0 : settled w0).
    { destruct (glob w COMMAND_DESTINATION =? glob w ID); cbn [when] in E.
      - assert (K : stable standing no_tx w w0)
          by (eapply (stable_respond standing no_tx); try reflexivity;
              exact E).
        apply respond_emits in E. destruct E as (_ & _ & S2 & _).
        eapply settled_standing; eauto.
      - inversion E; subst. exact Hw. }
    rewrite !bind_get in H.
    destruct ((glob w0 COMMAND_DESTINATION <=? glob w0 ID) ||
              (glob w0 COMMAND_DESTINATION =? BROADCAST));
      cbn [when] in H; autorewrite with run in H; inversion H; subst w'.
    - destruct Hw0 as (S & _ & _ & _ & _ & Cs).
      unfold settled. cbn.
      split; [exact S|]. split; [left; reflexivity|].
      split; [intros _; split; reflexivity|].
      split; [intros Hc; discriminate|].
      split; [left; reflexivity|exact Cs].
    - exact Hw0. }
  inversion H; subst. exact Hw.
Qed.

Lemma settled_reads (w w' : world) :
  settled w -> reads_only identity_and_child w w' -> settled w'.
Proof.
  intros (S & C01 & Cu & Cc & Cch & Cs) (_ & _ & G). unfold settled.
  rewrite (G STATE), (G ID), (G CONFIGURED), (G SERVO_ID), (G CHILD)
    by reflexivity.
  repeat split; try assumption; try apply Cu; try apply Cs; assumption.
Qed.

Lemma main_pass_settled (w w' : world) (u : unit) :
  settled w -> main_pass readChar w = Some (u, w') -> settled w'.
Proof.
  intros Hw H. unfold main_pass in H. split_run H. split_run H.
  apply (reads_pause identity_and_child) in E; [|reflexivity].
  apply settled_reads in E; [|exact Hw].
  assert (Hw1 : settled w1).
  { eapply settled_reads; [exact E|].
    eapply commandReady_child; [|exact E0].
    destruct E as (S & _). rewrite S. discriminate. }
  destruct (negb (a0 =? 0)); cbn [when] in H.
  - eapply takeAction_settled; eauto.
  - inversion H; subst. exact Hw1.
Qed.

Lemma main_init_settled (w0 w : world) (u : unit) :
  main_init readChar w0 = Some (u, w) -> settled w.
Proof.
  intros H. apply main_init_run in H.
  destruct H as (R & _ & _ & S & GI & GC & GCh & _).
  unfold settled. rewrite GC, GI, GCh.
  split; [exact S|]. split; [left; reflexivity|].
  split; [intros _; split; reflexivity|].
  split; [intros Hc; discriminate|].
  split; [left; reflexivity|exact R].
Qed.

Lemma reachable_settled (w : world) : reachable readChar w -> settled w.
Proof.
  intros Hr. induction Hr as [w0 w u H|w w' u Hr IH H].
  - eapply main_init_settled, H.
  - eapply main_pass_settled; eauto.
Qed.

(** X13.  Whenever the module waits for the next frame of the master it is
    settled: in the Wait role, with [CONFIGURED] 0 or 1, an unconfigured
    module having the default ID and no child, the servo of a configured
    module carrying the ID of the module, [CHILD] being 0 or one of the
    port letters, and [SERVO_ID] lying in 0..253.  The handler takes a
    settled module to a settled module. *)
Theorem settled_between_frames (w : world) :
  reachable readChar w ->
  settled w /\
  forall u w', takeAction readChar w = Some (u, w') -> settled w'.
Proof.
  intros Hr. apply reachable_settled in Hr. split; [exact Hr|].
  intros u w' H. eapply takeAction_settled; eauto.
Qed.

Lemma main_init_role (w0 w : world) (u : unit) :
  main_init readChar w0 = Some (u, w) -> role_matches w.
Proof.
  unfold main_init. intros H. autorewrite with run in H.
  apply role_servoFinder in H. apply H. left. reflexivity.
Qed.

Lemma main_pass_role : keeps keeps_role (main_pass readChar).
Proof.
  unfold main_pass.
  keep_with keeps_role_refl keeps_role_trans
    ltac:(idtac;
          lazymatch goal with
          | |- keeps _ (commandReady _) => apply role_commandReady
          | |- keeps _ (takeAction _) => apply role_takeAction
          | |- keeps _ _ => apply keeps_role_of_view; kept_role
          end).
Qed.

Lemma reachable_role (w : world) : reachable readChar w -> role_matches w.
Proof.
  intros Hr. induction Hr as [w0 w u H|w w' u Hr IH H].
  - eapply main_init_role, H.
  - eapply main_pass_role; eauto.
Qed.

Lemma one_role_waiting (w : world) :
  glob w STATE = WAIT -> role_matches w ->
  forall c, loaded c (hal w) = true <-> c = waiting.
Proof.
  intros S [J|J]; [rewrite S in J; discriminate|].
  intros c. rewrite (J c), S. cbn. split; intros H.
  - inversion H. reflexivity.
  - subst. reflexivity.
Qed.

(** X12.  The code keeps one configuration loaded at a time.  Whenever the
    module waits for the next frame of the master, the waiting
    configuration is loaded and no other.  From there the handler returns
    with exactly the waiting configuration loaded again, and a role switch
    to any of the eight roles returns with exactly the configuration of
    that role loaded and [STATE] naming it. *)
Theorem one_configuration_loaded (w : world) :
  reachable readChar w ->
  (forall c, loaded c (hal w) = true <-> c = waiting) /\
  (forall u w',
      takeAction readChar w = Some (u, w') ->
      forall c, loaded c (hal w') = true <-> c = waiting) /\
  (forall mode u w',
      WAIT <= mode <= INITIALIZE ->
      configToggle mode w = Some (u, w') ->
      glob w' STATE = mode /\
      forall c, loaded c (hal w') = true <-> role_config mode = Some c).
Proof.
  intros Hr.
  assert (Hs := reachable_settled _ Hr). assert (Hj := reachable_role _ Hr).
  split; [|split].
  - apply one_role_waiting; [apply Hs|exact Hj].
  - intros u w' H. apply one_role_waiting.
    + eapply takeAction_settled; eauto.
    + eapply role_takeAction; eauto.
  - intros mode u w' Hm H.
    destruct (configToggle_one_role _ _ _ _ Hm Hj H) as [J S].
    split; [exact S|]. intros c. rewrite <- S. apply J.
Qed.

End Boot.

(** X15.  [configToggle] does not check its argument: called with a number
    that names no role, it still takes the pins off the bus and unloads the
    configuration of the current role, loads nothing and leaves [STATE]
    naming the role it has just unloaded. *)
Theorem role_switch_to_no_role (mode : Z) (w : world) :
  ~ (WAIT <= mode <= INITIALIZE) ->
  role_matches w ->
  exists w',
    configToggle mode w = Some (tt, w') /\
    glob w' STATE = glob w STATE /\
    forall c, loaded c (hal w') = false.
Proof.
  intros Hm J.
  destruct (release_role_total w) as (w1 & E1 & G1 & _).
  assert (E2 : enter_role mode w1 = Some (tt, w1)).
  { unfold enter_role.
    assert (Hn : (mode =? WAIT) = false /\ (mode =? MY_RESPONSE) = false /\
                 (mode =? RESPONSE_1) = false /\ (mode =? RESPONSE_2) = false /\
                 (mode =? RESPONSE_3) = false /\ (mode =? RESPONSE_4) = false /\
                 (mode =? HELLO_MODE) = false /\ (mode =? INITIALIZE) = false).
    { unfold WAIT, HELLO_MODE, RESPONSE_1, RESPONSE_2, RESPONSE_3, RESPONSE_4,
        INITIALIZE, MY_RESPONSE in *.
      repeat split; apply Z.eqb_neq; lia. }
    destruct Hn as (H1 & H2 & H3 & H4 & H5 & H6 & H7 & H8).
    rewrite H1, H2, H3, H4, H5, H6, H7, H8. reflexivity. }
  destruct (attach_bus_total w1) as (w3 & E3 & (G3 & _) & H3).
  exists w3. split.
  - unfold configToggle. rewrite (bind_run _ _ _ _ _ E1).
    rewrite (bind_run _ _ _ _ _ E2). exact E3.
  - rewrite G3, G1, H3. split; [reflexivity|].
    apply (release_role_clears _ _ _ J E1).
Qed.

(** ** The timers that run *)

Lemma keeps_tidy_refl (w : world) : keeps_tidy w w.
Proof. intros H. exact H. Qed.

Lemma keeps_tidy_trans (a b c : world) :
  keeps_tidy a b -> keeps_tidy b c -> keeps_tidy a c.
Proof. unfold keeps_tidy. auto. Qed.

Lemma timer_view_keeps (w w' : world) : kept timer_view w w' -> keeps_tidy w w'.
Proof.
  unfold kept, timer_view. intros E. inversion E as [[Es El Er]].
  assert (Hl : forall c, loaded c (hal w') = loaded c (hal w)).
  { intros c. change (loaded c (hal w')) with ((fun c => loaded c (hal w')) c).
    rewrite El. reflexivity. }
  assert (Hr : forall t, running t (hal w') = running t (hal w)).
  { intros t. change (running t (hal w')) with ((fun t => running t (hal w')) t).
    rewrite Er. reflexivity. }
  intros [J|[J T]]; [left; congruence|right]. split.
  - intros c. rewrite Es, Hl. apply J.
  - intros t. rewrite Hr, Hl. apply T.
Qed.

Lemma tidy_role (w : world) : tidy w -> role_matches w.
Proof. intros [J|[J _]]; [left|right]; exact J. Qed.

Lemma timer_view_event (e : event) (w : world) :
  timer_view (apply_event w e) = timer_view w.
Proof.
  destruct e as [t|d x|d]; cbn; [destruct (running t (hal w))|..]; reflexivity.
Qed.

Lemma running_view_event (e : event) (w : world) :
  running_view (apply_event w e) = running_view w.
Proof.
  destruct e as [t|d x|d]; cbn; [destruct (running t (hal w))|..]; reflexivity.
Qed.

Lemma keeps_tidy_of_view {A : Type} (m : M A) :
  keeps (kept timer_view) m -> keeps keeps_tidy m.
Proof. intros K w a w' H. apply timer_view_keeps. eapply K, H. Qed.

Ltac kept_timer :=
  keep_with (kept_refl timer_view) (kept_trans timer_view)
            ltac:(kept_leaves (fun (d : rxdev) (l : list Z) (w : world) =>
                                 eq_refl (timer_view w))
                              (fun (l : list (list event)) (w : world) =>
                                 eq_refl (timer_view w))
                              timer_view_event).

(** Stopping a timer leaves the books in order. *)
Lemma tidy_TimerStop (t : timer) : keeps keeps_tidy (call (TimerStop t)).
Proof.
  intros w u w' H [J|[J T]]; inversion H; subst; [left; exact J|right].
  split; [exact J|].
  intros t' Hr. cbn in Hr. cbn.
  destruct (timer_eq_dec t' t); [discriminate|]. apply T, Hr.
Qed.

(** Leaving a role stops every timer. *)
Lemma release_role_stops (w w' : world) (u : unit) :
  tidy w ->
  release_role w = Some (u, w') ->
  (forall c, loaded c (hal w') = false) /\
  (forall t, running t (hal w') = false) /\ glob w' = glob w.
Proof.
  intros Hw H.
  destruct (release_role_clears _ _ _ (tidy_role _ Hw) H) as [Hoff Hg].
  split; [exact Hoff|]. split; [|exact Hg].
  unfold release_role in H.
  rewrite bind_reg_or, bind_reg_and, bind_get in H. cbn [glob set_reg] in H.
  destruct (glob w STATE =? 0) eqn:E0; cbn [negb] in H.
  - inversion H; subst. intros t. destruct t; reflexivity.
  - apply Z.eqb_neq in E0.
    destruct Hw as [J|[J T]]; [exfalso; exact (E0 J)|].
    assert (Hrun : forall t c0,
               role_config (glob w STATE) = c0 -> c0 <> Some (timer_config t) ->
               running t (hal w) = false).
    { intros t c0 Hc Hn. destruct (running t (hal w)) eqn:R; [|reflexivity].
      apply T, J in R. exfalso. apply Hn. rewrite <- Hc. exact R. }
    unfold role_config in Hrun. unfold unloadConfig in H.
    repeat match type of H with
           | (if ?b then _ else _) _ = Some _ => destruct b
           end;
      inversion H; subst w'; intros t; cbn [hal log_call set_reg running];
      try (destruct (config_eq_dec (timer_config t) _) as [|Hn];
           [reflexivity|]);
      eapply Hrun; try reflexivity; intros Hs; inversion Hs as [Hs'];
      apply Hn; symmetry; exact Hs'.
Qed.

Ltac kept_running :=
  keep_with (kept_refl running_view) (kept_trans running_view)
            ltac:(kept_leaves (fun (d : rxdev) (l : list Z) (w : world) =>
                                 eq_refl (running_view w))
                              (fun (l : list (list event)) (w : world) =>
                                 eq_refl (running_view w))
                              running_view_event).

Lemma settle_running : keeps (kept running_view) settle.
Proof. unfold settle. kept_running. Qed.

(** Entering a role with no timer running starts the timer of the role, and
    the response role has stopped its own again. *)
Lemma enter_role_arms (mode : Z) (w w' : world) (u : unit) :
  WAIT <= mode <= INITIALIZE ->
  (forall t, running t (hal w) = false) ->
  enter_role mode w = Some (u, w') ->
  forall t, running t (hal w') = true <-> role_timer mode = Some t.
Proof.
  intros Hm Hoff H.
  assert (Hc : mode = 1 \/ mode = 2 \/ mode = 3 \/ mode = 4 \/ mode = 5 \/
               mode = 6 \/ mode = 7 \/ mode = 8)
    by (unfold WAIT, INITIALIZE in Hm; lia).
  destruct Hc as [->|[->|[->|[->|[->|[->|[->| ->]]]]]]];
    cbn [enter_role Z.eqb Pos.eqb WAIT MY_RESPONSE RESPONSE_1 RESPONSE_2
         RESPONSE_3 RESPONSE_4 HELLO_MODE INITIALIZE] in H.
  2:{ autorewrite with run in H. split_run H.
      apply settle_running in E. autorewrite with run in H.
      inversion H; subst w'. intros t.
      cbn [hal log_call set_glob running].
      change (running t (hal w0)) with (running_view w0 t). rewrite E.
      unfold running_view. cbn [hal log_call set_glob running].
      destruct (timer_eq_dec t TX_01234_TIMEOUT) as [->|Hn].
      - split; intros Hx; discriminate.
      - rewrite Hoff. split; intros Hx; discriminate. }
  all: inversion H; subst w'; intros t; cbn [hal log_call set_glob running];
    match goal with
    | |- context [timer_eq_dec t ?t0] =>
        destruct (timer_eq_dec t t0) as [->|Hn];
        [split; intros _; reflexivity
        |rewrite Hoff; split; intros Hx; [discriminate|];
         inversion Hx as [Hx']; exfalso; apply Hn; symmetry; exact Hx']
    | |- _ => rewrite Hoff; split; intros Hx; discriminate
    end.
Qed.

(** A role switch leaves the books in order, and says which timer runs. *)
Lemma configToggle_tidy (mode : Z) (w w' : world) (u : unit) :
  WAIT <= mode <= INITIALIZE ->
  tidy w ->
  configToggle mode w = Some (u, w') ->
  tidy w' /\ glob w' STATE = mode /\
  forall t, running t (hal w') = true <-> role_timer mode = Some t.
Proof.
  intros Hm Hw H.
  destruct (configToggle_one_role _ _ _ _ Hm (tidy_role _ Hw) H) as [J S].
  unfold configToggle in H. split_run H. split_run H.
  apply release_role_stops in E; [|exact Hw]. destruct E as (_ & Roff & _).
  assert (Harm := enter_role_arms _ _ _ _ Hm Roff E0).
  destruct (attach_bus_total w1) as (w3 & E3 & _ & H3).
  rewrite E3 in H. inversion H; subst w3.
  assert (Hrun : forall t,
             running t (hal w') = true <-> role_timer mode = Some t)
    by (intros t; rewrite H3; apply Harm).
  split; [|split; [exact S|exact Hrun]].
  right. split; [exact J|].
  intros t Hr. apply Hrun in Hr. apply J. rewrite S.
  assert (Hc : mode = 1 \/ mode = 2 \/ mode = 3 \/ mode = 4 \/ mode = 5 \/
               mode = 6 \/ mode = 7 \/ mode = 8)
    by (unfold WAIT, INITIALIZE in Hm; lia).
  destruct Hc as [->|[->|[->|[->|[->|[->|[->| ->]]]]]]]; cbn in Hr;
    inversion Hr; subst; reflexivity.
Qed.

Lemma keeps_tidy_configToggle (mode : Z) :
  WAIT <= mode <= INITIALIZE -> keeps keeps_tidy (configToggle mode).
Proof.
  intros Hm w u w' H J. eapply configToggle_tidy; eauto.
Qed.

Section Timers.

Variable readChar : list Z -> Z * list Z.

Lemma tidy_commandReady : keeps keeps_tidy (commandReady readChar).
Proof. apply keeps_tidy_of_view. unfold commandReady. kept_timer. Qed.

Lemma tidy_wait_tx (d : txdev) : keeps keeps_tidy (wait_tx_complete d).
Proof. apply keeps_tidy_of_view. unfold wait_tx_complete. kept_timer. Qed.

Ltac tidy_leaf :=
  idtac;
  lazymatch goal with
  | |- keeps _ (configToggle _) =>
      apply keeps_tidy_configToggle; cbv; split; discriminate
  | |- keeps _ (call (TimerStop _)) => apply tidy_TimerStop
  | |- keeps _ (commandReady _) => apply tidy_commandReady
  | |- keeps _ (wait_tx_complete _) => apply tidy_wait_tx
  | |- keeps _ _ => apply keeps_tidy_of_view; kept_timer
  end.

Ltac tidy_all := keep_with keeps_tidy_refl keeps_tidy_trans ltac:(tidy_leaf).

Lemma tidy_sayHello : keeps keeps_tidy sayHello.
Proof. unfold sayHello. tidy_all. Qed.

Lemma tidy_respond (ty : Z) : keeps keeps_tidy (respond ty).
Proof. unfold respond. tidy_all. Qed.

Lemma tidy_servoInstruction (a b c d e : Z) :
  keeps keeps_tidy (servoInstruction a b c d e).
Proof. unfold servoInstruction. tidy_all. Qed.

Lemma tidy_childListen : keeps keeps_tidy (childListen readChar).
Proof. unfold childListen. tidy_all. Qed.

Lemma tidy_childResponse : keeps keeps_tidy (childResponse readChar).
Proof.
  unfold childResponse, child_port_select, child_wait, child_timer_stop.
  tidy_all.
Qed.

Lemma tidy_reid : keeps keeps_tidy (reid readChar).
Proof.
  unfold reid, reid_attempts, reid_listen, reid_check, servoInstruction.
  tidy_all.
Qed.

Lemma tidy_servoFinder : keeps keeps_tidy (servoFinder readChar).
Proof.
  unfold servoFinder, find_servo, find_attempts, find_listen, level_check,
    level_attempts, level_listen, servoInstruction.
  tidy_all.
Qed.

Lemma tidy_takeAction : keeps keeps_tidy (takeAction readChar).
Proof.
  unfold takeAction, pingResponse, assignedID, configCleared.
  keep_with keeps_tidy_refl keeps_tidy_trans
    ltac:(idtac;
          lazymatch goal with
          | |- keeps _ sayHello => apply tidy_sayHello
          | |- keeps _ (respond _) => apply tidy_respond
          | |- keeps _ (childListen _) => apply tidy_childListen
          | |- keeps _ (childResponse _) => apply tidy_childResponse
          | |- keeps _ (reid _) => apply tidy_reid
          | |- keeps _ _ => tidy_leaf
          end).
Qed.

Lemma main_pass_tidy : keeps keeps_tidy (main_pass readChar).
Proof.
  unfold main_pass.
  keep_with keeps_tidy_refl keeps_tidy_trans
    ltac:(idtac;
          lazymatch goal with
          | |- keeps _ (commandReady _) => apply tidy_commandReady
          | |- keeps _ (takeAction _) => apply tidy_takeAction
          | |- keeps _ _ => apply keeps_tidy_of_view; kept_timer
          end).
Qed.

Lemma main_init_tidy (w0 w : world) (u : unit) :
  main_init readChar w0 = Some (u, w) -> tidy w.
Proof.
  unfold main_init. intros H. autorewrite with run in H.
  apply tidy_servoFinder in H. apply H. left. reflexivity.
Qed.

Lemma reachable_tidy (w : world) : reachable readChar w -> tidy w.
Proof.
  intros Hr. induction Hr as [w0 w u H|w w' u Hr IH H].
  - eapply main_init_tidy, H.
  - eapply main_pass_tidy; eauto.
Qed.

Lemma tidy_waiting (w : world) :
  glob w STATE = WAIT -> tidy w -> forall t, running t (hal w) = false.
Proof.
  intros S [J|[J T]] t; [rewrite S in J; discriminate|].
  destruct (running t (hal w)) eqn:R; [|reflexivity].
  apply T, J in R. rewrite S in R. destruct t; discriminate.
Qed.

(** X16.  The timers follow the roles.  Whenever the module waits for the
    next frame of the master no timer runs, and none does when the handler
    has returned.  From there a switch to a role returns with [TIMEOUT]
    cleared and with the timer of that role running and no other: the
    timer of the child's port in a listening role, the hello timer in the
    hello role, the servo timer in the servo role; and with no timer
    running in the Wait and the response role.  So [servoInstruction]
    returns with the servo timer running and [TIMEOUT] cleared. *)
Theorem timers_follow_roles (w : world) :
  reachable readChar w ->
  (forall t, running t (hal w) = false) /\
  (forall u w',
      takeAction readChar w = Some (u, w') ->
      forall t, running t (hal w') = false) /\
  (forall mode u w',
      WAIT <= mode <= INITIALIZE ->
      configToggle mode w = Some (u, w') ->
      (forall t, running t (hal w') = true <-> role_timer mode = Some t) /\
      (mode <> WAIT -> glob w' TIMEOUT = 0)) /\
  (forall a b c d e u w',
      servoInstruction a b c d e w = Some (u, w') ->
      glob w' TIMEOUT = 0 /\
      forall t, running t (hal w') = true <-> t = INIT_TIMEOUT).
Proof.
  intros Hr.
  assert (Hs := reachable_settled _ _ Hr). assert (Ht := reachable_tidy _ Hr).
  split; [|split; [|split]].
  - apply tidy_waiting; [apply Hs|exact Ht].
  - intros u w' H. apply tidy_waiting.
    + eapply takeAction_settled; eauto.
    + eapply tidy_takeAction; eauto.
  - intros mode u w' Hm H. split.
    + eapply configToggle_tidy; eauto.
    + intros Hn. eapply configToggle_clears; [|exact H].
      unfold WAIT, MY_RESPONSE in *. lia.
  - intros a b c d e u w' H.
    split; [apply servoInstruction_emits in H; apply H|].
    unfold servoInstruction in H. split_run H. split_run H. split_run H.
    split_run H.
    assert (T3 : tidy w3).
    { eapply tidy_wait_tx; [exact E2|].
      match type of E1 with
      | ?m ?v = Some _ =>
          assert (K : keeps keeps_tidy m) by tidy_all;
          eapply K; [exact E1|]; clear K
      end.
      match type of E0 with
      | ?m ?v = Some _ =>
          assert (K : keeps keeps_tidy m) by tidy_all;
          eapply K; [exact E0|]; clear K
      end.
      eapply keeps_tidy_configToggle; [|exact E|exact Ht].
      cbv. split; discriminate. }
    apply configToggle_tidy in H; [|cbv; split; discriminate|exact T3].
    destruct H as (_ & _ & Hrun). intros t. rewrite Hrun. cbn.
    split; intros Hx; [inversion Hx; reflexivity|subst; reflexivity].
Qed.

End Timers.


(** ** Waits that end *)

Section SpinUntil.

Variable L : Type.
Variable cond : L -> world -> bool.
Variable body : L -> M L.
Variable Inv Post : world -> Prop.
Variable b : list event.
Variable rest : list (list event).

(** Every pass of the loop keeps [Inv] and uses up the one batch of the
    pass; the pass of batch [b] ends the loop and leaves [Post]. *)
Hypothesis pass_keeps :
  forall v b' r l, Inv v ->
    exists l' v',
      body l (fold_left apply_event b' (set_future r v)) = Some (l', v') /\
      Inv v' /\ future v' = r.
Hypothesis pass_ends :
  forall v l, Inv v ->
    exists l' v',
      body l (fold_left apply_event b (set_future rest v)) = Some (l', v') /\
      cond l' v' = false /\ Inv v' /\ Post v' /\ future v' = rest.

Lemma spin_fuel_until (pre : list (list event)) :
  forall (n : nat) (l : L) (w : world),
    Inv w -> future w = pre ++ b :: rest -> (length pre + 2 <= n)%nat ->
    exists l' w',
      spin_fuel n cond body l w = Some (l', w') /\ Inv w' /\
      cond l' w' = false /\
      ((future w' = rest /\ Post w') \/ awaits b rest (future w')).
Proof.
  induction pre as [|a pre IH]; intros n l w HI Hf Hn;
    (destruct n as [|n]; [lia|]); cbn [spin_fuel];
    destruct (cond l w) eqn:Hc;
    try (exists l, w; split; [reflexivity|]; split; [exact HI|];
         split; [exact Hc|]; right; eexists; exact Hf).
  - unfold bind at 1, pause. rewrite Hf. cbn [app].
    destruct (pass_ends w l HI) as (l' & v' & Hb & Hc' & HI' & HP' & Hf').
    unfold bind. rewrite Hb.
    destruct n as [|n]; [cbn in Hn; lia|]. cbn [spin_fuel]. rewrite Hc'.
    exists l', v'. repeat split; try assumption. left. split; assumption.
  - unfold bind at 1, pause. rewrite Hf. cbn [app].
    destruct (pass_keeps w a (pre ++ b :: rest) l HI)
      as (l' & v' & Hb & HI' & Hf').
    unfold bind. rewrite Hb.
    apply IH; [exact HI'|exact Hf'|cbn in Hn; lia].
Qed.

Lemma spin_until (l : L) (w : world) :
  Inv w -> awaits b rest (future w) ->
  exists l' w',
    spin cond body l w = Some (l', w') /\ Inv w' /\ cond l' w' = false /\
    ((future w' = rest /\ Post w') \/ awaits b rest (future w')).
Proof.
  intros HI (pre & Hf). unfold spin.
  apply (spin_fuel_until pre); [exact HI|exact Hf|].
  rewrite Hf, length_app. cbn. lia.
Qed.

End SpinUntil.

Lemma events_hal (b : list event) (w : world) :
  hal (fold_left apply_event b w) = hal w.
Proof.
  revert w. induction b as [|e b IH]; intros w; [reflexivity|].
  cbn [fold_left]. rewrite IH.
  destruct e as [t|d x|d]; cbn; [destruct (running t (hal w))|..]; reflexivity.
Qed.

Lemma events_keep_timeout (b : list event) (w : world) :
  glob w TIMEOUT = 1 -> glob (fold_left apply_event b w) TIMEOUT = 1.
Proof.
  revert w. induction b as [|e b IH]; intros w H; [exact H|].
  cbn [fold_left]. apply IH.
  destruct e as [t|d x|d]; cbn; [destruct (running t (hal w))|..];
    first [exact H|reflexivity].
Qed.

(** The interrupt of a running timer raises [TIMEOUT]. *)
Lemma irq_sets_timeout (t : timer) (b : list event) (w : world) :
  In (Irq t) b -> running t (hal w) = true ->
  glob (fold_left apply_event b w) TIMEOUT = 1.
Proof.
  revert w. induction b as [|e b IH]; intros w Hin Hr; [destruct Hin|].
  cbn [fold_left]. destruct Hin as [->|Hin].
  - apply events_keep_timeout. cbn. rewrite Hr. reflexivity.
  - apply IH; [exact Hin|].
    destruct e as [t'|d x|d]; cbn; [destruct (running t' (hal w))|..];
      exact Hr.
Qed.

Lemma complete_sets_flag (d : txdev) (b : list event) (w : world) :
  In (TxComplete d) b -> txc (fold_left apply_event b w) d = true.
Proof.
  revert w. induction b as [|e b IH]; intros w Hin; [destruct Hin|].
  cbn [fold_left]. destruct Hin as [->|Hin].
  - apply events_keep_complete. cbn.
    destruct (txdev_eq_dec d d) as [_|Hn]; [reflexivity|].
    exfalso. apply Hn. reflexivity.
  - apply IH. exact Hin.
Qed.

(** The settlement delay ends when the response timer fires. *)
Lemma settle_returns (b : list event) (rest : list (list event)) (w : world) :
  In (Irq TX_01234_TIMEOUT) b ->
  running TX_01234_TIMEOUT (hal w) = true ->
  awaits b rest (future w) ->
  exists w',
    settle w = Some (tt, w') /\
    (future w' = rest \/ awaits b rest (future w')).
Proof.
  intros Hin Hr Ha. unfold settle.
  destruct (spin_until unit (fun _ w => glob w TIMEOUT =? 0) (fun _ => ret tt)
              (fun v => running TX_01234_TIMEOUT (hal v) = true)
              (fun _ => True) b rest) with (l := tt) (w := w)
    as (l' & w' & H & _ & _ & J).
  - intros v b' r l Hv. eexists. eexists. split; [reflexivity|].
    split; [rewrite events_hal; exact Hv|]. apply events_future.
  - intros v l Hv. eexists. eexists. split; [reflexivity|].
    split; [|split; [rewrite events_hal; exact Hv|split; [exact I|]]].
    + rewrite (irq_sets_timeout _ _ _ Hin) by exact Hv. reflexivity.
    + apply events_future.
  - exact Hr.
  - exact Ha.
  - destruct l'. exists w'. split; [exact H|].
    destruct J as [[J _]|J]; [left|right]; exact J.
Qed.

(** A pass of a waiting loop does not lose a completion. *)
Lemma completes_pause (d : txdev) (w w' : world) (u : unit) :
  pause w = Some (u, w') -> completes d w -> completes d w'.
Proof.
  unfold pause. intros H Hc.
  destruct (future w) as [|b r] eqn:Ef; [discriminate|].
  inversion H; subst w'. destruct Hc as [Hc|Hc].
  - left. apply events_keep_complete. exact Hc.
  - rewrite Ef in Hc. inversion Hc as [b' r' Hb|b' r' Hr]; subst b' r'.
    + left. apply complete_sets_flag. exact Hb.
    + right. rewrite events_future. exact Hr.
Qed.

(** The wait for a transmitter ends when it reports completion, and
    loses the completion of no transmitter. *)
Lemma wait_tx_fuel (d : txdev) :
  forall (n : nat) (w : world),
    (length (future w) < n)%nat -> completes d w ->
    exists w',
      spin_fuel n (fun _ v => negb (txc v d)) (fun _ => ret tt) tt w
        = Some (tt, w') /\
      txc w' d = true /\
      forall d', completes d' w -> completes d' w'.
Proof.
  induction n as [|n IH]; intros w Hn Hc; [lia|].
  cbn [spin_fuel]. destruct (txc w d) eqn:Ht; cbn [negb].
  - exists w. split; [reflexivity|]. split; [exact Ht|]. intros d' H. exact H.
  - destruct Hc as [Hc|Hc]; [rewrite Ht in Hc; discriminate|].
    destruct (future w) as [|b r] eqn:Ef; [inversion Hc|].
    assert (Hp : pause w
                 = Some (tt, fold_left apply_event b (set_future r w)))
      by (unfold pause; rewrite Ef; reflexivity).
    rewrite (bind_run _ _ _ _ _ Hp), bind_ret.
    destruct (IH (fold_left apply_event b (set_future r w)))
      as (w' & E & T & K).
    + rewrite events_future. cbn in Hn |- *. lia.
    + apply (completes_pause d w _ tt Hp). right. rewrite Ef. exact Hc.
    + exists w'. split; [exact E|]. split; [exact T|].
      intros d' H. apply K. apply (completes_pause d' w _ tt Hp). exact H.
Qed.

Lemma wait_tx_completes (d : txdev) (w : world) :
  completes d w ->
  exists w',
    wait_tx_complete d w = Some (tt, w') /\
    txc w' d = true /\
    forall d', completes d' w -> completes d' w'.
Proof.
  intros Hc. unfold wait_tx_complete, spin. apply wait_tx_fuel; [lia|exact Hc].
Qed.

(** What has been promised for after the batch [b] is still to come when
    the script has reached [b] or not yet. *)
Lemma still_to_come (d : txdev) (b : list event)
      (post s : list (list event)) :
  s = post \/ awaits b post s ->
  Exists (In (TxComplete d)) post -> Exists (In (TxComplete d)) s.
Proof.
  intros [->|(pre & ->)] H; [exact H|].
  apply Exists_app. right. apply Exists_cons_tl. exact H.
Qed.

(** Entering any role but the response role does not wait. *)
Lemma enter_role_total (mode : Z) (w : world) :
  mode <> MY_RESPONSE ->
  exists w', enter_role mode w = Some (tt, w') /\ future w' = future w.
Proof.
  intros Hm. apply Z.eqb_neq in Hm. unfold enter_role. rewrite Hm.
  repeat match goal with
         | |- context [if ?b then _ else _] => destruct b
         end;
    eexists; split; reflexivity.
Qed.

Lemma configToggle_total (mode : Z) (w : world) :
  mode <> MY_RESPONSE ->
  exists w', configToggle mode w = Some (tt, w') /\ future w' = future w.
Proof.
  intros Hm.
  destruct (release_role_total w) as (w1 & E1 & _ & _ & _ & F1 & _).
  destruct (enter_role_total mode w1 Hm) as (w2 & E2 & F2).
  destruct (attach_bus_total w2) as (w3 & E3 & (_ & _ & _ & F3 & _) & _).
  exists w3. split.
  - unfold configToggle. rewrite (bind_run _ _ _ _ _ E1).
    rewrite (bind_run _ _ _ _ _ E2). exact E3.
  - congruence.
Qed.

(** The switch to the response role returns when the response timer
    fires. *)
Lemma configToggle_response_returns (b : list event)
      (rest : list (list event)) (w : world) :
  In (Irq TX_01234_TIMEOUT) b ->
  awaits b rest (future w) ->
  exists w',
    configToggle MY_RESPONSE w = Some (tt, w') /\
    (future w' = rest \/ awaits b rest (future w')).
Proof.
  intros Hin Ha.
  destruct (release_role_total w) as (w1 & E1 & _ & _ & _ & F1 & _).
  unfold configToggle. rewrite (bind_run _ _ _ _ _ E1).
  cbn [enter_role Z.eqb Pos.eqb MY_RESPONSE WAIT].
  repeat first [rewrite bind_bind | progress autorewrite with run].
  match goal with
  | |- exists w', bind settle _ ?v = _ /\ _ =>
      destruct (settle_returns b rest v Hin) as (w2 & E2 & J2);
        [reflexivity|cbn; rewrite F1; exact Ha|]
  end.
  rewrite (bind_run _ _ _ _ _ E2).
  repeat first [rewrite bind_bind | progress autorewrite with run].
  match goal with
  | |- exists w', attach_bus ?v = _ /\ _ =>
      destruct (attach_bus_total v) as (w3 & E3 & (_ & _ & _ & F3 & _) & _)
  end.
  exists w3. split; [exact E3|]. rewrite F3. exact J2.
Qed.

(** The response role is entered when the response timer fires, and what
    completes later is then still to come. *)
Lemma response_role_entered (ds : list txdev) (w : world) :
  lets_respond ds (future w) ->
  exists w',
    configToggle MY_RESPONSE w = Some (tt, w') /\
    forall d, In d ds -> Exists (In (TxComplete d)) (future w').
Proof.
  intros (pre & bI & post & Hf & Hin & Hc).
  destruct (configToggle_response_returns bI post w Hin (ex_intro _ pre Hf))
    as (w' & E & J).
  exists w'. split; [exact E|]. intros d Hd.
  apply (still_to_come d bI post _ J).
  rewrite Forall_forall in Hc. apply Hc. exact Hd.
Qed.

Lemma sayHello_returns (w : world) :
  lets_respond [TX_014] (future w) ->
  exists w', sayHello w = Some (tt, w').
Proof.
  intros Ha. unfold sayHello.
  destruct (response_role_entered _ w Ha) as (w1 & E1 & J1).
  rewrite (bind_run _ _ _ _ _ E1). autorewrite with run.
  match goal with
  | |- exists w', bind (wait_tx_complete _) _ ?v = _ =>
      destruct (wait_tx_completes TX_014 v) as (w2 & E2 & _);
        [right; apply (J1 TX_014); left; reflexivity|]
  end.
  rewrite (bind_run _ _ _ _ _ E2).
  destruct (configToggle_WAIT w2) as (w3 & E3 & _).
  exists w3. exact E3.
Qed.

Lemma servoInstruction_returns (a b c d e : Z) (w : world) :
  lets_respond [TX_014] (future w) ->
  exists w', servoInstruction a b c d e w = Some (tt, w').
Proof.
  intros Ha. unfold servoInstruction.
  destruct (response_role_entered _ w Ha) as (w1 & E1 & J1).
  rewrite (bind_run _ _ _ _ _ E1).
  destruct (c =? PING_SERVO);
    repeat first [rewrite bind_bind | progress autorewrite with run];
    match goal with
    | |- exists w', bind (wait_tx_complete _) _ ?v = _ =>
        destruct (wait_tx_completes TX_014 v) as (w2 & E2 & _);
          [right; apply (J1 TX_014); left; reflexivity|]
    end;
    rewrite (bind_run _ _ _ _ _ E2);
    (destruct (configToggle_total INITIALIZE w2) as (w3 & E3 & _);
     [discriminate|]);
    exists w3; exact E3.
Qed.

Lemma respond_returns (ty : Z) (w : world) :
  lets_respond [TX_014; TX_23] (future w) ->
  exists w', respond ty w = Some (tt, w').
Proof.
  intros Ha. unfold respond.
  destruct (response_role_entered _ w Ha) as (w1 & E1 & J1).
  rewrite (bind_run _ _ _ _ _ E1). autorewrite with run.
  match goal with
  | |- exists w', bind (wait_tx_complete _) _ ?v = _ =>
      destruct (wait_tx_completes TX_014 v) as (w2 & E2 & _ & K2);
        [right; apply (J1 TX_014); left; reflexivity|];
        assert (Hc23 : completes TX_23 w2)
          by (apply K2; right; apply (J1 TX_23); right; left; reflexivity)
  end.
  rewrite (bind_run _ _ _ _ _ E2).
  destruct (wait_tx_completes TX_23 w2 Hc23) as (w3 & E3 & _).
  rewrite (bind_run _ _ _ _ _ E3).
  destruct (configToggle_WAIT w3) as (w4 & E4 & _).
  exists w4. exact E4.
Qed.

(** X17.  The emitters return.  In every environment in which the response
    timer fires and, in passes after that, the two transmitters report
    completion, in either order and in the same pass or in different ones,
    each of [pingResponse], [assignedID] and [configCleared] returns, with
    its frame out on both transmitters and the module back in the Wait
    role.  When the response timer fires and TX_014 reports completion
    later, whatever TX_23 does, [sayHello] returns with its hello frame out
    on TX_014, and [servoInstruction] returns with its packet out on
    TX_014, in the servo role. *)
Theorem emitters_return (w : world) :
  (lets_respond [TX_014; TX_23] (future w) ->
   (exists w', pingResponse w = Some (tt, w') /\ sent_on_both PING w w') /\
   (exists w',
       assignedID w = Some (tt, w') /\ sent_on_both ID_ASSIGN_OK w w') /\
   (exists w',
       configCleared w = Some (tt, w') /\
       sent_on_both CONFIG_CLEARED w w')) /\
  (lets_respond [TX_014] (future w) ->
   (exists w',
       sayHello w = Some (tt, w') /\
       wire TX_014 (hal w') =
         wire TX_014 (hal w) ++ hello_frame (glob w ID) (glob w CHILD) /\
       glob w' STATE = WAIT) /\
   (forall a b c d e,
       exists w',
         servoInstruction a b c d e w = Some (tt, w') /\
         wire TX_014 (hal w') =
           wire TX_014 (hal w) ++ servo_frame a b c d e /\
         glob w' STATE = INITIALIZE)).
Proof.
  split; intros Ha.
  - split; [|split].
    + destruct (respond_returns PING w Ha) as (w' & H).
      exists w'. split; [exact H|]. apply respond_sent_on_both in H. exact H.
    + destruct (respond_returns ID_ASSIGN_OK w Ha) as (w' & H).
      exists w'. split; [exact H|]. apply respond_sent_on_both in H. exact H.
    + destruct (respond_returns CONFIG_CLEARED w Ha) as (w' & H).
      exists w'. split; [exact H|]. apply respond_sent_on_both in H. exact H.
  - split.
    + destruct (sayHello_returns w Ha) as (w' & H).
      exists w'. split; [exact H|].
      split; [apply sayHello_emits in H; apply H|].
      apply sayHello_waits in H. apply H.
    + intros a b c d e.
      destruct (servoInstruction_returns a b c d e w Ha) as (w' & H).
      exists w'. split; [exact H|].
      apply servoInstruction_emits in H. destruct H as (W & _ & _ & S & _).
      split; assumption.
Qed.

(** ** Listening that ends *)

Lemma events_reads (b : list event) (r : list (list event)) (w : world) :
  reads_only but_timeout w (fold_left apply_event b (set_future r w)).
Proof.
  eapply reads_only_trans; [|apply reads_events; reflexivity].
  repeat split; reflexivity.
Qed.

(** Entering a role that has a timer leaves that timer running. *)
Lemma enter_role_starts (mode : Z) (t : timer) (w w' : world) (u : unit) :
  role_timer mode = Some t ->
  enter_role mode w = Some (u, w') ->
  running t (hal w') = true /\ glob w' STATE = mode /\ glob w' TIMEOUT = 0.
Proof.
  unfold role_timer, enter_role. intros Ht H.
  assert (Hw : (mode =? WAIT) = false).
  { destruct (mode =? WAIT) eqn:E; [|reflexivity].
    apply Z.eqb_eq in E. subst. discriminate. }
  assert (Hm : (mode =? MY_RESPONSE) = false).
  { destruct (mode =? MY_RESPONSE) eqn:E; [|reflexivity].
    apply Z.eqb_eq in E. subst. discriminate. }
  rewrite Hw, Hm in H.
  repeat match type of H with
         | (if ?b then _ else _) _ = Some _ =>
             let E := fresh "E" in
             destruct b eqn:E; [apply Z.eqb_eq in E|]
         end;
    try discriminate;
    inversion Ht; subst; inversion H; subst; repeat split; reflexivity.
Qed.

Section Listening.

Variable readChar : list Z -> Z * list Z.

(** In a listening role and in the hello role the reader does not wait. *)
Lemma commandReady_listening (w : world) :
  RESPONSE_1 <= glob w STATE <= HELLO_MODE ->
  exists c w',
    commandReady readChar w = Some (c, w') /\
    (forall v, v <> CHILD -> glob w' v = glob w v) /\
    hal w' = hal w /\ future w' = future w.
Proof.
  intros Hs.
  assert (Hc : glob w STATE = 3 \/ glob w STATE = 4 \/ glob w STATE = 5 \/
               glob w STATE = 6 \/ glob w STATE = 7)
    by (unfold RESPONSE_1, HELLO_MODE in Hs; lia).
  unfold commandReady. rewrite bind_get.
  destruct Hc as [Hc|[Hc|[Hc|[Hc|Hc]]]]; rewrite Hc;
    cbn [Z.eqb Pos.eqb WAIT HELLO_MODE RESPONSE_1 RESPONSE_2 RESPONSE_3
         RESPONSE_4 INITIALIZE];
    unfold cReadChar, bind;
    repeat match goal with
           | |- context [readChar ?l] => destruct (readChar l)
           | |- context [if ?b then _ else _] => destruct b
           end;
    cbn; eexists; eexists; (split; [reflexivity|]);
    (split; [|split; reflexivity]);
    intros v Hv; cbn; try reflexivity;
    (destruct (var_eq_dec v CHILD); [exfalso; auto|reflexivity]).
Qed.

(** The wait for a child ends in the pass in which the timer of the
    listening role fires, if not before. *)
Lemma child_wait_returns (t : timer) (b : list event)
      (rest : list (list event)) (w : world) :
  In (Irq t) b ->
  RESPONSE_1 <= glob w STATE <= RESPONSE_4 ->
  running t (hal w) = true ->
  awaits b rest (future w) ->
  exists c w',
    child_wait readChar 0 w = Some (c, w') /\
    (future w' = rest \/ awaits b rest (future w')).
Proof.
  intros Hin Hs Hr Ha. unfold child_wait.
  destruct (spin_until Z
              (fun child_responded w =>
                 (child_responded =? 0) && (glob w TIMEOUT =? 0))
              (fun child_responded =>
                 c <- commandReady readChar ;;
                 if negb (c =? 0) then ret 1 else ret child_responded)
              (fun v => RESPONSE_1 <= glob v STATE <= RESPONSE_4 /\
                        running t (hal v) = true)
              (fun _ => True) b rest) with (l := 0) (w := w)
    as (l' & w' & H & _ & _ & J).
  - intros v b' r l [Sv Rv].
    destruct (events_reads b' r v) as (Hh & _ & Hg).
    destruct (commandReady_listening
                (fold_left apply_event b' (set_future r v)))
      as (c & v' & E & Gc & Hc & Fc).
    { rewrite (Hg STATE) by reflexivity.
      unfold RESPONSE_1, RESPONSE_4, HELLO_MODE in *. lia. }
    rewrite (bind_run _ _ _ _ _ E).
    exists (if negb (c =? 0) then 1 else l), v'.
    split; [destruct (negb (c =? 0)); reflexivity|].
    split; [|rewrite Fc; apply events_future].
    rewrite Gc, (Hg STATE), Hc, Hh by (reflexivity || discriminate).
    split; assumption.
  - intros v l [Sv Rv].
    destruct (events_reads b rest v) as (Hh & _ & Hg).
    destruct (commandReady_listening
                (fold_left apply_event b (set_future rest v)))
      as (c & v' & E & Gc & Hc & Fc).
    { rewrite (Hg STATE) by reflexivity.
      unfold RESPONSE_1, RESPONSE_4, HELLO_MODE in *. lia. }
    rewrite (bind_run _ _ _ _ _ E).
    exists (if negb (c =? 0) then 1 else l), v'.
    split; [destruct (negb (c =? 0)); reflexivity|].
    assert (HT : glob v' TIMEOUT = 1).
    { rewrite Gc by discriminate.
      apply (irq_sets_timeout t); [exact Hin|exact Rv]. }
    split; [rewrite HT; apply andb_false_r|].
    split; [|split; [exact I|rewrite Fc; apply events_future]].
    rewrite Gc, (Hg STATE), Hc, Hh by (reflexivity || discriminate).
    split; assumption.
  - split; assumption.
  - exact Ha.
  - exists l', w'. split; [exact H|].
    destruct J as [[J _]|J]; [left|right]; exact J.
Qed.

Lemma childResponse_returns (t : timer) (b : list event)
      (rest : list (list event)) (w : world) :
  port_timer (glob w CHILD) = Some t ->
  In (Irq t) b ->
  awaits b rest (future w) ->
  exists c w',
    childResponse readChar w = Some (c, w') /\
    (future w' = rest \/ awaits b rest (future w')).
Proof.
  intros Hp Hin Ha.
  assert (Hsel : exists mode w1,
             child_port_select w = Some (tt, w1) /\
             role_timer mode = Some t /\
             RESPONSE_1 <= mode <= RESPONSE_4 /\
             glob w1 STATE = mode /\ running t (hal w1) = true /\
             future w1 = future w /\ glob w1 CHILD = glob w CHILD).
  { unfold port_timer in Hp. unfold child_port_select. rewrite bind_get.
    repeat match type of Hp with
           | (if ?c then _ else _) = Some _ => destruct c
           end;
      try discriminate; inversion Hp; subst t;
      match goal with
      | |- exists mode w1, configToggle ?m w = _ /\ _ =>
          exists m;
          destruct (configToggle_total m w) as (w1 & E & F);
            [discriminate|];
          exists w1; split; [exact E|];
          assert (K : stable standing all_tx w w1)
            by (eapply (stable_configToggle standing all_tx);
                try reflexivity; exact E);
          unfold configToggle in E; split_run E; split_run E;
          destruct (attach_bus_total w2) as (w3 & E3 & (G3 & _) & H3);
          rewrite E3 in E; inversion E; subst w3;
          apply (enter_role_starts m _ _ _ _ eq_refl) in E1;
          destruct E1 as (R1 & S1 & _);
          rewrite <- G3 in S1; rewrite <- H3 in R1;
          repeat split; try assumption; try (cbv; discriminate);
          apply K; reflexivity
      end. }
  destruct Hsel as (mode & w1 & E1 & _ & Hm & S1 & R1 & F1 & C1).
  destruct (child_wait_returns t b rest w1) as (c & w2 & E2 & J2);
    [exact Hin|rewrite S1; exact Hm|exact R1|rewrite F1; exact Ha|].
  unfold childResponse. rewrite (bind_run _ _ _ _ _ E1).
  rewrite (bind_run _ _ _ _ _ E2).
  assert (Hstop : exists w3,
             child_timer_stop w2 = Some (tt, w3) /\ future w3 = future w2).
  { unfold child_timer_stop. rewrite bind_get.
    repeat match goal with
           | |- context [if ?c then _ else _] => destruct c
           end;
      eexists; split; reflexivity. }
  destruct Hstop as (w3 & E3 & F3). rewrite (bind_run _ _ _ _ _ E3).
  rewrite bind_set.
  destruct (configToggle_WAIT (set_glob TIMEOUT 0 w3))
    as (w4 & E4 & _ & _ & _ & _ & F4 & _).
  rewrite (bind_run _ _ _ _ _ E4).
  exists c, w4. split; [reflexivity|].
  rewrite F4. cbn. rewrite F3. exact J2.
Qed.

Lemma childListen_returns (b : list event) (rest : list (list event))
      (w : world) :
  In (Irq HELLO_TIMEOUT) b ->
  awaits b rest (future w) ->
  exists r w',
    childListen readChar w = Some (r, w') /\
    (future w' = rest \/ awaits b rest (future w')).
Proof.
  intros Hin Ha.
  destruct (configToggle_total HELLO_MODE w) as (w1 & E1 & F1);
    [discriminate|].
  assert (H1 : glob w1 STATE = HELLO_MODE /\
               running HELLO_TIMEOUT (hal w1) = true).
  { pose proof E1 as E. unfold configToggle in E. split_run E. split_run E.
    destruct (attach_bus_total w2) as (w3 & E3 & (G3 & _) & H3).
    rewrite E3 in E. inversion E; subst w3.
    apply (enter_role_starts HELLO_MODE _ _ _ _ eq_refl) in E2.
    destruct E2 as (R1 & S1 & _). rewrite G3, H3. split; assumption. }
  destruct H1 as [S1 R1].
  unfold childListen. rewrite (bind_run _ _ _ _ _ E1).
  destruct (spin_until (option Z)
              (fun r w => match r with
                          | Some _ => false
                          | None => glob w TIMEOUT =? 0
                          end)
              (fun _ => c <- commandReady readChar ;;
                        if negb (c =? 0) then ret (Some 1) else ret None)
              (fun v => glob v STATE = HELLO_MODE /\
                        running HELLO_TIMEOUT (hal v) = true)
              (fun _ => True) b rest) with (l := @None Z) (w := w1)
    as (l' & w' & H & _ & _ & J).
  - intros v b' r l [Sv Rv].
    destruct (events_reads b' r v) as (Hh & _ & Hg).
    destruct (commandReady_listening
                (fold_left apply_event b' (set_future r v)))
      as (c & v' & E & Gc & Hc & Fc).
    { rewrite (Hg STATE), Sv by reflexivity.
      unfold RESPONSE_1, HELLO_MODE. lia. }
    rewrite (bind_run _ _ _ _ _ E).
    exists (if negb (c =? 0) then Some 1 else None), v'.
    split; [destruct (negb (c =? 0)); reflexivity|].
    split; [|rewrite Fc; apply events_future].
    rewrite Gc, (Hg STATE), Hc, Hh by (reflexivity || discriminate).
    split; assumption.
  - intros v l [Sv Rv].
    destruct (events_reads b rest v) as (Hh & _ & Hg).
    destruct (commandReady_listening
                (fold_left apply_event b (set_future rest v)))
      as (c & v' & E & Gc & Hc & Fc).
    { rewrite (Hg STATE), Sv by reflexivity.
      unfold RESPONSE_1, HELLO_MODE. lia. }
    rewrite (bind_run _ _ _ _ _ E).
    exists (if negb (c =? 0) then Some 1 else None), v'.
    split; [destruct (negb (c =? 0)); reflexivity|].
    assert (HT : glob v' TIMEOUT = 1).
    { rewrite Gc by discriminate.
      apply (irq_sets_timeout HELLO_TIMEOUT); [exact Hin|exact Rv]. }
    split; [destruct (negb (c =? 0)); [reflexivity|rewrite HT; reflexivity]|].
    split; [|split; [exact I|rewrite Fc; apply events_future]].
    rewrite Gc, (Hg STATE), Hc, Hh by (reflexivity || discriminate).
    split; assumption.
  - split; assumption.
  - rewrite F1. exact Ha.
  - rewrite (bind_run _ _ _ _ _ H).
    assert (Jf : future w' = rest \/ awaits b rest (future w'))
      by (destruct J as [[J _]|J]; [left|right]; exact J).
    destruct l' as [v|].
    + exists v, w'. split; [reflexivity|exact Jf].
    + autorewrite with run.
      destruct (configToggle_WAIT
                  (set_glob TIMEOUT 0 (log_call (TimerStop HELLO_TIMEOUT) w')))
        as (w4 & E4 & _ & _ & _ & _ & F4 & _).
      rewrite (bind_run _ _ _ _ _ E4).
      exists 0, w4. split; [reflexivity|]. rewrite F4. exact Jf.
Qed.

(** X18.  The waits for a child are bounded by their timers.  With the
    port of a child in [CHILD], [childResponse] returns in the pass of its
    loop in which the timer of that port fires, if not before; and
    [childListen] returns in the pass in which the hello timer fires, if
    not before.  So a PING or an ID_ASSIGNMENT for a module further from
    the master is handled in bounded time by a module that has a child. *)
Theorem child_waits_are_bounded (b : list event) (rest : list (list event))
        (w : world) :
  awaits b rest (future w) ->
  (forall t,
      port_timer (glob w CHILD) = Some t -> In (Irq t) b ->
      (exists c w',
          childResponse readChar w = Some (c, w') /\
          (future w' = rest \/ awaits b rest (future w'))) /\
      ((glob w COMMAND_TYPE = PING \/ glob w COMMAND_TYPE = ID_ASSIGNMENT) ->
       glob w COMMAND_DESTINATION > glob w ID ->
       exists w',
         takeAction readChar w = Some (tt, w') /\
         (future w' = rest \/ awaits b rest (future w')))) /\
  (In (Irq HELLO_TIMEOUT) b ->
   exists r w',
     childListen readChar w = Some (r, w') /\
     (future w' = rest \/ awaits b rest (future w'))).
Proof.
  intros Ha. split.
  - intros t Hp Hin.
    destruct (childResponse_returns t b rest w Hp Hin Ha) as (c & w' & H & J).
    split; [exists c, w'; split; assumption|].
    intros Hty Hgt. exists w'.
    rewrite takeAction_downstream by assumption.
    rewrite (bind_run _ _ _ _ _ H). split; [reflexivity|exact J].
  - intros Hin. apply childListen_returns; assumption.
Qed.

End Listening.

(** ** A servo that stays silent *)

Lemma stays_deaf_refl (w : world) : stays_deaf w w.
Proof. intros H. split; [exact H|reflexivity]. Qed.

Lemma stays_deaf_trans (a b c : world) :
  stays_deaf a b -> stays_deaf b c -> stays_deaf a c.
Proof.
  intros H1 H2 Ha. destruct (H1 Ha) as [Hb E1]. destruct (H2 Hb) as [Hc E2].
  split; [exact Hc|congruence].
Qed.

Lemma stays_deaf_of_kept {A : Type} (m : M A) :
  keeps (kept servo_line) m -> keeps stays_deaf m.
Proof.
  intros K w a w' H [Hr Hq]. apply K in H. unfold kept, servo_line in H.
  inversion H as [[E1 E2 E3]]. unfold deaf. rewrite E1, E2.
  repeat split; assumption.
Qed.

Lemma stays_deaf_pause : keeps stays_deaf pause.
Proof.
  intros w u w' H [Hr Hq]. unfold pause in H.
  destruct (future w) as [|b rest] eqn:Ef; [discriminate|].
  inversion H; subst w'. inversion Hq as [|b' rest' Hb Hrest]; subst b' rest'.
  split; [split|].
  - rewrite events_rx_silent by exact Hb. exact Hr.
  - rewrite events_future. exact Hrest.
  - destruct (events_reads b rest w) as (_ & _ & G). apply G. reflexivity.
Qed.

Ltac deaf_leaf :=
  idtac;
  lazymatch goal with
  | |- keeps _ pause => apply stays_deaf_pause
  | |- keeps _ _ =>
      apply stays_deaf_of_kept;
      let H := fresh "H" in
      intros ? ? ? H; inversion H; subst; reflexivity
  end.

Ltac stays_deaf_all :=
  keep_with stays_deaf_refl stays_deaf_trans ltac:(deaf_leaf).

Lemma stays_deaf_servoInstruction (a b c d e : Z) :
  keeps stays_deaf (servoInstruction a b c d e).
Proof.
  unfold servoInstruction, configToggle, release_role, enter_role, attach_bus,
    unloadConfig, unloadAllConfigs, show_servo_id, settle, wait_tx_complete.
  stays_deaf_all.
Qed.

Section Silent.

Variable readChar : list Z -> Z * list Z.
Hypothesis readChar_idle : readChar [] = (0, []).

(** In the servo role, with a deaf receiver, the reader reports nothing. *)
Lemma commandReady_servo_idle (w : world) :
  glob w STATE = INITIALIZE -> rx w INIT_RX = [] ->
  commandReady readChar w = Some (0, set_rx INIT_RX [] w).
Proof.
  intros HS Hrx. unfold commandReady. rewrite bind_get, HS.
  cbn [Z.eqb Pos.eqb WAIT HELLO_MODE RESPONSE_1 RESPONSE_2 RESPONSE_3
       RESPONSE_4 INITIALIZE].
  unfold cReadChar, bind. rewrite Hrx, readChar_idle. reflexivity.
Qed.

Lemma find_listen_deaf (i : Z) (w : world) (i' : Z) (w' : world) :
  glob w STATE = INITIALIZE -> deaf w ->
  find_listen readChar i w = Some (i', w') ->
  deaf w' /\ glob w' SERVO_ID = glob w SERVO_ID.
Proof.
  intros HS Hd H. unfold find_listen in H.
  apply (spin_inv
           (fun (_ : Z) w1 =>
              deaf w1 /\ glob w1 STATE = INITIALIZE /\
              glob w1 SERVO_ID = glob w SERVO_ID)) in H.
  - destruct H as [(D & _ & G) _]. split; assumption.
  - intros l w1 u w2 l2 w3 (D1 & S1 & G1) _ Hp Hb.
    assert (S2 : glob w2 STATE = INITIALIZE).
    { apply (reads_pause identity) in Hp; [|reflexivity].
      destruct Hp as (_ & _ & G). rewrite (G STATE) by reflexivity. exact S1. }
    apply stays_deaf_pause in Hp. destruct (Hp D1) as [[R2 Q2] G2].
    rewrite (bind_run _ _ _ _ _ (commandReady_servo_idle _ S2 R2)) in Hb.
    cbn [Z.eqb negb] in Hb. inversion Hb; subst l2 w3.
    split; [split; [reflexivity|exact Q2]|].
    split; [exact S2|]. cbn. congruence.
  - split; [exact Hd|]. split; [exact HS|reflexivity].
Qed.

Lemma find_attempts_deaf (w : world) (i' : Z) (w' : world) :
  deaf w ->
  find_attempts readChar w = Some (i', w') ->
  deaf w' /\ glob w' SERVO_ID = glob w SERVO_ID.
Proof.
  intros Hd H. unfold find_attempts in H.
  apply (loop_inv
           (fun (_ : Z) w1 =>
              deaf w1 /\ glob w1 SERVO_ID = glob w SERVO_ID)) in H.
  - apply H.
  - intros l w1 l2 w3 (D1 & G1) _ Hb. split_run Hb. split_run Hb.
    inversion Hb; subst l2 w3.
    destruct (stays_deaf_servoInstruction _ _ _ _ _ _ _ _ E D1) as [D2 G2].
    apply servoInstruction_emits in E. destruct E as (_ & _ & _ & S2 & _).
    destruct (find_listen_deaf _ _ _ _ S2 D2 E0) as [D3 G3].
    split; [exact D3|congruence].
  - split; [exact Hd|reflexivity].
Qed.

(** The search does not end while the servo stays silent. *)
Lemma find_servo_deaf (fw : Z) (w : world) :
  deaf w -> glob w SERVO_ID = SERVO_START ->
  find_servo readChar fw w = None.
Proof.
  intros Hd Hs. destruct (find_servo readChar fw w) as [[fw' w']|] eqn:H;
    [exfalso|reflexivity].
  unfold find_servo in H.
  apply (loop_inv
           (fun (_ : Z) w1 => deaf w1 /\ glob w1 SERVO_ID = SERVO_START))
    in H.
  - destruct H as [(_ & G) Hc]. rewrite G in Hc. discriminate.
  - intros l w1 l2 w3 (D1 & G1) _ Hb. split_run Hb. rewrite bind_get in Hb.
    destruct (find_attempts_deaf _ _ _ D1 E) as [D2 G2].
    destruct ((glob w0 SERVO_ID =? SERVO_START) && (l =? 0));
      inversion Hb; subst; (split; [exact D2|congruence]).
  - split; assumption.
Qed.

(** X19.  [main] blocks until its servo answers.  With nothing pending on
    the servo receiver and no byte ever arriving there, the initialisation
    of [main] does not return, whatever else happens: the timers may fire
    and the transmitter may complete as often as the script says. *)
Theorem boot_blocks_without_servo (w0 : world) :
  rx w0 INIT_RX = [] ->
  silent_on INIT_RX (future w0) ->
  main_init readChar w0 = None.
Proof.
  intros Hr Hq. unfold main_init. autorewrite with run.
  unfold servoFinder, bind at 1. rewrite find_servo_deaf; [reflexivity| |].
  - split; assumption.
  - reflexivity.
Qed.

Lemma stays_deaf_respond (ty : Z) : keeps stays_deaf (respond ty).
Proof.
  unfold respond, configToggle, release_role, enter_role, attach_bus,
    unloadConfig, unloadAllConfigs, show_servo_id, settle, wait_tx_complete.
  stays_deaf_all.
Qed.

Lemma reid_listen_deaf (i : Z) (w : world) (i' : Z) (w' : world) :
  glob w STATE = INITIALIZE -> deaf w ->
  reid_listen readChar i w = Some (i', w') ->
  deaf w' /\ glob w' SERVO_ID = glob w SERVO_ID /\ glob w' ID = glob w ID.
Proof.
  intros HS Hd H. unfold reid_listen in H.
  apply (spin_inv
           (fun (_ : Z) w1 =>
              deaf w1 /\ glob w1 STATE = INITIALIZE /\
              glob w1 SERVO_ID = glob w SERVO_ID /\
              glob w1 ID = glob w ID)) in H.
  - destruct H as [(D & _ & G & I) _]. split; [|split]; assumption.
  - intros l w1 u w2 l2 w3 (D1 & S1 & G1 & I1) _ Hp Hb.
    assert (Hg : glob w2 STATE = INITIALIZE /\ glob w2 ID = glob w1 ID).
    { apply (reads_pause identity) in Hp; [|reflexivity].
      destruct Hp as (_ & _ & G).
      rewrite (G STATE), (G ID) by reflexivity. split; [exact S1|reflexivity]. }
    destruct Hg as [S2 I2].
    apply stays_deaf_pause in Hp. destruct (Hp D1) as [[R2 Q2] G2].
    unfold reid_check in Hb.
    rewrite (bind_run _ _ _ _ _ (commandReady_servo_idle _ S2 R2)) in Hb.
    cbn [Z.eqb negb] in Hb. inversion Hb; subst l2 w3.
    split; [split; [reflexivity|exact Q2]|].
    split; [exact S2|]. cbn. split; congruence.
  - split; [exact Hd|]. split; [exact HS|split; reflexivity].
Qed.

Lemma reid_attempts_deaf (w : world) (i' : Z) (w' : world) :
  deaf w ->
  reid_attempts readChar w = Some (i', w') ->
  deaf w' /\ glob w' SERVO_ID = glob w SERVO_ID /\ glob w' ID = glob w ID.
Proof.
  intros Hd H. unfold reid_attempts in H.
  apply (loop_inv
           (fun (_ : Z) w1 =>
              deaf w1 /\ glob w1 SERVO_ID = glob w SERVO_ID /\
              glob w1 ID = glob w ID)) in H.
  - apply H.
  - intros l w1 l2 w3 (D1 & G1 & I1) _ Hb. split_run Hb. split_run Hb.
    inversion Hb; subst l2 w3.
    destruct (stays_deaf_servoInstruction _ _ _ _ _ _ _ _ E D1) as [D2 G2].
    apply servoInstruction_emits in E. destruct E as (_ & _ & _ & S2 & K2).
    destruct (reid_listen_deaf _ _ _ _ S2 D2 E0) as (D3 & G3 & I3).
    split; [exact D3|]. rewrite G3, I3, (K2 ID) by discriminate.
    split; congruence.
  - split; [exact Hd|split; reflexivity].
Qed.

(** The servo is not given its new ID while it stays silent. *)
Lemma reid_deaf (w : world) :
  deaf w -> glob w ID <> glob w SERVO_ID -> reid readChar w = None.
Proof.
  intros Hd Hs. destruct (reid readChar w) as [[u w']|] eqn:H;
    [exfalso|reflexivity].
  unfold reid in H.
  apply (loop_inv
           (fun (_ : unit) w1 =>
              deaf w1 /\ glob w1 SERVO_ID = glob w SERVO_ID /\
              glob w1 ID = glob w ID)) in H.
  - destruct H as [(_ & G & I) Hc]. apply negb_false_iff, Z.eqb_eq in Hc.
    congruence.
  - intros l w1 l2 w3 (D1 & G1 & I1) _ Hb. rewrite !bind_get in Hb.
    split_run Hb. split_run Hb. inversion Hb; subst l2 w3.
    destruct (stays_deaf_servoInstruction _ _ _ _ _ _ _ _ E D1) as [D2 G2].
    apply servoInstruction_emits in E. destruct E as (_ & _ & _ & _ & K2).
    destruct (reid_attempts_deaf _ _ _ D2 E0) as (D3 & G3 & I3).
    split; [exact D3|]. rewrite G3, I3, (K2 ID) by discriminate.
    split; congruence.
  - split; [exact Hd|split; reflexivity].
Qed.

(** X24.  A module whose servo does not answer never finishes taking a new
    ID.  When an ID_ASSIGNMENT addressed to the module carries a parameter
    from 1 to 250 that is not the ID of its servo, and nothing is pending
    on the servo receiver and no byte ever arrives there, the handler does
    not return: after the acknowledgement it writes the ID to the servo and
    pings it, again and again, whatever the timers and the transmitters
    do. *)
Theorem new_id_blocks_without_servo (w : world) :
  glob w COMMAND_TYPE = ID_ASSIGNMENT ->
  glob w COMMAND_DESTINATION = glob w ID ->
  1 <= glob w COMMAND_PARAM <= 250 ->
  glob w COMMAND_PARAM <> glob w SERVO_ID ->
  rx w INIT_RX = [] ->
  silent_on INIT_RX (future w) ->
  takeAction readChar w = None.
Proof.
  intros Hty Hd Hp Hs Hr Hq.
  assert (Hin : (glob w COMMAND_PARAM >? MASTER_ID) &&
                (glob w COMMAND_PARAM <? DEFAULT_ID) = true).
  { apply andb_true_iff. rewrite Z.gtb_ltb. unfold MASTER_ID, DEFAULT_ID.
    split; apply Z.ltb_lt; lia. }
  unfold takeAction. rewrite bind_get, Hty.
  change (ID_ASSIGNMENT =? HELLO_BYTE) with false.
  change (ID_ASSIGNMENT =? PING) with false.
  change (ID_ASSIGNMENT =? ID_ASSIGNMENT) with true. cbv iota.
  rewrite !bind_get, Hd, Z.eqb_refl, bind_get, Hin. autorewrite with run.
  match goal with
  | |- bind assignedID _ ?v = None =>
      destruct (assignedID v) as [[u w1]|] eqn:H;
        [rewrite (bind_run _ _ _ _ _ H)|unfold bind; rewrite H; reflexivity];
        assert (D : deaf v) by (split; assumption)
  end.
  unfold assignedID in H.
  destruct (stays_deaf_respond _ _ _ _ H D) as [D1 G1].
  apply respond_emits in H. destruct H as (_ & _ & _ & G).
  rewrite !bind_get, (G ID), (G SERVO_ID) by discriminate.
  assert (Hne : glob w1 ID <> glob w1 SERVO_ID).
  { rewrite (G ID), (G SERVO_ID) by discriminate. cbn. exact Hs. }
  cbn [glob set_glob]. cbn.
  destruct (glob w COMMAND_PARAM =? glob w SERVO_ID) eqn:Eq;
    [apply Z.eqb_eq in Eq; contradiction|].
  cbn [negb when]. apply reid_deaf; assumption.
Qed.

End Silent.

(** ** What goes out on TX_23 *)

Section Answers.

Variable readChar : list Z -> Z * list Z.

(** X20.  The handler answers a frame with at most one frame on TX_23, and
    [answer_on_TX_23] says which: a PING addressed to the module is answered
    with its ping, an ID_ASSIGNMENT addressed to it with a parameter from 1
    to 250 with the acknowledgement from the new ID, a CLEAR_CONFIG
    addressed to it with the acknowledgement from the ID it gives up; for
    every other frame, a HELLO included, nothing goes out on TX_23.  Servo
    packets never do. *)
Theorem one_answer_on_TX_23 (w w' : world) (u : unit) :
  takeAction readChar w = Some (u, w') ->
  wire TX_23 (hal w') = wire TX_23 (hal w) ++ answer_on_TX_23 w.
Proof.
  intros H. unfold takeAction in H. unfold answer_on_TX_23.
  rewrite bind_get in H.
  destruct (glob w COMMAND_TYPE =? HELLO_BYTE) eqn:Eh.
  { apply Z.eqb_eq in Eh. rewrite Eh.
    change (HELLO_BYTE =? PING) with false.
    change (HELLO_BYTE =? ID_ASSIGNMENT) with false.
    change (HELLO_BYTE =? CLEAR_CONFIG) with false. cbv iota.
    frame_of H id_and_configured only_TX_23. destruct H as (_ & Hw & _).
    rewrite app_nil_r. apply Hw. reflexivity. }
  destruct (glob w COMMAND_TYPE =? PING).
  { rewrite !bind_get in H.
    destruct (glob w COMMAND_DESTINATION =? glob w ID).
    - apply respond_emits in H. apply H.
    - frame_of H id_and_configured only_TX_23. destruct H as (_ & Hw & _).
      rewrite app_nil_r. apply Hw. reflexivity. }
  destruct (glob w COMMAND_TYPE =? ID_ASSIGNMENT).
  { rewrite !bind_get in H.
    destruct (glob w COMMAND_DESTINATION =? glob w ID); cbn [andb].
    - rewrite bind_get in H.
      destruct ((glob w COMMAND_PARAM >? MASTER_ID) &&
                (glob w COMMAND_PARAM <? DEFAULT_ID)).
      + apply accept_id_run in H. apply H.
      + inversion H; subst. rewrite app_nil_r. reflexivity.
    - frame_of H id_and_configured only_TX_23. destruct H as (_ & Hw & _).
      rewrite app_nil_r. apply Hw. reflexivity. }
  destruct (glob w COMMAND_TYPE =? CLEAR_CONFIG).
  { rewrite !bind_get in H. split_run H.
    assert (Hw : wire TX_23 (hal w') = wire TX_23 (hal w0)).
    { frame_of H no_global only_TX_23. destruct H as (_ & Hw & _).
      apply Hw. reflexivity. }
    rewrite Hw.
    destruct (glob w COMMAND_DESTINATION =? glob w ID); cbn [when] in E.
    - apply respond_emits in E. apply E.
    - inversion E; subst. rewrite app_nil_r. reflexivity. }
  inversion H; subst. rewrite app_nil_r. reflexivity.
Qed.

(** X21.  The hello of an unconfigured module is always the same eight
    bytes: whenever such a module, waiting for the master, has read a HELLO,
    its handler puts [F8 F8 FB 00 C8 00 55 55] on TX_014, the default ID as
    source and 0 as parameter, and nothing on TX_23. *)
Theorem fresh_hello_bytes (w w' : world) (u : unit) :
  reachable readChar w ->
  glob w CONFIGURED = 0 ->
  glob w COMMAND_TYPE = HELLO_BYTE ->
  takeAction readChar w = Some (u, w') ->
  wire TX_014 (hal w') =
    wire TX_014 (hal w) ++ [248; 248; 251; 0; 200; 0; 85; 85] /\
  wire TX_23 (hal w') = wire TX_23 (hal w).
Proof.
  intros Hr Hc Hty H. apply reachable_settled in Hr.
  destruct Hr as (_ & _ & Hu & _). destruct (Hu Hc) as [HI HC].
  unfold takeAction in H. rewrite bind_get, Hty in H.
  change (HELLO_BYTE =? HELLO_BYTE) with true in H. cbv iota in H.
  rewrite !bind_get, Hc in H. change (0 =? 0) with true in H. cbv iota in H.
  apply sayHello_emits in H. rewrite HI, HC in H. exact H.
Qed.

End Answers.

(** ** The handler returns *)

Section HandlerReturns.

Variable readChar : list Z -> Z * list Z.

(** The handler of a CLEAR_CONFIG addressed to the module returns when its
    acknowledgement has gone out. *)
Lemma own_clear_returns (w : world) :
  glob w COMMAND_TYPE = CLEAR_CONFIG ->
  glob w COMMAND_DESTINATION = glob w ID ->
  lets_respond [TX_014; TX_23] (future w) ->
  exists w', takeAction readChar w = Some (tt, w').
Proof.
  intros Hty Hd Ha.
  destruct (respond_returns CONFIG_CLEARED w Ha) as (w1 & H).
  unfold takeAction. rewrite bind_get, Hty.
  change (CLEAR_CONFIG =? HELLO_BYTE) with false.
  change (CLEAR_CONFIG =? PING) with false.
  change (CLEAR_CONFIG =? ID_ASSIGNMENT) with false.
  change (CLEAR_CONFIG =? CLEAR_CONFIG) with true. cbv iota.
  rewrite !bind_get, Hd, Z.eqb_refl. cbn [when].
  unfold configCleared. rewrite (bind_run _ _ _ _ _ H).
  apply respond_emits in H. destruct H as (_ & _ & _ & G).
  rewrite !bind_get, (G COMMAND_DESTINATION), (G ID), Hd by discriminate.
  rewrite Z.leb_refl. cbn [orb when]. autorewrite with run.
  eexists. reflexivity.
Qed.

(** C2.  For a CLEAR_CONFIG frame the handler emits a CONFIG_CLEARED
    response exactly when the destination is the module's ID.  With the
    destination equal to [ID], in every environment in which the response
    timer fires and both transmitters then report completion, [takeAction]
    returns with the frame [F8 F8 ID 00 CD 55 55] put on TX_014 and on
    TX_23, and with [ID] = DEFAULT_ID, [CONFIGURED] = 0, [CHILD] = 0.  With
    any other destination it returns at once and has made no API call, so
    nothing has been put on a transmitter.  Whenever it has returned, a
    destination that is BROADCAST or at most [ID] has left [ID] =
    DEFAULT_ID, [CONFIGURED] = 0 and [CHILD] = 0; and [SERVO_ID] is as
    before in every case. *)
Theorem clear_config_handled (w : world) :
  glob w COMMAND_TYPE = CLEAR_CONFIG ->
  (glob w COMMAND_DESTINATION = glob w ID ->
   lets_respond [TX_014; TX_23] (future w) ->
   exists w',
     takeAction readChar w = Some (tt, w') /\
     wire TX_014 (hal w') =
       wire TX_014 (hal w) ++ response_frame (glob w ID) CONFIG_CLEARED /\
     wire TX_23 (hal w') =
       wire TX_23 (hal w) ++ response_frame (glob w ID) CONFIG_CLEARED /\
     glob w' ID = DEFAULT_ID /\ glob w' CONFIGURED = 0 /\
     glob w' CHILD = 0 /\ glob w' SERVO_ID = glob w SERVO_ID) /\
  (glob w COMMAND_DESTINATION <> glob w ID ->
   exists w',
     takeAction readChar w = Some (tt, w') /\
     hal w' = hal w /\
     (glob w COMMAND_DESTINATION = BROADCAST \/
      glob w COMMAND_DESTINATION <= glob w ID ->
      glob w' ID = DEFAULT_ID /\ glob w' CONFIGURED = 0 /\
      glob w' CHILD = 0) /\
     glob w' SERVO_ID = glob w SERVO_ID) /\
  (forall u w',
      takeAction readChar w = Some (u, w') ->
      (glob w COMMAND_DESTINATION = glob w ID ->
       wire TX_014 (hal w') =
         wire TX_014 (hal w) ++ response_frame (glob w ID) CONFIG_CLEARED /\
       wire TX_23 (hal w') =
         wire TX_23 (hal w) ++ response_frame (glob w ID) CONFIG_CLEARED) /\
      (glob w COMMAND_DESTINATION <> glob w ID -> hal w' = hal w) /\
      (glob w COMMAND_DESTINATION = BROADCAST \/
       glob w COMMAND_DESTINATION <= glob w ID ->
       glob w' ID = DEFAULT_ID /\ glob w' CONFIGURED = 0 /\
       glob w' CHILD = 0) /\
      glob w' SERVO_ID = glob w SERVO_ID).
Proof.
  intros Hty.
  destruct (clear_config_cases readChar w Hty) as [Hret Hpost].
  split; [|split; [|exact Hpost]].
  - intros Hd Ha. destruct (own_clear_returns w Hty Hd Ha) as (w' & H).
    exists w'. split; [exact H|].
    destruct (Hpost tt w' H) as (A & _ & B & C).
    destruct (A Hd) as [W1 W2].
    destruct B as (B1 & B2 & B3); [right; lia|].
    split; [exact W1|]. split; [exact W2|]. split; [exact B1|].
    split; [exact B2|]. split; [exact B3|exact C].
  - intros Hne. destruct (Hret Hne) as (w' & H).
    exists w'. split; [exact H|].
    destruct (Hpost tt w' H) as (_ & Q & B & C).
    split; [apply Q, Hne|]. split; [exact B|exact C].
Qed.

(** X22.  The handler returns for the frames a module answers itself.  In
    every environment in which the response timer fires and, in passes
    after that, the two transmitters report completion, in either order
    and in the same pass or in different ones: a PING addressed to the
    module is answered; a CLEAR_CONFIG addressed to it is acknowledged and
    leaves it with the default ID, unconfigured and without a child; an
    ID_ASSIGNMENT addressed to it with a parameter from 1 to 250 that is
    the ID of its servo is acknowledged from the new ID and leaves it
    configured.  And when the response timer fires and TX_014 reports
    completion later, the HELLO is answered by an unconfigured module with
    its hello frame. *)
Theorem handler_returns (w : world) :
  (lets_respond [TX_014; TX_23] (future w) ->
   (glob w COMMAND_TYPE = PING ->
    glob w COMMAND_DESTINATION = glob w ID ->
    exists w',
      takeAction readChar w = Some (tt, w') /\ sent_on_both PING w w') /\
   (glob w COMMAND_TYPE = CLEAR_CONFIG ->
    glob w COMMAND_DESTINATION = glob w ID ->
    exists w',
      takeAction readChar w = Some (tt, w') /\
      wire TX_23 (hal w') =
        wire TX_23 (hal w) ++ response_frame (glob w ID) CONFIG_CLEARED /\
      glob w' ID = DEFAULT_ID /\ glob w' CONFIGURED = 0 /\
      glob w' CHILD = 0) /\
   (glob w COMMAND_TYPE = ID_ASSIGNMENT ->
    glob w COMMAND_DESTINATION = glob w ID ->
    1 <= glob w COMMAND_PARAM <= 250 ->
    glob w COMMAND_PARAM = glob w SERVO_ID ->
    exists w',
      takeAction readChar w = Some (tt, w') /\
      wire TX_23 (hal w') =
        wire TX_23 (hal w) ++
        response_frame (glob w COMMAND_PARAM) ID_ASSIGN_OK /\
      glob w' ID = glob w COMMAND_PARAM /\ glob w' CONFIGURED = 1)) /\
  (lets_respond [TX_014] (future w) ->
   glob w COMMAND_TYPE = HELLO_BYTE ->
   glob w CONFIGURED = 0 ->
   exists w',
     takeAction readChar w = Some (tt, w') /\
     wire TX_014 (hal w') =
       wire TX_014 (hal w) ++ hello_frame (glob w ID) (glob w CHILD)).
Proof.
  split; [intros Ha; split; [|split]|intros Ha].
  - intros Hty Hd.
    destruct (respond_returns PING w Ha) as (w' & H).
    exists w'. split; [|apply respond_sent_on_both in H; exact H].
    unfold takeAction. rewrite bind_get, Hty.
    change (PING =? HELLO_BYTE) with false. change (PING =? PING) with true.
    cbv iota. rewrite !bind_get, Hd, Z.eqb_refl. exact H.
  - intros Hty Hd.
    destruct (own_clear_returns w Hty Hd Ha) as (w' & H).
    exists w'. split; [exact H|].
    destruct (clear_config_cases readChar w Hty) as [_ Hpost].
    destruct (Hpost tt w' H) as (A & _ & B & _).
    destruct (A Hd) as [_ W2].
    destruct B as (B1 & B2 & B3); [right; lia|].
    split; [exact W2|]. split; [exact B1|]. split; [exact B2|exact B3].
  - intros Hty Hd Hp Hs.
    assert (Hin : (glob w COMMAND_PARAM >? MASTER_ID) &&
                  (glob w COMMAND_PARAM <? DEFAULT_ID) = true).
    { apply andb_true_iff. rewrite Z.gtb_ltb. unfold MASTER_ID, DEFAULT_ID.
      split; apply Z.ltb_lt; lia. }
    unfold takeAction. rewrite bind_get, Hty.
    change (ID_ASSIGNMENT =? HELLO_BYTE) with false.
    change (ID_ASSIGNMENT =? PING) with false.
    change (ID_ASSIGNMENT =? ID_ASSIGNMENT) with true. cbv iota.
    rewrite !bind_get, Hd, Z.eqb_refl, bind_get, Hin. autorewrite with run.
    match goal with
    | |- exists w', bind assignedID _ ?v = _ /\ _ =>
        destruct (respond_returns ID_ASSIGN_OK v Ha) as (w1 & H)
    end.
    unfold assignedID. rewrite (bind_run _ _ _ _ _ H).
    apply respond_emits in H. destruct H as (_ & W & _ & G).
    cbn in W. rewrite !bind_get, (G ID), (G SERVO_ID) by discriminate.
    cbn [glob set_glob]. cbn. rewrite Hs, Z.eqb_refl. cbn [negb when].
    exists w1. split; [reflexivity|]. rewrite W, (G ID), (G CONFIGURED)
      by discriminate.
    cbn. rewrite Hs. repeat split; reflexivity.
  - intros Hty Hc.
    destruct (sayHello_returns w Ha) as (w' & H).
    exists w'. split; [|apply sayHello_emits in H; apply H].
    unfold takeAction. rewrite bind_get, Hty.
    change (HELLO_BYTE =? HELLO_BYTE) with true. cbv iota.
    rewrite !bind_get, Hc. exact H.
Qed.

End HandlerReturns.

(** ** A quiet line *)


Section Quiet.

Variable readChar : list Z -> Z * list Z.
Hypothesis readChar_idle : readChar [] = (0, []).


End Quiet.

(** ** Runs of the further properties *)

Lemma foreign_frame_ignored_witness :
  takeAction peekChar unknown_type_board = Some (tt, unknown_type_board).
Proof.
  apply (foreign_frame_ignored peekChar unknown_type_board).
  left. repeat split; vm_compute; discriminate.
Defined.

Lemma clear_further_down_led_off_witness :
  exists w',
    takeAction peekChar clear_down_board = Some (tt, w') /\
    glob w' = glob clear_down_board /\
    hal w' = hal clear_down_board /\
    rx w' = rx clear_down_board /\
    future w' = future clear_down_board /\
    Z.testbit (reg w' PRT2DR) 0 = true /\
    (forall r, r <> PRT2DR -> reg w' r = reg clear_down_board r).
Proof.
  apply (clear_further_down_led_off peekChar clear_down_board);
    [reflexivity | reflexivity | vm_compute; discriminate].
Defined.

Lemma own_ping_run :
  takeAction peekChar own_ping_board
  = Some (tt, run_of (takeAction peekChar) own_ping_board).
Proof. apply run_of_answer. vm_compute. reflexivity. Qed.

Lemma ping_answered_by_addressee_witness :
  exists w',
    takeAction peekChar own_ping_board = Some (tt, w') /\
    sent_on_both PING own_ping_board w' /\
    glob w' ID = 5 /\ glob w' CONFIGURED = 1 /\ glob w' SERVO_ID = 5.
Proof.
  exists (run_of (takeAction peekChar) own_ping_board).
  split; [exact own_ping_run|].
  destruct (ping_answered_by_addressee peekChar own_ping_board _ tt eq_refl
              own_ping_run) as (A & _ & I).
  split; [apply A; reflexivity|exact I].
Defined.

Lemma hello_forward_run :
  takeAction peekChar hello_forward_board
  = Some (tt, run_of (takeAction peekChar) hello_forward_board).
Proof. apply run_of_answer. vm_compute. reflexivity. Qed.

Lemma hello_forwarded_with_port_witness :
  exists w',
    takeAction peekChar hello_forward_board = Some (tt, w') /\
    glob w' CHILD = PORT_A /\
    glob w' STATE = WAIT /\
    glob w' ID = 5 /\
    wire TX_23 (hal w') = [] /\
    (glob w' CHILD = 0 /\ glob w' TIMEOUT = 0 /\ wire TX_014 (hal w') = [] \/
     is_port (glob w' CHILD) /\
     wire TX_014 (hal w') = [] ++ hello_frame 5 (glob w' CHILD)).
Proof.
  exists (run_of (takeAction peekChar) hello_forward_board).
  split; [exact hello_forward_run|].
  split; [vm_compute; reflexivity|].
  destruct (hello_forwarded_with_port peekChar hello_forward_board _ tt
              eq_refl ltac:(vm_compute; discriminate) eq_refl
              hello_forward_run) as (S & I & _ & _ & W & D).
  split; [exact S|]. split; [exact I|]. split; [exact W|exact D].
Defined.

Lemma forward_run :
  takeAction peekChar forward_board
  = Some (tt, run_of (takeAction peekChar) forward_board).
Proof. apply run_of_answer. vm_compute. reflexivity. Qed.

Lemma forwarding_is_silent_witness :
  exists w',
    takeAction peekChar forward_board = Some (tt, w') /\
    same_wires forward_board w' /\
    glob w' ID = 5 /\ glob w' CONFIGURED = 1 /\ glob w' SERVO_ID = 5 /\
    glob w' CHILD = PORT_A /\ glob w' STATE = WAIT /\ glob w' TIMEOUT = 0.
Proof.
  exists (run_of (takeAction peekChar) forward_board).
  split; [exact forward_run|].
  apply (forwarding_is_silent peekChar forward_board _ tt eq_refl);
    [|exact forward_run].
  right. split; [left; reflexivity|reflexivity].
Defined.



Lemma wait_reader_recognises_witness :
  (exists w',
      commandReady (fun l => (hd 0 l, tl l))
        (board [(STATE, WAIT)] [248; 248; 0; 5; 203; 0; 85; 85] [])
        = Some (1, w') /\
      glob w' COMMAND_SOURCE = 0 /\ glob w' COMMAND_DESTINATION = 5 /\
      glob w' COMMAND_TYPE = 203 /\ glob w' COMMAND_PARAM = 0 /\
      rx w' WAIT_RECV = [85; 85]) /\
  (exists w',
      commandReady (fun l => (hd 0 l, tl l)) one_start_board
        = Some (0, w') /\
      glob w' = glob one_start_board /\ hal w' = hal one_start_board /\
      rx w' WAIT_RECV = [2; 3; 4]).
Proof.
  split.
  - exact (proj1 (proj2
             (wait_reader_recognises
                (fun l => (hd 0 l, tl l)) (fun b l => eq_refl)
                (board [(STATE, WAIT)] [248; 248; 0; 5; 203; 0; 85; 85] [])
                248 248 [0; 5; 203; 0; 85; 85] eq_refl eq_refl))
             eq_refl eq_refl 0 5 203 0 [85; 85] eq_refl).
  - apply (proj2 (proj2
             (wait_reader_recognises
                (fun l => (hd 0 l, tl l)) (fun b l => eq_refl)
                one_start_board 248 1 [2; 3; 4] eq_refl eq_refl))).
    intros [_ H]. discriminate.
Defined.

Lemma taking_reader_recognises_witness :
  exists w',
    commandReady (fun l => (hd 0 l, tl l))
      (board [(STATE, WAIT)] [248; 248; 0; 254; 200; 0; 85; 85] [])
      = Some (1, w') /\
    glob w' COMMAND_SOURCE = 0 /\ glob w' COMMAND_DESTINATION = 254 /\
    glob w' COMMAND_TYPE = 200 /\ glob w' COMMAND_PARAM = 0 /\
    rx w' WAIT_RECV = [85; 85].
Proof.
  exact (proj1 (taking_reader_recognises
                  (fun l => (hd 0 l, tl l)) (fun b l => eq_refl)
                  (board [(STATE, WAIT)] [248; 248; 0; 254; 200; 0; 85; 85] [])
                  248 248 [0; 254; 200; 0; 85; 85] eq_refl eq_refl)
               eq_refl eq_refl 0 254 200 0 [85; 85] eq_refl).
Defined.

Lemma fresh_hello_run :
  sayHello fresh_board = Some (tt, run_of sayHello fresh_board).
Proof. apply run_of_answer. vm_compute. reflexivity. Qed.

Lemma emitted_frames_read_back_witness :
  exists v',
    commandReady (fun l => (hd 0 l, tl l))
      (board [(STATE, WAIT)] [248; 248; 251; 0; 200; 0; 85; 85] [])
      = Some (1, v') /\
    glob v' COMMAND_SOURCE = 251 /\ glob v' COMMAND_DESTINATION = 0 /\
    glob v' COMMAND_TYPE = 200 /\ glob v' COMMAND_PARAM = 0 /\
    rx v' WAIT_RECV = [85; 85].
Proof.
  apply (proj1 (emitted_frames_read_back
                  (fun l => (hd 0 l, tl l)) (fun b l => eq_refl)
                  fresh_board (run_of sayHello fresh_board) tt
                  (board [(STATE, WAIT)] [248; 248; 251; 0; 200; 0; 85; 85] [])
                  eq_refl));
    [exact fresh_hello_run|vm_compute; reflexivity].
Defined.

Lemma truncated_frame_blocks_witness :
  commandReady peekChar truncated_board = None.
Proof.
  apply (truncated_frame_blocks peekChar truncated_board WAIT_RECV
           START_TRANSMIT [248; 248; 0; 254]).
  - left. repeat split; reflexivity.
  - reflexivity.
  - reflexivity.
  - vm_compute. lia.
  - vm_compute. repeat first [constructor | discriminate].
Defined.

Lemma write_board_wait_run :
  configToggle WAIT write_board
  = Some (tt, run_of (configToggle WAIT) write_board).
Proof. apply run_of_answer. vm_compute. reflexivity. Qed.

Lemma role_switch_sets_the_pins_witness :
  exists w',
    configToggle WAIT write_board = Some (tt, w') /\
    Z.land (reg w' PRT0DR) 31 = 31 /\
    Z.land (reg w' PRT0GS) 31 = 31 /\
    Z.land (reg w' PRT0GS) 224 = 0 /\
    Z.testbit (reg w' PRT2DR) 0 = false.
Proof.
  exists (run_of (configToggle WAIT) write_board).
  split; [exact write_board_wait_run|].
  exact (role_switch_sets_the_pins WAIT write_board _ tt write_board_wait_run).
Defined.

Lemma servo_id_on_the_leds_witness :
  exists w',
    configToggle WAIT write_board = Some (tt, w') /\
    Z.land (reg w' PRT1DR) 255 = 247.
Proof.
  exists (run_of (configToggle WAIT) write_board).
  split; [exact write_board_wait_run|].
  apply (proj1 (servo_id_on_the_leds WAIT write_board _ tt
                  write_board_wait_run)).
  vm_compute. discriminate.
Defined.

Lemma one_configuration_loaded_witness :
  (forall c, loaded c (hal configured_board) = true <-> c = waiting) /\
  (forall u w',
      takeAction peekChar configured_board = Some (u, w') ->
      forall c, loaded c (hal w') = true <-> c = waiting) /\
  (forall mode u w',
      WAIT <= mode <= INITIALIZE ->
      configToggle mode configured_board = Some (u, w') ->
      glob w' STATE = mode /\
      forall c, loaded c (hal w') = true <-> role_config mode = Some c).
Proof.
  exact (one_configuration_loaded peekChar configured_board
           configured_board_reachable).
Defined.

Lemma settled_between_frames_witness :
  settled configured_board /\
  forall u w',
    takeAction peekChar configured_board = Some (u, w') -> settled w'.
Proof.
  exact (settled_between_frames peekChar configured_board
           configured_board_reachable).
Defined.

Lemma boot_finds_the_servo_witness :
  glob booted_board SERVO_ID = 5 /\
  SERVO_ID_MIN <= glob booted_board SERVO_ID <= SERVO_ID_MAX /\
  glob booted_board COMMAND_PARAM = STATUS_RET_LEVEL /\
  glob booted_board COMMAND_ERROR = 0 /\
  glob booted_board STATE = WAIT /\
  glob booted_board ID = DEFAULT_ID /\
  glob booted_board CONFIGURED = 0 /\
  glob booted_board CHILD = 0 /\
  wire TX_23 (hal booted_board) = wire TX_23 (hal boot_board) /\
  exists k j : nat,
    (1 <= k)%nat /\ (1 <= j)%nat /\
    wire TX_014 (hal booted_board) =
      wire TX_014 (hal boot_board) ++ pings k ++
      level_reads (glob booted_board SERVO_ID) j.
Proof.
  split; [vm_compute; reflexivity|].
  exact (boot_finds_the_servo peekChar boot_board booted_board tt boot_run).
Defined.

Lemma role_switch_to_no_role_witness :
  exists w',
    configToggle 9 configured_board = Some (tt, w') /\
    glob w' STATE = glob configured_board STATE /\
    forall c, loaded c (hal w') = false.
Proof.
  apply (role_switch_to_no_role 9 configured_board).
  - unfold WAIT, INITIALIZE. lia.
  - exact (reachable_role peekChar configured_board
             configured_board_reachable).
Defined.

Lemma timers_follow_roles_witness :
  (forall t, running t (hal configured_board) = false) /\
  (forall u w',
      takeAction peekChar configured_board = Some (u, w') ->
      forall t, running t (hal w') = false) /\
  (forall mode u w',
      WAIT <= mode <= INITIALIZE ->
      configToggle mode configured_board = Some (u, w') ->
      (forall t, running t (hal w') = true <-> role_timer mode = Some t) /\
      (mode <> WAIT -> glob w' TIMEOUT = 0)) /\
  (forall a b c d e u w',
      servoInstruction a b c d e configured_board = Some (u, w') ->
      glob w' TIMEOUT = 0 /\
      forall t, running t (hal w') = true <-> t = INIT_TIMEOUT).
Proof.
  exact (timers_follow_roles peekChar configured_board
           configured_board_reachable).
Defined.

Lemma staggered_script_lets_respond :
  lets_respond [TX_014; TX_23] staggered_script.
Proof.
  exists [], [Irq TX_01234_TIMEOUT],
    [[TxComplete TX_23]; [Irq HELLO_TIMEOUT]; [TxComplete TX_014]].
  split; [reflexivity|]. split; [left; reflexivity|].
  apply Forall_cons; [|apply Forall_cons; [|apply Forall_nil]].
  - apply Exists_cons_tl, Exists_cons_tl, Exists_cons_hd. left. reflexivity.
  - apply Exists_cons_hd. left. reflexivity.
Qed.

Lemma emitters_return_witness :
  exists w',
    configCleared staggered_clear_board = Some (tt, w') /\
    sent_on_both CONFIG_CLEARED staggered_clear_board w'.
Proof.
  exact (proj2 (proj2
           (proj1 (emitters_return staggered_clear_board)
                  staggered_script_lets_respond))).
Defined.

Lemma child_waits_are_bounded_witness :
  exists w',
    takeAction peekChar forward_board = Some (tt, w') /\
    (future w' = [] \/ awaits [Irq CHILD_1_TIMEOUT] [] (future w')).
Proof.
  destruct (proj1 (child_waits_are_bounded peekChar [Irq CHILD_1_TIMEOUT] []
                     forward_board (ex_intro _ [] eq_refl))
                  CHILD_1_TIMEOUT eq_refl (or_introl eq_refl)) as [_ H].
  apply H; [left; reflexivity|reflexivity].
Defined.

Lemma boot_blocks_without_servo_witness :
  main_init peekChar deaf_boot_board = None.
Proof.
  apply (boot_blocks_without_servo peekChar eq_refl deaf_boot_board).
  - reflexivity.
  - vm_compute. repeat first [constructor | discriminate].
Defined.

Lemma own_clear_run :
  takeAction peekChar own_clear_board
  = Some (tt, run_of (takeAction peekChar) own_clear_board).
Proof. apply run_of_answer. vm_compute. reflexivity. Qed.

Lemma one_answer_on_TX_23_witness :
  exists w',
    takeAction peekChar own_clear_board = Some (tt, w') /\
    wire TX_23 (hal w') = [] ++ [248; 248; 5; 0; 205; 85; 85].
Proof.
  exists (run_of (takeAction peekChar) own_clear_board).
  split; [exact own_clear_run|].
  exact (one_answer_on_TX_23 peekChar own_clear_board _ tt own_clear_run).
Defined.

Lemma hello_boot_run :
  main_init peekChar hello_boot_board
  = Some (tt, run_of (main_init peekChar) hello_boot_board).
Proof. apply run_of_answer. vm_compute. reflexivity. Qed.

Lemma greeted_run :
  main_pass peekChar (run_of (main_init peekChar) hello_boot_board)
  = Some (tt, greeted_board).
Proof.
  unfold greeted_board. apply run_of_answer. vm_compute. reflexivity.
Qed.

Lemma greeted_board_reachable : reachable peekChar greeted_board.
Proof.
  eapply reach_pass; [|exact greeted_run].
  eapply reach_boot. exact hello_boot_run.
Qed.

Lemma greeted_again_run :
  takeAction peekChar greeted_board
  = Some (tt, run_of (takeAction peekChar) greeted_board).
Proof. apply run_of_answer. vm_compute. reflexivity. Qed.

Lemma fresh_hello_bytes_witness :
  exists w',
    takeAction peekChar greeted_board = Some (tt, w') /\
    wire TX_014 (hal w') =
      wire TX_014 (hal greeted_board) ++ [248; 248; 251; 0; 200; 0; 85; 85] /\
    wire TX_23 (hal w') = wire TX_23 (hal greeted_board).
Proof.
  exists (run_of (takeAction peekChar) greeted_board).
  split; [exact greeted_again_run|].
  apply (fresh_hello_bytes peekChar greeted_board _ tt
           greeted_board_reachable);
    [vm_compute; reflexivity | vm_compute; reflexivity
     | exact greeted_again_run].
Defined.

Lemma handler_returns_witness :
  exists w',
    takeAction peekChar staggered_ping_board = Some (tt, w') /\
    sent_on_both PING staggered_ping_board w'.
Proof.
  exact (proj1 (proj1 (handler_returns peekChar staggered_ping_board)
                      staggered_script_lets_respond)
               eq_refl eq_refl).
Defined.

Lemma clear_config_handled_witness :
  (exists w',
      takeAction peekChar staggered_clear_board = Some (tt, w') /\
      wire TX_014 (hal w') = [] ++ [248; 248; 5; 0; 205; 85; 85] /\
      wire TX_23 (hal w') = [] ++ [248; 248; 5; 0; 205; 85; 85] /\
      glob w' ID = 251 /\ glob w' CONFIGURED = 0 /\ glob w' CHILD = 0 /\
      glob w' SERVO_ID = 5) /\
  (exists w',
      takeAction peekChar broadcast_clear_board = Some (tt, w') /\
      hal w' = [] /\
      (BROADCAST = BROADCAST \/ BROADCAST <= 5 ->
       glob w' ID = 251 /\ glob w' CONFIGURED = 0 /\ glob w' CHILD = 0) /\
      glob w' SERVO_ID = 5).
Proof.
  split.
  - exact (proj1 (clear_config_handled peekChar staggered_clear_board
                    eq_refl)
                 eq_refl staggered_script_lets_respond).
  - apply (proj1 (proj2 (clear_config_handled peekChar broadcast_clear_board
                           eq_refl))).
    vm_compute. discriminate.
Defined.


Lemma new_id_blocks_without_servo_witness :
  takeAction peekChar deaf_assign_board = None.
Proof.
  apply (new_id_blocks_without_servo peekChar eq_refl deaf_assign_board).
  - reflexivity.
  - reflexivity.
  - vm_compute. split; discriminate.
  - vm_compute. discriminate.
  - reflexivity.
  - vm_compute. repeat first [constructor | discriminate].
Defined.
